(** * Question-generation service: allocation, parsing and orchestration

    A shallow embedding of the core of the question-generation service:
    [utils/helpers.py] (the distribution allocator and the sequence builder),
    the three delimiter parsers and generators under [services/], and the
    orchestrator of [services/question_generation_service.py].

    Modelling choices.
    - Python [float] is IEEE-754 binary64: [spec_float] with [prec = 53] and
      [emax = 1024], with the Standard Library's executable operations.
    - Python [int] is [Z].
    - Python [str] is a [string] holding the UTF-8 encoding of the text; every
      delimiter of the parsers is ASCII, so splitting bytes and splitting code
      points agree.
    - A Python [dict] is an association list in insertion order with unique
      keys: assigning to a present key keeps its position.
    - Exceptions are values of [exn]; code that can raise lives in [result]. *)

From Stdlib Require Import ZArith List Bool Lia Ascii String Permutation.
From Stdlib Require Import Floats.SpecFloat.
From Stdlib Require Import Numbers.DecimalString.
Import ListNotations.

Open Scope list_scope.
Open Scope string_scope.
Open Scope Z_scope.

(* ================================================================== *)
(** * Exceptions *)
(* ================================================================== *)

Inductive exn_class :=
  | ValueError
  | OverflowError
  | ZeroDivisionError
  | KeyError
  | IndexError
  | ExceptionOther.

(** The exceptions modelled are instances of [Exception]; [str(e)] is the
    message. *)
Record exn := mk_exn { exn_cls : exn_class; exn_msg : string }.

Inductive result (A : Type) :=
  | Ok (a : A)
  | Raise (e : exn).
Arguments Ok {A} a.
Arguments Raise {A} e.

Definition bind {A B} (r : result A) (k : A -> result B) : result B :=
  match r with
  | Ok a => k a
  | Raise e => Raise e
  end.

Notation "x <- c ;; k" := (bind c (fun x => k))
  (at level 61, c at next level, right associativity).
Notation "' pat <- c ;; k" := (bind c (fun x => match x with pat => k end))
  (at level 61, pat pattern, c at next level, right associativity).

(** A [for] loop whose body may raise: the state is threaded through the
    items in order and the first exception ends the loop. *)
Fixpoint for_each {A S} (l : list A) (body : S -> A -> result S) (s : S)
  : result S :=
  match l with
  | [] => Ok s
  | a :: l' => s' <- body s a ;; for_each l' body s'
  end.

Fixpoint map_result {A B} (f : A -> result B) (l : list A) : result (list B) :=
  match l with
  | [] => Ok []
  | a :: l' => b <- f a ;; bs <- map_result f l' ;; Ok (b :: bs)
  end.

(* ================================================================== *)
(** * Python floats (binary64) *)
(* ================================================================== *)

Module PyFloat.

Definition prec : Z := 53.
Definition emax : Z := 1024.

Definition float := spec_float.

Definition fmul : float -> float -> float := SFmul prec emax.
Definition fadd : float -> float -> float := SFadd prec emax.
Definition fsub : float -> float -> float := SFsub prec emax.
Definition flt : float -> float -> bool := SFltb.

Definition is_nan (x : float) : bool :=
  match x with S754_nan => true | _ => false end.

Definition is_zero (x : float) : bool :=
  match x with S754_zero _ => true | _ => false end.

(** [float(n)] for an [int]: round to nearest even, [OverflowError] when
    the integer is out of range. *)
Definition float_of_int (n : Z) : result float :=
  match binary_normalize prec emax n 0 false with
  | S754_infinity _ =>
      Raise (mk_exn OverflowError "int too large to convert to float")
  | f => Ok f
  end.

(** [int(x)]: truncation toward zero; raises on NaN and infinities. *)
Definition int_of_float (x : float) : result Z :=
  match x with
  | S754_nan =>
      Raise (mk_exn ValueError "cannot convert float NaN to integer")
  | S754_infinity _ =>
      Raise (mk_exn OverflowError "cannot convert float infinity to integer")
  | S754_zero _ => Ok 0
  | S754_finite s m e =>
      Ok (cond_Zopp s
            (match e with
             | Z0 => Zpos m
             | Zpos p => Zpos m * 2 ^ Zpos p
             | Zneg p => Zpos m / 2 ^ Zpos p
             end))
  end.

(** Mathematical floor of a finite float ([None] on NaN and infinities). *)
Definition floor (x : float) : option Z :=
  match x with
  | S754_zero _ => Some 0
  | S754_finite s m e =>
      Some (match e with
            | Z0 => cond_Zopp s (Zpos m)
            | Zpos p => cond_Zopp s (Zpos m) * 2 ^ Zpos p
            | Zneg p => cond_Zopp s (Zpos m) / 2 ^ Zpos p
            end)
  | _ => None
  end.

(** [x >= 0] in the sense of Python's comparison ([-0.0 >= 0] holds). *)
Definition nonneg (x : float) : bool :=
  match x with
  | S754_zero _ => true
  | S754_finite s _ _ => negb s
  | S754_infinity s => negb s
  | S754_nan => false
  end.

(** [n * x] for an [int] [n] and a [float] [x]. *)
Definition int_mul_float (n : Z) (x : float) : result float :=
  y <- float_of_int n ;; Ok (fmul y x).

(** [x - n] for a [float] [x] and an [int] [n]. *)
Definition float_sub_int (x : float) (n : Z) : result float :=
  y <- float_of_int n ;; Ok (fsub x y).

(** [a / b] on [int]s: the correctly rounded quotient. *)
Definition int_truediv (a b : Z) : result float :=
  if b =? 0 then Raise (mk_exn ZeroDivisionError "division by zero")
  else if a =? 0 then Ok (S754_zero false)
  else
    let s := xorb (a <? 0) (b <? 0) in
    let '(mz, ez, lz) :=
      SFdiv_core_binary prec emax (Z.abs a) 0 (Z.abs b) 0 in
    match binary_round_aux prec emax s mz ez lz with
    | S754_infinity _ =>
        Raise (mk_exn OverflowError
                 "integer division result too large for a float")
    | f => Ok f
    end.

(** Decimal literals: [num/den] correctly rounded, as the parser of float
    literals does. *)
Definition lit (num den : Z) : float :=
  SFdiv prec emax (binary_normalize prec emax num 0 false)
                  (binary_normalize prec emax den 0 false).

Definition one : float := S754_finite false 4503599627370496 (-52).
Definition zero : float := S754_zero false.

End PyFloat.
Import PyFloat.

(* ================================================================== *)
(** * Python dictionaries with string keys *)
(* ================================================================== *)

Section Dict.
Context {V : Type}.

Definition dict := list (string * V).

(** [d[k] = v]: a present key keeps its position, a new key goes last. *)
Fixpoint dict_set (k : string) (v : V) (d : dict) : dict :=
  match d with
  | [] => [(k, v)]
  | (k', v') :: r =>
      if String.eqb k k' then (k, v) :: r else (k', v') :: dict_set k v r
  end.

Fixpoint dict_get (k : string) (d : dict) : option V :=
  match d with
  | [] => None
  | (k', v') :: r => if String.eqb k k' then Some v' else dict_get k r
  end.

Definition dict_mem (k : string) (d : dict) : bool :=
  match dict_get k d with Some _ => true | None => false end.

(** [d[k] = f(d[k])] on a present key; nothing happens on an absent one
    (the callers only name present keys). *)
Fixpoint dict_adjust (f : V -> V) (k : string) (d : dict) : dict :=
  match d with
  | [] => []
  | (k', v') :: r =>
      if String.eqb k k' then (k', f v') :: r
      else (k', v') :: dict_adjust f k r
  end.

Definition dict_keys (d : dict) : list string := map fst d.
Definition dict_values (d : dict) : list V := map snd d.
End Dict.
Arguments dict V : clear implicits.

(* ================================================================== *)
(** * Python strings *)
(* ================================================================== *)

Module PyStr.

(** [s] without its prefix [p], when [s] starts with [p]. *)
Fixpoint strip_prefix (p s : string) : option string :=
  match p with
  | EmptyString => Some s
  | String a p' =>
      match s with
      | EmptyString => None
      | String b s' => if Ascii.eqb a b then strip_prefix p' s' else None
      end
  end.

(** The text before and after the first occurrence of [sep] in [s]. *)
Fixpoint find_sub (sep s : string) : option (string * string) :=
  match strip_prefix sep s with
  | Some rest => Some (EmptyString, rest)
  | None =>
      match s with
      | EmptyString => None
      | String c s' =>
          match find_sub sep s' with
          | Some (a, b) => Some (String c a, b)
          | None => None
          end
      end
  end.

(** [sep in s] *)
Definition contains (sep s : string) : bool :=
  match find_sub sep s with Some _ => true | None => false end.

(** At most [n] cuts at successive occurrences of [sep], left to right. *)
Fixpoint split_fuel (n : nat) (sep s : string) : list string :=
  match n with
  | O => [s]
  | S n' =>
      match find_sub sep s with
      | None => [s]
      | Some (a, b) => a :: split_fuel n' sep b
      end
  end.

(** [s.split(sep)] for a non-empty [sep]: a text of length [n] holds at
    most [n] occurrences. *)
Definition split (sep s : string) : list string :=
  split_fuel (String.length s) sep s.

(** [s.split(sep, maxsplit)] *)
Definition split_max (sep : string) (maxsplit : nat) (s : string)
  : list string :=
  split_fuel (Nat.min maxsplit (String.length s)) sep s.

(** [l[i]], raising [IndexError] out of range. *)
Definition getitem {A} (l : list A) (i : nat) : result A :=
  match nth_error l i with
  | Some a => Ok a
  | None => Raise (mk_exn IndexError "list index out of range")
  end.

(** UTF-8 encodings of the characters on which [str.isspace] holds:
    U+0009..U+000D, U+001C..U+001F, U+0020, U+0085, U+00A0, U+1680,
    U+2000..U+200A, U+2028, U+2029, U+202F, U+205F, U+3000. *)
Definition bytes (l : list nat) : string :=
  fold_right (fun n s => String (ascii_of_nat n) s) EmptyString l.

Definition whitespace : list string :=
  map bytes
    [ [9%nat]; [10%nat]; [11%nat]; [12%nat]; [13%nat];
      [28%nat]; [29%nat]; [30%nat]; [31%nat]; [32%nat];
      [194; 133]%nat; [194; 160]%nat; [225; 154; 128]%nat;
      [226; 128; 128]%nat; [226; 128; 129]%nat; [226; 128; 130]%nat;
      [226; 128; 131]%nat; [226; 128; 132]%nat; [226; 128; 133]%nat;
      [226; 128; 134]%nat; [226; 128; 135]%nat; [226; 128; 136]%nat;
      [226; 128; 137]%nat; [226; 128; 138]%nat;
      [226; 128; 168]%nat; [226; 128; 169]%nat; [226; 128; 175]%nat;
      [226; 129; 159]%nat; [227; 128; 128]%nat ].

Fixpoint first_some {A B} (f : A -> option B) (l : list A) : option B :=
  match l with
  | [] => None
  | a :: l' => match f a with Some x => Some x | None => first_some f l' end
  end.

(** [s] without its first character when that one is whitespace. *)
Definition drop_space (ws : list string) (s : string) : option string :=
  first_some (fun w => strip_prefix w s) ws.

Fixpoint lstrip_fuel (ws : list string) (n : nat) (s : string) : string :=
  match n with
  | O => s
  | S n' =>
      match drop_space ws s with
      | Some r => lstrip_fuel ws n' r
      | None => s
      end
  end.

Fixpoint rev_string (s : string) (acc : string) : string :=
  match s with
  | EmptyString => acc
  | String c s' => rev_string s' (String c acc)
  end.

Definition reverse (s : string) : string := rev_string s EmptyString.

Definition lstrip (s : string) : string :=
  lstrip_fuel whitespace (String.length s) s.

Definition rstrip (s : string) : string :=
  reverse (lstrip_fuel (map reverse whitespace) (String.length s)
                       (reverse s)).

(** [s.strip()] *)
Definition strip (s : string) : string := lstrip (rstrip s).

(** [sep.join(l)] *)
Fixpoint join (sep : string) (l : list string) : string :=
  match l with
  | [] => EmptyString
  | [x] => x
  | x :: l' => x ++ sep ++ join sep l'
  end.

(** [s.replace(old, new)] for a one-character [old]. *)
Fixpoint replace_char (old : ascii) (new : string) (s : string) : string :=
  match s with
  | EmptyString => EmptyString
  | String c s' =>
      (if Ascii.eqb c old then new else String c EmptyString)
        ++ replace_char old new s'
  end.

(** [bool(s)] *)
Definition truthy (s : string) : bool :=
  match s with EmptyString => false | _ => true end.

(** [str(n)] for an [int]. *)
Definition str_of_int (n : Z) : string :=
  NilZero.string_of_int (Z.to_int n).

Definition LF : string := bytes [10%nat].

End PyStr.
Import PyStr.

(* ================================================================== *)
(** * utils/helpers.py *)
(* ================================================================== *)

(** The value stored per combination while allocating. *)
Record frac_entry := mk_frac {
  fe_question_type : string;
  fe_difficulty : string;
  fe_blooms_level : string;
  fe_exact_count : float;
  fe_count : Z
}.

(** The value returned per combination. *)
Record alloc_entry := mk_alloc {
  question_type : string;
  difficulty : string;
  blooms_level : string;
  count : Z
}.

Definition proportions := list (string * float).

(** [f"{q_type}_{difficulty}_{blooms}"] *)
Definition combo_key (q_type difficulty blooms : string) : string :=
  q_type ++ "_" ++ difficulty ++ "_" ++ blooms.

(** [total_questions * q_ratio * d_ratio * b_ratio], left to right. *)
Definition exact_count_of (total_questions : Z) (q_ratio d_ratio b_ratio : float)
  : result float :=
  tq <- int_mul_float total_questions q_ratio ;;
  Ok (fmul (fmul tq d_ratio) b_ratio).

(** The three nested loops that fill [fractional_distribution]. *)
Definition fractional_distribution (total_questions : Z)
    (question_type_dist difficulty_dist blooms_dist : proportions)
  : result (dict frac_entry) :=
  for_each question_type_dist (fun tbl '(q_type, q_ratio) =>
    for_each difficulty_dist (fun tbl '(difficulty, d_ratio) =>
      for_each blooms_dist (fun tbl '(blooms, b_ratio) =>
        exact_count <- exact_count_of total_questions q_ratio d_ratio b_ratio ;;
        c <- int_of_float exact_count ;;
        Ok (dict_set (combo_key q_type difficulty blooms)
              (mk_frac q_type difficulty blooms exact_count c) tbl))
      tbl)
    tbl)
  [].

Definition sum_Z (l : list Z) : Z := fold_right Z.add 0 l.

(** The sort key of one combination: [exact_count - count]. *)
Definition fractional_part (e : frac_entry) : result float :=
  float_sub_int (fe_exact_count e) (fe_count e).

Definition sort_key (tbl : dict frac_entry) (k : string) : result float :=
  match dict_get k tbl with
  | Some e => fractional_part e
  | None => Raise (mk_exn KeyError k)
  end.

(** [sorted(..., key=..., reverse=True)] on decorated items: a stable sort
    into descending key order that only uses [<] on the keys.  [x] comes from
    a position before every item of [l]. *)
Fixpoint insert_desc {A} (x : float * A) (l : list (float * A))
  : list (float * A) :=
  match l with
  | [] => [x]
  | y :: l' => if flt (fst x) (fst y) then y :: insert_desc x l' else x :: l
  end.

Fixpoint sorted_desc {A} (l : list (float * A)) : list (float * A) :=
  match l with
  | [] => []
  | x :: l' => insert_desc x (sorted_desc l')
  end.

Definition sorted_keys_of (tbl : dict frac_entry) : result (list string) :=
  decorated <- map_result (fun k => v <- sort_key tbl k ;; Ok (v, k))
                          (dict_keys tbl) ;;
  Ok (map snd (sorted_desc decorated)).

Definition incr_count (e : frac_entry) : frac_entry :=
  mk_frac (fe_question_type e) (fe_difficulty e) (fe_blooms_level e)
          (fe_exact_count e) (fe_count e + 1).

(** [for i in range(remainder): if i < len(sorted_keys): ... += 1] *)
Definition distribute_remainder (remainder : Z) (sorted_keys : list string)
    (tbl : dict frac_entry) : dict frac_entry :=
  fold_left
    (fun tbl i =>
       if (i <? List.length sorted_keys)%nat
       then dict_adjust incr_count (nth i sorted_keys "") tbl
       else tbl)
    (seq 0 (Z.to_nat remainder)) tbl.

(** The last loop: keep the combinations with a positive count. *)
Definition clean_distribution (tbl : dict frac_entry) : dict alloc_entry :=
  fold_left
    (fun distribution '(key, item) =>
       if fe_count item >? 0
       then dict_set key
              (mk_alloc (fe_question_type item) (fe_difficulty item)
                        (fe_blooms_level item) (fe_count item))
              distribution
       else distribution)
    tbl [].

(** The table after the remainder pass, before zero counts are dropped. *)
Definition allocation_table (total_questions : Z)
    (question_type_dist difficulty_dist blooms_dist : proportions)
  : result (dict frac_entry) :=
  tbl <- fractional_distribution total_questions question_type_dist
           difficulty_dist blooms_dist ;;
  let current_total := sum_Z (map fe_count (dict_values tbl)) in
  let remainder := total_questions - current_total in
  sorted_keys <- sorted_keys_of tbl ;;
  Ok (distribute_remainder remainder sorted_keys tbl).

Definition calculate_question_distribution (total_questions : Z)
    (question_type_dist difficulty_dist blooms_dist : proportions)
  : result (dict alloc_entry) :=
  tbl <- allocation_table total_questions question_type_dist
           difficulty_dist blooms_dist ;;
  Ok (clean_distribution tbl).

(** [create_question_sequence]: each entry's pair appended [count] times. *)
Definition create_question_sequence (question_breakdown : dict alloc_entry)
  : list (string * string) :=
  fold_left
    (fun sequence '(combo_key, specs) =>
       fold_left
         (fun sequence (_ : nat) =>
            (sequence ++ [(difficulty specs, blooms_level specs)])%list)
         (seq 0 (Z.to_nat (count specs))) sequence)
    question_breakdown [].

(* ================================================================== *)
(** * services/mcq_generator.py: the parser *)
(* ================================================================== *)

Record MCQQuestion := mk_mcq {
  mcq_question_id : string;
  mcq_question : string;
  mcq_answer : string;
  mcq_explanation : string;
  mcq_distractors : list string;
  mcq_difficulty : string;
  mcq_blooms_level : string;
  mcq_question_type : string
}.

(** Building the pydantic record from [question_data]: every field already
    has its declared type, so validation accepts the data. *)
Definition validate {A} (a : A) : result A := Ok a.

(** [[b.strip() for b in blocks if b.strip()]] *)
Definition surviving_blocks (delimiter response_text : string) : list string :=
  map strip (filter (fun b => truthy (strip b)) (split delimiter response_text)).

(** The first [if]: the text before ["ANSWER:"] and the rest of the block. *)
Definition take_question (block : string) : result (string * string) :=
  if contains "ANSWER:" block then
    q <- getitem (split "ANSWER:" block) 0 ;;
    a <- getitem (split "ANSWER:" block) 1 ;;
    Ok (strip q, "ANSWER:" ++ a)
  else Ok ("", block).

(** The second [if] of the MCQ parser: the answer and the rest. *)
Definition take_answer (block : string) : result (string * string) :=
  if contains "ANSWER:" block && contains "EXPLANATION:" block then
    a <- getitem (split "ANSWER:" block) 1 ;;
    a0 <- getitem (split "EXPLANATION:" a) 0 ;;
    e <- getitem (split "EXPLANATION:" block) 1 ;;
    Ok (strip a0, "EXPLANATION:" ++ e)
  else Ok ("", block).

Definition take_mcq_explanation (block : string) : result string :=
  if contains "EXPLANATION:" block then
    explanation_text <- getitem (split "EXPLANATION:" block) 1 ;;
    if contains "DISTRACTOR1:" explanation_text then
      e <- getitem (split "DISTRACTOR1:" explanation_text) 0 ;;
      Ok (strip e)
    else Ok (strip explanation_text)
  else Ok "".

Definition distractor_keys : list string :=
  ["DISTRACTOR1:"; "DISTRACTOR2:"; "DISTRACTOR3:"].

(** One turn of [for i, key in enumerate(distractor_keys)]. *)
Definition take_distractor (block : string) (distractors : list string)
    (i_key : nat * string) : result (list string) :=
  let '(i, key) := i_key in
  if contains key block then
    let next_key := nth_error distractor_keys (i + 1) in
    d <- getitem (split key block) 1 ;;
    match next_key with
    | Some nk =>
        if contains nk block then
          d0 <- getitem (split nk d) 0 ;;
          Ok (distractors ++ [strip d0])%list
        else Ok (distractors ++ [strip d])%list
    | None => Ok (distractors ++ [strip d])%list
    end
  else Ok distractors.

Definition enumerate {A} (l : list A) : list (nat * A) :=
  combine (seq 0 (List.length l)) l.

(** The metadata assigned by position: the pair at [question_index] and the
    next index, or empty fields when the sequence is used up. *)
Definition assign_metadata (question_sequence : list (string * string))
    (question_index : nat) : string * string * nat :=
  match nth_error question_sequence question_index with
  | Some (d, bl) => (d, bl, S question_index)
  | None => ("", "", question_index)
  end.

(** The body of the MCQ loop for one block; [uid] is [str(uuid.uuid4())]. *)
Definition mcq_block (question_sequence : list (string * string))
    (uid : string) (question_index : nat) (block : string)
  : result (MCQQuestion * nat) :=
  '(question, block) <- take_question block ;;
  '(answer, block) <- take_answer block ;;
  explanation <- take_mcq_explanation block ;;
  distractors <- for_each (enumerate distractor_keys) (take_distractor block) [] ;;
  let '(d, bl, question_index) := assign_metadata question_sequence question_index in
  Ok (mk_mcq uid question answer explanation distractors d bl "mcq",
      question_index).

(** One turn of the loop shared by the three parsers, on the state
    [(questions, question_index, drawn)]: [uuid4 drawn] is the identifier
    drawn for this block; a record that fails validation is skipped. *)
Definition parse_step {Q} (uuid4 : nat -> string)
    (body : string -> nat -> string -> result (Q * nat))
  : list Q * nat * nat -> string -> result (list Q * nat * nat) :=
  fun '(questions, question_index, drawn) block =>
    '(question_data, question_index) <-
       body (uuid4 drawn) question_index block ;;
    match validate question_data with
    | Ok question => Ok ((questions ++ [question])%list, question_index, S drawn)
    | Raise _ => Ok (questions, question_index, S drawn)
    end.

Definition parse_blocks {Q} (uuid4 : nat -> string)
    (body : string -> nat -> string -> result (Q * nat))
    (blocks : list string) : result (list Q) :=
  '(questions, _, _) <- for_each blocks (parse_step uuid4 body) ([], O, O) ;;
  Ok questions.

Definition parse_mcq_response (uuid4 : nat -> string) (response_text : string)
    (question_breakdown : dict alloc_entry) : result (list MCQQuestion) :=
  let question_sequence := create_question_sequence question_breakdown in
  parse_blocks uuid4 (mcq_block question_sequence)
    (surviving_blocks "QUESTION:" response_text).

(* ================================================================== *)
(** * services/fib_generator.py and services/tf_generator.py: the parsers *)
(* ================================================================== *)

Record FillInBlankQuestion := mk_fib {
  fib_question_id : string;
  fib_question : string;
  fib_answer : list string;
  fib_explanation : string;
  fib_difficulty : string;
  fib_blooms_level : string;
  fib_question_type : string
}.

Record TrueFalseQuestion := mk_tf {
  tf_question_id : string;
  tf_statement : string;
  tf_answer : string;
  tf_explanation : string;
  tf_difficulty : string;
  tf_blooms_level : string;
  tf_question_type : string
}.

(** [line[0].isdigit()] on a non-empty line: decided on the first byte for an
    ASCII character, by [isdigit_nonascii] (the Unicode digit table) for the
    others. *)
Definition first_isdigit (isdigit_nonascii : string -> bool) (line : string)
  : bool :=
  match line with
  | EmptyString => false
  | String c _ =>
      let n := nat_of_ascii c in
      if (n <? 128)%nat then (48 <=? n)%nat && (n <=? 57)%nat
      else isdigit_nonascii line
  end.

(** One turn of [for line in answer_lines]. *)
Definition fib_answer_line (isdigit_nonascii : string -> bool)
    (answer : list string) (line : string) : result (list string) :=
  let line := strip line in
  if truthy line && (first_isdigit isdigit_nonascii line && contains ". " line)
  then
    answer_item <- getitem (split_max ". " 1 line) 1 ;;
    Ok (answer ++ [strip answer_item])%list
  else if truthy line then Ok (answer ++ [line])%list
  else Ok answer.

(** The second [if] of the fill-in-blank parser. *)
Definition take_fib_answer (isdigit_nonascii : string -> bool) (block : string)
  : result (list string * string) :=
  if contains "ANSWER:" block && contains "EXPLANATION:" block then
    a <- getitem (split "ANSWER:" block) 1 ;;
    a0 <- getitem (split "EXPLANATION:" a) 0 ;;
    let answer_text := strip a0 in
    let answer_lines := split LF answer_text in
    answer <- for_each answer_lines (fib_answer_line isdigit_nonascii) [] ;;
    e <- getitem (split "EXPLANATION:" block) 1 ;;
    Ok (answer, "EXPLANATION:" ++ e)
  else Ok ([], block).

Definition take_explanation (block : string) : result string :=
  if contains "EXPLANATION:" block then
    explanation_text <- getitem (split "EXPLANATION:" block) 1 ;;
    Ok (strip explanation_text)
  else Ok "".

Definition fib_block (isdigit_nonascii : string -> bool)
    (question_sequence : list (string * string))
    (uid : string) (question_index : nat) (block : string)
  : result (FillInBlankQuestion * nat) :=
  '(question, block) <- take_question block ;;
  '(answer, block) <- take_fib_answer isdigit_nonascii block ;;
  explanation <- take_explanation block ;;
  let '(d, bl, question_index) := assign_metadata question_sequence question_index in
  Ok (mk_fib uid question answer explanation d bl "fib", question_index).

Definition parse_fib_response (isdigit_nonascii : string -> bool)
    (uuid4 : nat -> string) (response_text : string)
    (question_breakdown : dict alloc_entry)
  : result (list FillInBlankQuestion) :=
  let question_sequence := create_question_sequence question_breakdown in
  parse_blocks uuid4 (fib_block isdigit_nonascii question_sequence)
    (surviving_blocks "QUESTION:" response_text).

(** The second step of the true/false parser; the block is left as it is. *)
Definition take_tf_answer (block : string) : result string :=
  if contains "ANSWER:" block && contains "EXPLANATION:" block then
    a <- getitem (split "ANSWER:" block) 1 ;;
    a0 <- getitem (split "EXPLANATION:" a) 0 ;;
    Ok (strip a0)
  else if contains "ANSWER:" block then
    a <- getitem (split "ANSWER:" block) 1 ;;
    Ok (strip a)
  else Ok "".

Definition tf_block (question_sequence : list (string * string))
    (uid : string) (question_index : nat) (block : string)
  : result (TrueFalseQuestion * nat) :=
  '(statement, block) <- take_question block ;;
  answer <- take_tf_answer block ;;
  explanation <- take_explanation block ;;
  let '(d, bl, question_index) := assign_metadata question_sequence question_index in
  Ok (mk_tf uid statement answer explanation d bl "tf", question_index).

Definition parse_tf_response (uuid4 : nat -> string) (response_text : string)
    (question_breakdown : dict alloc_entry)
  : result (list TrueFalseQuestion) :=
  let question_sequence := create_question_sequence question_breakdown in
  parse_blocks uuid4 (tf_block question_sequence)
    (surviving_blocks "STATEMENT:" response_text).

(* ================================================================== *)
(** * generate_filename and the external collaborators *)
(* ================================================================== *)

(** [Optional[Union[str, List[str]]]] *)
Inductive objectives :=
  | NoObjectives
  | ObjectiveText (s : string)
  | ObjectiveList (l : list string).

Definition objectives_truthy (o : objectives) : bool :=
  match o with
  | NoObjectives => false
  | ObjectiveText s => truthy s
  | ObjectiveList l => match l with [] => false | _ => true end
  end.

Definition hundred : float := S754_finite false 7036874417766400 (-46).

(** ["_".join([f"{label}{int(prop*100)}" for label, prop in dist.items()])] *)
Definition distribution_str (dist : proportions) : result string :=
  parts <- map_result (fun '(label, prop) =>
                         n <- int_of_float (fmul prop hundred) ;;
                         Ok (label ++ str_of_int n)) dist ;;
  Ok (join "_" parts).

Definition suffix_of (question_type : string) : string :=
  if String.eqb question_type "mcq" then "mcqs"
  else if String.eqb question_type "fib" then "fib"
  else if String.eqb question_type "tf" then "tf"
  else question_type.

Definition generate_filename (chapter_name : string)
    (difficulty_distribution blooms_distribution : proportions)
    (question_type : string) (learning_objectives : objectives)
  : result string :=
  let clean_chapter_name :=
    replace_char "/" "_" (replace_char " " "_" chapter_name) in
  difficulty_str <- distribution_str difficulty_distribution ;;
  blooms_str <- distribution_str blooms_distribution ;;
  let filename_parts := [clean_chapter_name; difficulty_str; blooms_str] in
  let filename_parts :=
    if objectives_truthy learning_objectives then
      let obj_str :=
        "lo" ++ match learning_objectives with
                | ObjectiveList l => join "_" l
                | ObjectiveText s => s
                | NoObjectives => ""
                end in
      (filename_parts ++ [obj_str])%list
    else filename_parts in
  Ok (join "_" filename_parts ++ "_" ++ suffix_of question_type ++ ".json").

(** A generated record of any of the three shapes ([q.dict()]). *)
Inductive question :=
  | McqRecord (q : MCQQuestion)
  | FibRecord (q : FillInBlankQuestion)
  | TfRecord (q : TrueFalseQuestion).

(** The values a generator renders its prompt from; the prompt text itself
    is not modelled. *)
Record prompt := mk_prompt {
  prompt_type : string;
  prompt_content : string;
  prompt_num_questions : Z;
  prompt_breakdown : dict alloc_entry;
  prompt_difficulty : proportions;
  prompt_blooms : proportions
}.

(** The world outside the core: the content store, the completion client,
    the file system, the identifier generator and the Unicode digit table. *)
Record env := mk_env {
  retrieve_chapter_content :
    string -> string -> option Z -> option Z -> result string;
  stream_complete : prompt -> result string;
  save_questions_to_file : list question -> string -> result unit;
  uuid4 : string -> nat -> string;
  isdigit_nonascii : string -> bool;
  success_tail : string
}.

(** [LLMService.generate_completion]: any failure of the client is raised
    again as [Exception("LLM completion error: ...")]. *)
Definition generate_completion (w : env) (p : prompt) : result string :=
  match stream_complete w p with
  | Ok completion => Ok completion
  | Raise e =>
      Raise (mk_exn ExceptionOther ("LLM completion error: " ++ exn_msg e))
  end.

(* ================================================================== *)
(** * The three generators *)
(* ================================================================== *)

Record metadata := mk_metadata {
  md_chapter_name : string;
  md_content_id : string;
  md_learning_objectives : objectives;
  md_num_questions : nat;
  md_difficulty_distribution : proportions;
  md_blooms_taxonomy_distribution : proportions;
  md_filename : string
}.

Record generated := mk_generated {
  gen_response : list question;
  gen_metadata : metadata
}.

Definition no_content_message (chapter_name content_id : string) : string :=
  "No content found for chapter '" ++ chapter_name ++ "' in '" ++ content_id
  ++ "'".

(** The body common to [generate_mcqs], [generate_fill_in_blank] and
    [generate_true_false]; they differ in the type tag, the parser and the
    message raised when nothing was parsed. *)
Definition generate (w : env) (tag : string)
    (parse : string -> dict alloc_entry -> result (list question))
    (nothing_parsed : string)
    (chapter_name content_id : string) (learning_objectives : objectives)
    (num_questions : Z)
    (difficulty_distribution blooms_taxonomy_distribution : proportions)
    (chapter_content : option string) (max_chunks max_chars : option Z)
  : result generated :=
  chapter_content <-
    match chapter_content with
    | None => retrieve_chapter_content w chapter_name content_id
                max_chunks max_chars
    | Some c => Ok c
    end ;;
  if negb (truthy chapter_content) then
    Raise (mk_exn ValueError (no_content_message chapter_name content_id))
  else
  question_breakdown <-
    calculate_question_distribution num_questions [(tag, one)]
      difficulty_distribution blooms_taxonomy_distribution ;;
  let p := mk_prompt tag chapter_content num_questions question_breakdown
             difficulty_distribution blooms_taxonomy_distribution in
  response <- generate_completion w p ;;
  questions <- parse response question_breakdown ;;
  match questions with
  | [] => Raise (mk_exn ValueError nothing_parsed)
  | _ =>
    filename <- generate_filename chapter_name difficulty_distribution
                  blooms_taxonomy_distribution tag learning_objectives ;;
    _ <- save_questions_to_file w questions filename ;;
    Ok (mk_generated questions
          (mk_metadata chapter_name content_id learning_objectives
             (List.length questions) difficulty_distribution
             blooms_taxonomy_distribution filename))
  end.

Definition map_ok {A B} (f : A -> B) (r : result (list A)) : result (list B) :=
  l <- r ;; Ok (map f l).

Definition generate_mcqs (w : env) :=
  generate w "mcq"
    (fun response breakdown =>
       map_ok McqRecord (parse_mcq_response (uuid4 w "mcq") response breakdown))
    "No valid MCQs could be parsed from LLM response".

Definition generate_fill_in_blank (w : env) :=
  generate w "fib"
    (fun response breakdown =>
       map_ok FibRecord
         (parse_fib_response (isdigit_nonascii w) (uuid4 w "fib")
            response breakdown))
    "No valid fill-in-the-blank questions could be parsed from LLM response".

Definition generate_true_false (w : env) :=
  generate w "tf"
    (fun response breakdown =>
       map_ok TfRecord (parse_tf_response (uuid4 w "tf") response breakdown))
    "No valid true/false questions could be parsed from LLM response".

(* ================================================================== *)
(** * services/question_generation_service.py *)
(* ================================================================== *)

Record QuestionGenerationRequest := mk_request {
  req_contentId : string;
  req_chapter_name : string;
  req_learning_objectives : objectives;
  req_total_questions : Z;
  req_question_type_distribution : proportions;
  req_difficulty_distribution : proportions;
  req_blooms_taxonomy_distribution : proportions;
  req_session_id : string;
  req_max_chunks : Z;
  req_max_chars : Z
}.

(** The value stored per question type in [data]: [{"response": [...]}], or
    [None]. *)
Definition type_data := option (list question).

Record QuestionGenerationResponse := mk_response {
  status : string;
  message : string;
  session_id : string;
  contentId : string;
  chapter_name : string;
  learning_objectives : objectives;
  total_questions : Z;
  question_type_distribution : proportions;
  difficulty_distribution : proportions;
  blooms_taxonomy_distribution : proportions;
  files_generated : list string;
  data : dict type_data
}.

(** What one pipeline hands back:
    [(question_type, file_name, question_data, error)]. *)
Record pipeline_result := mk_pipeline {
  pr_question_type : string;
  pr_file_name : option string;
  pr_question_data : type_data;
  pr_error : option string
}.

Definition _group_by_question_type (question_dist : dict alloc_entry)
  : dict (list alloc_entry) :=
  fold_left
    (fun type_groups '(key, config) =>
       let q_type := question_type config in
       let type_groups :=
         if negb (dict_mem q_type type_groups)
         then dict_set q_type [] type_groups else type_groups in
       dict_adjust (fun l => (l ++ [config])%list) q_type type_groups)
    question_dist [].

Definition total_for_type (configs : list alloc_entry) : Z :=
  sum_Z (map count configs).

(** The two combined distributions the orchestrator builds for one type:
    every entry adds [count / total_for_type] to its difficulty and to its
    level, each starting from [0]. *)
Definition type_distributions (configs : list alloc_entry)
  : result (proportions * proportions) :=
  for_each configs
    (fun '(difficulty_dist_for_type, blooms_dist_for_type) config =>
       let diff := difficulty config in
       let blooms := blooms_level config in
       let difficulty_dist_for_type :=
         if negb (dict_mem diff difficulty_dist_for_type)
         then dict_set diff zero difficulty_dist_for_type
         else difficulty_dist_for_type in
       let blooms_dist_for_type :=
         if negb (dict_mem blooms blooms_dist_for_type)
         then dict_set blooms zero blooms_dist_for_type
         else blooms_dist_for_type in
       x <- int_truediv (count config) (total_for_type configs) ;;
       let difficulty_dist_for_type :=
         dict_adjust (fun v => fadd v x) diff difficulty_dist_for_type in
       y <- int_truediv (count config) (total_for_type configs) ;;
       let blooms_dist_for_type :=
         dict_adjust (fun v => fadd v y) blooms blooms_dist_for_type in
       Ok (difficulty_dist_for_type, blooms_dist_for_type))
    ([], []).

(** The [try] block of [_generate_single_question_type_sync]. *)
Definition single_question_type_body (w : env) (question_type : string)
    (configs : list alloc_entry) (chapter_content chapter_name content_id : string)
    (learning_objectives : objectives)
    (difficulty_distribution blooms_distribution : proportions)
    (max_chunks max_chars : Z) : result pipeline_result :=
  let total_for_type := total_for_type configs in
  let run generator :=
    generator w chapter_name content_id learning_objectives total_for_type
      difficulty_distribution blooms_distribution (Some chapter_content)
      (Some max_chunks) (Some max_chars) in
  result <-
    (if String.eqb question_type "mcq" then run generate_mcqs
     else if String.eqb question_type "fib" then run generate_fill_in_blank
     else if String.eqb question_type "tf" then run generate_true_false
     else Raise (mk_exn ValueError
                   ("Unknown question type: " ++ question_type))) ;;
  let file_name := md_filename (gen_metadata result) in
  let question_data := gen_response result in
  Ok (mk_pipeline question_type (Some file_name) (Some question_data) None).

(** [try: ... except Exception as e: return question_type, None, None, str(e)] *)
Definition _generate_single_question_type_sync (w : env) (question_type : string)
    (configs : list alloc_entry) (chapter_content chapter_name content_id : string)
    (learning_objectives : objectives)
    (difficulty_distribution blooms_distribution : proportions)
    (max_chunks max_chars : Z) : pipeline_result :=
  match single_question_type_body w question_type configs chapter_content
          chapter_name content_id learning_objectives difficulty_distribution
          blooms_distribution max_chunks max_chars with
  | Ok r => r
  | Raise e => mk_pipeline question_type None None (Some (exn_msg e))
  end.

(** One future per question type, gathered with [return_exceptions=True]:
    each item is the value of its task or the exception that escaped it. *)
Definition _generate_questions_parallel (w : env)
    (type_groups : dict (list alloc_entry)) (chapter_content : string)
    (request : QuestionGenerationRequest)
  : result (list (exn + pipeline_result)) :=
  futures <-
    for_each type_groups
      (fun futures '(question_type, configs) =>
         '(difficulty_dist_for_type, blooms_dist_for_type) <-
            type_distributions configs ;;
         let future :=
           _generate_single_question_type_sync w question_type configs
             chapter_content (req_chapter_name request) (req_contentId request)
             (req_learning_objectives request) difficulty_dist_for_type
             blooms_dist_for_type (req_max_chunks request)
             (req_max_chars request) in
         Ok (futures ++ [future])%list)
      [] ;;
  Ok (map inr futures).

Definition option_truthy (o : option string) : bool :=
  match o with Some s => truthy s | None => false end.

(** The [for result in results] loop of [generate_questions]. *)
Definition process_results (results : list (exn + pipeline_result))
  : result (list string * dict type_data) :=
  for_each results
    (fun '(files_generated, all_question_data) result =>
       match result with
       | inl e => Raise e
       | inr r =>
           if option_truthy (pr_error r) then
             Raise (mk_exn ExceptionOther
                      ("Error in " ++ pr_question_type r ++ ": "
                       ++ match pr_error r with Some s => s | None => "" end))
           else
             let files_generated :=
               if option_truthy (pr_file_name r)
               then (files_generated
                       ++ [match pr_file_name r with Some s => s | None => "" end])%list
               else files_generated in
             Ok (files_generated,
                 dict_set (pr_question_type r) (pr_question_data r)
                          all_question_data)
       end)
    ([], []).

(** [RESPONSE_SUCCESS_TEMPLATE] and [RESPONSE_ERROR_TEMPLATE] of
    [utils/constants.py], filled in. *)
Definition success_message (total_questions : Z) (question_types : nat)
  : string :=
  "✅ Generated " ++ str_of_int total_questions ++ " questions across "
  ++ str_of_int (Z.of_nat question_types) ++ " question types".

Definition error_message_of (error_message : string) : string :=
  "❌ Error generating questions: " ++ error_message.

Definition respond (request : QuestionGenerationRequest)
    (status message : string) (files_generated : list string)
    (data : dict type_data) : QuestionGenerationResponse :=
  mk_response status message (req_session_id request) (req_contentId request)
    (req_chapter_name request) (req_learning_objectives request)
    (req_total_questions request) (req_question_type_distribution request)
    (req_difficulty_distribution request)
    (req_blooms_taxonomy_distribution request) files_generated data.

(** The [try] block of [generate_questions]; [success_tail w] stands for the
    rest of the success message (objectives and wall-clock timings). *)
Definition generate_questions_body (w : env)
    (request : QuestionGenerationRequest) (source_id : string)
  : result QuestionGenerationResponse :=
  chapter_content <-
    retrieve_chapter_content w (req_chapter_name request)
      (req_contentId request) (Some (req_max_chunks request))
      (Some (req_max_chars request)) ;;
  if negb (truthy chapter_content) then
    Raise (mk_exn ValueError
             (no_content_message (req_chapter_name request)
                                 (req_contentId request)))
  else
  question_dist <-
    calculate_question_distribution (req_total_questions request)
      (req_question_type_distribution request)
      (req_difficulty_distribution request)
      (req_blooms_taxonomy_distribution request) ;;
  let type_groups := _group_by_question_type question_dist in
  results <- _generate_questions_parallel w type_groups chapter_content request ;;
  '(files_generated, all_question_data) <- process_results results ;;
  let message :=
    success_message (req_total_questions request) (List.length type_groups)
    ++ " for source: " ++ source_id ++ ", chapter: "
    ++ req_chapter_name request ++ success_tail w in
  Ok (respond request "success" message files_generated all_question_data).

Definition generate_questions (w : env) (request : QuestionGenerationRequest)
    (source_id : string) : QuestionGenerationResponse :=
  match generate_questions_body w request source_id with
  | Ok response => response
  | Raise e =>
      respond request "error" (error_message_of (exn_msg e)) [] []
  end.

(* ================================================================== *)
(** * Notions used to state the properties *)
(* ================================================================== *)

(** One combination of the cross-product, with its three weights. *)
Definition combination : Type :=
  (string * float) * (string * float) * (string * float).

(** The enumeration order of the three nested loops: question type outside,
    difficulty in the middle, level inside. *)
Definition cross_product (question_type_dist difficulty_dist blooms_dist
                            : proportions) : list combination :=
  flat_map (fun q =>
    flat_map (fun d => map (fun b => (q, d, b)) blooms_dist) difficulty_dist)
    question_type_dist.

Definition key_of (c : combination) : string :=
  let '((q, _), (d, _), (b, _)) := c in combo_key q d b.

Definition exact_of (total_questions : Z) (c : combination) : result float :=
  let '((_, qr), (_, dr), (_, br)) := c in
  exact_count_of total_questions qr dr br.

(** The entry the loop body stores for a combination. *)
Definition stored_entry (total_questions : Z) (c : combination)
  : result frac_entry :=
  let '((q, _), (d, _), (b, _)) := c in
  exact_count <- exact_of total_questions c ;;
  n <- int_of_float exact_count ;;
  Ok (mk_frac q d b exact_count n).

(** Sum of the counts of an allocation. *)
Definition allocated (a : dict alloc_entry) : Z :=
  sum_Z (map count (dict_values a)).

(** The count an allocation gives to a key; an absent key has none. *)
Definition count_in (a : dict alloc_entry) (k : string) : Z :=
  match dict_get k a with Some e => count e | None => 0 end.

Definition has_positive (p : proportions) : bool :=
  existsb (fun '(_, w) => flt zero w) p.

Definition all_zero (p : proportions) : bool :=
  forallb (fun '(_, w) => is_zero w) p.

Definition nonneg_weights (p : proportions) : bool :=
  forallb (fun '(_, w) => nonneg w) p.

Definition to_alloc (e : frac_entry) : alloc_entry :=
  mk_alloc (fe_question_type e) (fe_difficulty e) (fe_blooms_level e)
           (fe_count e).

(** [k] was given an extra unit by the remainder pass that took [tbl] to
    [tbl']. *)
Definition awarded (tbl tbl' : dict frac_entry) (k : string) : Prop :=
  exists e e', dict_get k tbl = Some e /\ dict_get k tbl' = Some e'
               /\ fe_count e' = fe_count e + 1.

(** The sequence builder in the words of its contract: every entry's pair
    repeated [count] times, entries in iteration order. *)
Definition repeated_pairs (question_breakdown : dict alloc_entry)
  : list (string * string) :=
  flat_map (fun '(_, e) =>
              repeat (difficulty e, blooms_level e) (Z.to_nat (count e)))
           question_breakdown.

(** The global allocation of a request, restricted to one question type. *)
Definition restrict_to_type (qt : string) (question_dist : dict alloc_entry)
  : dict alloc_entry :=
  filter (fun '(_, e) => String.eqb (question_type e) qt) question_dist.

Definition global_allocation (request : QuestionGenerationRequest)
  : result (dict alloc_entry) :=
  calculate_question_distribution (req_total_questions request)
    (req_question_type_distribution request)
    (req_difficulty_distribution request)
    (req_blooms_taxonomy_distribution request).

(** The sequence the contract of the sequence builder describes for a type:
    built from the global allocation restricted to that type. *)
Definition restricted_sequence (request : QuestionGenerationRequest)
    (qt : string) : result (list (string * string)) :=
  question_dist <- global_allocation request ;;
  Ok (create_question_sequence (restrict_to_type qt question_dist)).

(** The allocation the generator of a type computes for itself from what
    the orchestrator passes: the type's total and combined distributions. *)
Definition generator_breakdown (qt : string) (configs : list alloc_entry)
  : result (dict alloc_entry) :=
  '(difficulty_dist_for_type, blooms_dist_for_type) <-
     type_distributions configs ;;
  calculate_question_distribution (total_for_type configs) [(qt, one)]
    difficulty_dist_for_type blooms_dist_for_type.

(** The sequence the parser of a type pairs blocks against in a run of the
    orchestrator. *)
Definition pipeline_sequence (request : QuestionGenerationRequest)
    (qt : string) : result (list (string * string)) :=
  question_dist <- global_allocation request ;;
  match dict_get qt (_group_by_question_type question_dist) with
  | Some configs =>
      question_breakdown <- generator_breakdown qt configs ;;
      Ok (create_question_sequence question_breakdown)
  | None => Raise (mk_exn KeyError qt)
  end.

Definition pair_of_mcq (q : MCQQuestion) : string * string :=
  (mcq_difficulty q, mcq_blooms_level q).

(** ** Concrete inputs *)

Definition half : float := lit 1 2.
Definition quarter : float := lit 1 4.

(** The default request of [models/schemas.py]. *)
Definition default_types : proportions :=
  [("mcq", lit 4 10); ("fib", lit 3 10); ("tf", lit 3 10)].
Definition default_difficulty : proportions :=
  [("basic", lit 3 10); ("intermediate", lit 3 10); ("advanced", lit 4 10)].
Definition default_blooms : proportions :=
  [("remember", lit 3 10); ("apply", lit 4 10); ("analyze", lit 3 10)].

Definition request_of (total : Z) (t d b : proportions)
  : QuestionGenerationRequest :=
  mk_request "An Invitation to Health" "Chapter 1 Taking Charge of Your Health"
    NoObjectives total t d b "session" 200 100000.

(** Four MCQs over skewed difficulty and level proportions. *)
Definition only_mcq : proportions := [("mcq", one)].
Definition skewed_difficulty : proportions :=
  [("basic", half); ("intermediate", quarter); ("advanced", quarter)].
Definition skewed_blooms : proportions :=
  [("remember", half); ("apply", quarter); ("analyze", quarter)].

Definition skewed_request : QuestionGenerationRequest :=
  request_of 4 only_mcq skewed_difficulty skewed_blooms.

Definition decimal_ids (i : nat) : string := str_of_int (Z.of_nat i).

Definition scenario_B : string :=
  "QUESTION: Q1" ++ LF ++ "ANSWER: A1" ++ LF ++ "EXPLANATION: E1" ++ LF ++
  "QUESTION: Q2" ++ LF ++ "ANSWER: A2" ++ LF ++ "EXPLANATION: E2".

Definition scenario_B_breakdown : dict alloc_entry :=
  [("mcq_basic_remember", mk_alloc "mcq" "basic" "remember" 1);
   ("mcq_advanced_analyze", mk_alloc "mcq" "advanced" "analyze" 1)].


(** A world in which every completion is empty. *)
Definition silent_world : env :=
  mk_env (fun _ _ _ _ => Ok "chapter text") (fun _ => Ok "")
    (fun _ _ => Ok tt) (fun _ => decimal_ids) (fun _ => false)
    " in 1.00 seconds".

Definition default_request : QuestionGenerationRequest :=
  request_of 10 default_types default_difficulty default_blooms.

Definition numbered_line_text : string :=
  "QUESTION: Pets ________" ++ LF ++ "ANSWER: 2 cats. 3 dogs" ++ LF
  ++ "EXPLANATION: e".

(** ** Notions used in the proofs *)

(** One turn of the three nested loops, as a step on the table. *)
Definition store (total_questions : Z) (tbl : dict frac_entry)
    (c : combination) : result (dict frac_entry) :=
  e <- stored_entry total_questions c ;; Ok (dict_set (key_of c) e tbl).

(** The table with one more question under each key of [ks]. *)
Definition bump (ks : list string) (tbl : dict frac_entry) : dict frac_entry :=
  map (fun '(k, e) =>
         (k, if existsb (String.eqb k) ks then incr_count e else e)) tbl.


(** Sum of the counts held by the table. *)
Definition table_total (tbl : dict frac_entry) : Z :=
  sum_Z (map fe_count (dict_values tbl)).

(** A product of non-negative factors is non-negative, or NaN. *)
Definition sign_ok (x : float) : bool := nonneg x || is_nan x.

(** A product with a zero factor is a zero, or NaN. *)
Definition zero_or_nan (x : float) : bool := is_zero x || is_nan x.

Definition nan_error : exn :=
  mk_exn ValueError "cannot convert float NaN to integer".

Definition int_too_large : exn :=
  mk_exn OverflowError "int too large to convert to float".

(** The keys of a list in first-seen order. *)
Definition first_seen (keys : list string) : list string :=
  fold_left
    (fun seen k => if existsb (String.eqb k) seen then seen
                   else (seen ++ [k])%list)
    keys [].

(** The returned entry of a combination that got exactly one question. *)
Definition one_each (item : string * frac_entry) : string * alloc_entry :=
  let '(k, e) := item in
  (k, mk_alloc (fe_question_type e) (fe_difficulty e) (fe_blooms_level e) 1).

(** The integers [0..100]. *)
Definition up_to_hundred : list Z := map Z.of_nat (seq 0 101).

Definition is_ok {A} (r : result A) : bool :=
  match r with Ok _ => true | Raise _ => false end.

(** What a record owes to the delimiters its block lacks: an empty
    explanation without ["EXPLANATION:"], an empty answer without
    ["ANSWER:"], no distractor without any of the distractor keys. *)
Definition lenient_fields (block : string) (q : MCQQuestion) : Prop :=
  (contains "EXPLANATION:" block = false -> mcq_explanation q = "")
  /\ (contains "ANSWER:" block = false -> mcq_answer q = "")
  /\ (forallb (fun key => negb (contains key block)) distractor_keys = true ->
      mcq_distractors q = []).

(** The pair a block at position [i] is given from a sequence. *)
Definition pair_at (question_sequence : list (string * string)) (i : nat)
  : string * string :=
  nth i question_sequence ("", "").

(** The parser a pipeline of the given type runs on the completion, and
    the message its generator raises when the parser returns no record. *)
Definition type_parser (w : env) (qt : string) (response : string)
    (question_breakdown : dict alloc_entry) : result (list question) :=
  if String.eqb qt "mcq" then
    map_ok McqRecord
      (parse_mcq_response (uuid4 w "mcq") response question_breakdown)
  else if String.eqb qt "fib" then
    map_ok FibRecord
      (parse_fib_response (isdigit_nonascii w) (uuid4 w "fib") response
         question_breakdown)
  else
    map_ok TfRecord
      (parse_tf_response (uuid4 w "tf") response question_breakdown).

Definition nothing_parsed (qt : string) : string :=
  if String.eqb qt "mcq" then "No valid MCQs could be parsed from LLM response"
  else if String.eqb qt "fib" then
    "No valid fill-in-the-blank questions could be parsed from LLM response"
  else "No valid true/false questions could be parsed from LLM response".

(** Structural equality of floats, as a test. *)
Definition float_eqb (x y : float) : bool :=
  match x, y with
  | S754_zero a, S754_zero b => Bool.eqb a b
  | S754_infinity a, S754_infinity b => Bool.eqb a b
  | S754_nan, S754_nan => true
  | S754_finite s m e, S754_finite s' m' e' =>
      Bool.eqb s s' && Pos.eqb m m' && Z.eqb e e'
  | _, _ => false
  end.

(** The arithmetic of a type whose allocation is one entry of [n]
    questions: [n / n] is [1.0], [n * 1.0 * 1.0 * 1.0] floors to [n], and
    the fractional part can be computed. *)
Definition single_entry_check (n : Z) : bool :=
  match int_truediv n n, exact_count_of n one one one with
  | Ok x, Ok f =>
      float_eqb x one
      && match int_of_float f with Ok c => c =? n | Raise _ => false end
      && is_ok (float_sub_int f n)
  | _, _ => false
  end.

(** Three MCQs at one difficulty and one level. *)
Definition uniform_request : QuestionGenerationRequest :=
  request_of 3 only_mcq [("basic", one)] [("apply", one)].

(** The tuple a pipeline returns for a failure with message [msg]. *)
Definition failed (qt msg : string) : pipeline_result :=
  mk_pipeline qt None None (Some msg).

Definition known_types : list string := ["mcq"; "fib"; "tf"].

(** A label without the separator of the combination keys. *)
Fixpoint underscore_free (s : string) : bool :=
  match s with
  | EmptyString => true
  | String c s' => negb (Ascii.eqb c "_") && underscore_free s'
  end.

(** The labels of a proportion map are distinct (it is a [dict]) and, for
    the two outer maps, free of underscores. *)
Definition plain_labels (p : proportions) : Prop :=
  NoDup (map fst p) /\ forallb (fun '(k, _) => underscore_free k) p = true.


(* ================================================================== *)
(** * Further notions: the allocator and the sequence builder *)
(* ================================================================== *)

(** A float that is neither NaN nor an infinity. *)
Definition is_finite (x : float) : bool :=
  match x with
  | S754_zero _ | S754_finite _ _ _ => true
  | _ => false
  end.

Definition finite_weights (p : proportions) : bool :=
  forallb (fun '(_, w) => is_finite w) p.

(* ================================================================== *)
(** * Further notions: file names *)
(* ================================================================== *)

(** [clean_chapter_name] of [generate_filename]:
    [chapter_name.replace(" ", "_").replace("/", "_")]. *)
Definition clean_chapter_name (chapter_name : string) : string :=
  replace_char "/" "_" (replace_char " " "_" chapter_name).

(** What a truthy [learning_objectives] adds to the name, with the
    underscore that joins it to the parts before it. *)
Definition objectives_part (learning_objectives : objectives) : string :=
  if objectives_truthy learning_objectives then
    "_lo" ++ match learning_objectives with
             | ObjectiveList l => join "_" l
             | ObjectiveText s => s
             | NoObjectives => ""
             end
  else "".

(** Every [prop * 100] of the map is finite, so that [int] accepts it. *)
Definition finite_percent (dist : proportions) : bool :=
  forallb (fun '(_, prop) => is_finite (fmul prop hundred)) dist.

(** The character [c] occurs in [s]. *)
Fixpoint has_char (c : ascii) (s : string) : bool :=
  match s with
  | EmptyString => false
  | String x s' => Ascii.eqb c x || has_char c s'
  end.

(* ================================================================== *)
(** * Further notions: the parsers *)
(* ================================================================== *)

Definition pair_of_tf (q : TrueFalseQuestion) : string * string :=
  (tf_difficulty q, tf_blooms_level q).

Definition pair_of_fib (q : FillInBlankQuestion) : string * string :=
  (fib_difficulty q, fib_blooms_level q).

(** What a true/false record owes to the delimiters its block lacks. *)
Definition lenient_tf_fields (block : string) (q : TrueFalseQuestion) : Prop :=
  (contains "ANSWER:" block = false -> tf_statement q = "" /\ tf_answer q = "")
  /\ (contains "EXPLANATION:" block = false -> tf_explanation q = "").

(** What a fill-in-blank record owes to the delimiters its block lacks. *)
Definition lenient_fib_fields (block : string) (q : FillInBlankQuestion)
  : Prop :=
  (contains "ANSWER:" block = false -> fib_question q = "" /\ fib_answer q = [])
  /\ (contains "EXPLANATION:" block = false ->
      fib_explanation q = "" /\ fib_answer q = []).

(** [s] without its last character, and that character. *)
Fixpoint split_last (s : string) : option (string * ascii) :=
  match s with
  | EmptyString => None
  | String c s' =>
      match split_last s' with
      | None => Some (EmptyString, c)
      | Some (i, l) => Some (String c i, l)
      end
  end.

(** A delimiter of the parsers: a text without colon, then a colon. *)
Definition is_delimiter (sep : string) : bool :=
  match split_last sep with
  | Some (body, c) => Ascii.eqb c ":" && negb (has_char ":" body)
  | None => false
  end.

(** Two delimiters whose last letters differ. *)
Definition apart (sep K : string) : bool :=
  match split_last sep, split_last K with
  | Some (b1, x1), Some (b2, x2) =>
      match split_last b1, split_last b2 with
      | Some (_, c1), Some (_, c2) =>
          Ascii.eqb x1 ":" && Ascii.eqb x2 ":" && negb (has_char ":" b1)
          && negb (has_char ":" b2) && negb (Ascii.eqb c1 c2)
      | _, _ => false
      end
  | _, _ => false
  end.

(** The delimiters that cut a block into fields. *)
Definition block_keys : list string :=
  ["ANSWER:"; "EXPLANATION:"; "DISTRACTOR1:"; "DISTRACTOR2:"; "DISTRACTOR3:"].

Definition answer_keys : list string := ["ANSWER:"; "EXPLANATION:"].

(** A field that holds none of the given delimiters. *)
Definition free_of (keys : list string) (s : string) : bool :=
  forallb (fun k => negb (contains k s)) keys.

(** The text of a block with every field of a multiple-choice question. *)
Definition mcq_text (q a e d1 d2 d3 : string) : string :=
  q ++ "ANSWER:" ++ a ++ "EXPLANATION:" ++ e ++ "DISTRACTOR1:" ++ d1
    ++ "DISTRACTOR2:" ++ d2 ++ "DISTRACTOR3:" ++ d3.

(** The text of a block with a statement (or question), an answer and an
    explanation. *)
Definition answered_text (s a e : string) : string :=
  s ++ "ANSWER:" ++ a ++ "EXPLANATION:" ++ e.

(** ASCII decimal digits only. *)
Fixpoint ascii_digits (s : string) : bool :=
  match s with
  | EmptyString => true
  | String c s' =>
      (48 <=? nat_of_ascii c)%nat && (nat_of_ascii c <=? 57)%nat
      && ascii_digits s'
  end.

(** The delimiters that open a block. *)
Definition opening_keys : list string := ["QUESTION:"; "STATEMENT:"].

(* ================================================================== *)
(** * Further notions: the generators and the orchestrator *)
(* ================================================================== *)

(** The question types of an allocation, entry by entry. *)
Definition types_of (question_dist : dict alloc_entry) : list string :=
  map (fun '(_, e) => question_type e) question_dist.

(** The entries of one question type, in the order of the allocation. *)
Definition configs_of (qt : string) (question_dist : dict alloc_entry)
  : list alloc_entry :=
  map snd (restrict_to_type qt question_dist).

(** The question type a gathered result speaks for. *)
Definition result_type (x : exn + pipeline_result) : string :=
  match x with inr r => pr_question_type r | inl _ => "" end.

(** Every quotient [a / b] of integers in [0..100], [b] not zero, is a
    float. *)
Definition truediv_check : bool :=
  forallb (fun a =>
    forallb (fun b => (b =? 0) || is_ok (int_truediv a b)) up_to_hundred)
    up_to_hundred.

(** What a generator hands back on success: records that were saved under
    the generated file name, and metadata that echoes the call. *)
Definition sound_generation (w : env) (tag chapter_name content_id : string)
    (learning_objectives : objectives) (dd bd : proportions) (g : generated)
  : Prop :=
  gen_response g <> []
  /\ generate_filename chapter_name dd bd tag learning_objectives
     = Ok (md_filename (gen_metadata g))
  /\ save_questions_to_file w (gen_response g) (md_filename (gen_metadata g))
     = Ok tt
  /\ gen_metadata g
     = mk_metadata chapter_name content_id learning_objectives
         (List.length (gen_response g)) dd bd (md_filename (gen_metadata g)).

(** A world in which every completion holds one well-formed block. *)
Definition helpful_world : env :=
  mk_env (fun _ _ _ _ => Ok "chapter text")
    (fun p =>
       if String.eqb (prompt_type p) "tf"
       then Ok "STATEMENT: a ANSWER: TRUE EXPLANATION: c"
       else Ok "QUESTION: a ANSWER: b EXPLANATION: c")
    (fun _ _ => Ok tt) (fun _ => decimal_ids) (fun _ => false)
    " in 1.00 seconds".

(* ================================================================== *)
(** * services/llm_service.py: strip_json_markers *)
(* ================================================================== *)

(** The fence of a code block: three backticks. *)
Definition fence : string := "```".

(** [re.findall(pattern, s, re.DOTALL)] for the pattern of
    [strip_json_markers]: a fence, [json] when it follows, the shortest
    text up to the next fence (the group), and that fence.  The search
    goes on after the closing fence; an opening fence that no fence
    closes ends it, since no later position can match either. *)
Fixpoint findall_fenced (n : nat) (s : string) : list string :=
  match n with
  | O => []
  | S n' =>
      match find_sub fence s with
      | None => []
      | Some (_, opened) =>
          let body :=
            match strip_prefix "json" opened with
            | Some r => r
            | None => opened
            end in
          match find_sub fence body with
          | Some (group, rest) => group :: findall_fenced n' rest
          | None => []
          end
      end
  end.

Definition strip_json_markers (json_string : string) : string :=
  let matches := findall_fenced (String.length json_string) json_string in
  match matches with
  | [] => strip json_string
  | _ => strip (join "" matches)
  end.

(* ================================================================== *)
(** * services/content_service.py *)
(* ================================================================== *)

(** Code points of a text held as UTF-8: every byte that is not a
    continuation byte starts one. *)
Definition is_continuation (c : ascii) : bool :=
  (128 <=? nat_of_ascii c)%nat && (nat_of_ascii c <? 192)%nat.

(** [len(s)] *)
Fixpoint py_len (s : string) : Z :=
  match s with
  | EmptyString => 0
  | String c s' => (if is_continuation c then 0 else 1) + py_len s'
  end.

(** The first [n] code points of [s]. *)
Fixpoint py_take (n : nat) (s : string) : string :=
  match s with
  | EmptyString => EmptyString
  | String c s' =>
      if is_continuation c then String c (py_take n s')
      else match n with
           | O => EmptyString
           | S n' => String c (py_take n' s')
           end
  end.

(** [s[:m]]: a negative [m] counts from the end. *)
Definition slice_to (s : string) (m : Z) : string :=
  if m <? 0 then py_take (Z.to_nat (py_len s + m)) s
  else py_take (Z.to_nat m) s.

(** [value or default] on an optional [int]. *)
Definition or_default (value : option Z) (default : Z) : Z :=
  match value with
  | Some n => if n =? 0 then default else n
  | None => default
  end.

(** The two settings the service reads. *)
Record settings := mk_settings { MAX_CHUNKS : Z; MAX_CHARS : Z }.

(** Their values in [core/config.py], when the environment sets none. *)
Definition default_settings : settings := mk_settings 200 100000.

(** What a content search answers: the [value] of each hit, in order, and
    the total number of hits. *)
Record search_response := mk_search_response {
  hit_values : list string;
  total_hits : Z
}.

(** The search client: the bucket keys of the chapter-name aggregation for
    an index and a chapter key; the content search for an index, a chapter
    key, a chapter name and a size; and [str.lower]. *)
Record opensearch := mk_opensearch {
  chapter_names_search : string -> string -> result (list string);
  content_search : string -> string -> string -> Z -> result search_response;
  lower : string -> string
}.

Module IndexMappingService.

Definition index_map : dict string :=
  [("An Invitation to Health", "chunk_357973585");
   ("Steps to writing well", "chunk_1337899796")].

Definition get_available_titles : list string := dict_keys index_map.

(** [str(available_titles)] for the two titles of [index_map]. *)
Definition available_titles_str : string :=
  "['An Invitation to Health', 'Steps to writing well']".

Definition get_index_for_title (title : string) : result string :=
  match dict_get title index_map with
  | Some index => Ok index
  | None =>
      Raise (mk_exn ValueError
               ("Title '" ++ title ++ "' not found. Available titles: "
                ++ available_titles_str))
  end.

End IndexMappingService.

Module ContentRetrievalService.
Import IndexMappingService.

(** A failing search is logged and gives no chapter name. *)
Definition _find_chapter_names (c : opensearch) (index chapter_key : string)
  : list string :=
  match chapter_names_search c index chapter_key with
  | Ok buckets => buckets
  | Raise _ => []
  end.

Definition _determine_chapter_key (c : opensearch) (content_id : string)
  : result string :=
  current_index <- get_index_for_title content_id ;;
  let level_2_chapters :=
    _find_chapter_names c current_index "toc_level_2_title" in
  if match level_2_chapters with [] => false | _ => true end
     && contains "chapter" (join "" (map (lower c) level_2_chapters))
  then Ok "toc_level_2_title"
  else Ok "toc_level_1_title".

Definition retrieve_chapter_content (st : settings) (c : opensearch)
    (chapter_name content_id : string) (max_chunks max_chars : option Z)
  : result string :=
  if negb (truthy chapter_name) then
    Raise (mk_exn ValueError "Chapter name must be provided")
  else if negb (truthy content_id) then
    Raise (mk_exn ValueError "Content ID must be provided")
  else
  let max_chunks := or_default max_chunks (MAX_CHUNKS st) in
  let max_chars := or_default max_chars (MAX_CHARS st) in
  current_index <-
    match get_index_for_title content_id with
    | Ok index => Ok index
    | Raise e =>
        Raise (mk_exn ValueError ("Unsupported book title: " ++ exn_msg e))
    end ;;
  chapter_key <- _determine_chapter_key c content_id ;;
  response <-
    match content_search c current_index chapter_key chapter_name max_chunks
    with
    | Ok response => Ok response
    | Raise e =>
        Raise (mk_exn ExceptionOther
                 ("Search error in index " ++ current_index ++ ": "
                  ++ exn_msg e))
    end ;;
  if total_hits response =? 0 then Ok ""
  else
    let chapter_text :=
      fold_left (fun chapter_text value => chapter_text ++ value)
                (hit_values response) "" in
    if py_len chapter_text >? max_chars
    then Ok (slice_to chapter_text max_chars)
    else Ok chapter_text.

End ContentRetrievalService.

(** A search client that finds two chunks of a chapter. *)
Definition two_chunks : opensearch :=
  mk_opensearch (fun _ _ => Ok ["Chapter 1"; "Chapter 2"])
    (fun _ _ _ _ => Ok (mk_search_response ["Hello, "; "world"] 2))
    (fun s => s).

(* ================================================================== *)
(** * Further notions: the remainder pass, combination by combination *)
(* ================================================================== *)


(** The remainder pass gave the combination [c] an extra unit: the final
    table holds, under the key of [c], an entry with the three labels of
    [c] and one question more than the floor of the exact count of [c]. *)
Definition given_extra (total_questions : Z) (tbl' : dict frac_entry)
    (c : combination) : bool :=
  match stored_entry total_questions c, dict_get (key_of c) tbl' with
  | Ok e, Some e' =>
      String.eqb (fe_question_type e') (fe_question_type e)
      && String.eqb (fe_difficulty e') (fe_difficulty e)
      && String.eqb (fe_blooms_level e') (fe_blooms_level e)
      && (fe_count e' =? fe_count e + 1)
  | _, _ => false
  end.


(** Labels with underscores: the combinations [(a_b, c, x)] and
    [(a, b_c, x)] are both stored under the key ["a_b_c_x"]. *)
Definition shared_key_types : proportions := [("a_b", half); ("a", half)].
Definition shared_key_difficulty : proportions := [("c", half); ("b_c", half)].
Definition shared_key_blooms : proportions := [("x", one)].

(* ================================================================== *)
(** * Further notions: a pipeline that fails without a message *)
(* ================================================================== *)

(** A world in which every completion holds one well-formed block and
    writing the true/false file fails with an exception whose message is
    empty, as [str(MemoryError())] is. *)
Definition empty_message_world : env :=
  mk_env (fun _ _ _ _ => Ok "chapter text")
    (fun p =>
       if String.eqb (prompt_type p) "tf"
       then Ok "STATEMENT: a ANSWER: TRUE EXPLANATION: c"
       else Ok "QUESTION: a ANSWER: b EXPLANATION: c")
    (fun questions _ =>
       match questions with
       | TfRecord _ :: _ => Raise (mk_exn ExceptionOther "")
       | _ => Ok tt
       end)
    (fun _ => decimal_ids) (fun _ => false)
    " in 1.00 seconds".
(* ================================================================== *)
(** * Loops in [result] *)
(* ================================================================== *)

Lemma bind_ok_inv {A B} (r : result A) (k : A -> result B) (b : B) :
  bind r k = Ok b -> exists a, r = Ok a /\ k a = Ok b.
Proof. destruct r as [a|e]; simpl; intros H; [eauto | discriminate]. Qed.

Lemma for_each_app {A S} (l1 l2 : list A) (body : S -> A -> result S) (s : S) :
  for_each (l1 ++ l2) body s = s' <- for_each l1 body s ;; for_each l2 body s'.
Proof.
  revert s; induction l1 as [|a l1 IH]; intros s; simpl; [reflexivity|].
  destruct (body s a); simpl; auto.
Qed.

Lemma for_each_ext {A S} (l : list A) (f g : S -> A -> result S) (s : S) :
  (forall s a, In a l -> f s a = g s a) -> for_each l f s = for_each l g s.
Proof.
  revert s; induction l as [|a l IH]; intros s H; simpl; [reflexivity|].
  rewrite (H s a (or_introl eq_refl)).
  destruct (g s a); simpl; auto.
  apply IH; intros; apply H; right; assumption.
Qed.

Lemma for_each_map {A B S} (g : A -> B) (l : list A)
    (body : S -> B -> result S) (s : S) :
  for_each (map g l) body s = for_each l (fun s a => body s (g a)) s.
Proof.
  revert s; induction l as [|a l IH]; intros s; simpl; [reflexivity|].
  destruct (body s (g a)); simpl; auto.
Qed.

Lemma for_each_flat_map {A B S} (f : A -> list B) (l : list A)
    (body : S -> B -> result S) (s : S) :
  for_each (flat_map f l) body s
  = for_each l (fun s a => for_each (f a) body s) s.
Proof.
  revert s; induction l as [|a l IH]; intros s; simpl; [reflexivity|].
  rewrite for_each_app.
  destruct (for_each (f a) body s); simpl; auto.
Qed.

(** An invariant kept by every turn holds after the loop. *)
Lemma for_each_invariant {A S} (P : S -> Prop) (l : list A)
    (body : S -> A -> result S) :
  (forall s a s', In a l -> P s -> body s a = Ok s' -> P s') ->
  forall s s', P s -> for_each l body s = Ok s' -> P s'.
Proof.
  induction l as [|a l IH]; intros Hstep s s' Hs H; simpl in H.
  - injection H as <-; assumption.
  - apply bind_ok_inv in H as (s1 & H1 & H2).
    eapply IH; [| |exact H2].
    + intros; eapply Hstep; eauto; right; assumption.
    + eapply Hstep; eauto; left; reflexivity.
Qed.

Lemma map_result_ok {A B} (f : A -> result B) (l : list A) (bs : list B) :
  map_result f l = Ok bs -> Forall2 (fun a b => f a = Ok b) l bs.
Proof.
  revert bs; induction l as [|a l IH]; intros bs H; simpl in H.
  - injection H as <-; constructor.
  - apply bind_ok_inv in H as (b & Hb & H).
    apply bind_ok_inv in H as (bs' & Hbs & H).
    injection H as <-; constructor; auto.
Qed.

Lemma map_result_all_ok {A B} (f : A -> result B) (l : list A) :
  (forall a, In a l -> exists b, f a = Ok b) ->
  exists bs, map_result f l = Ok bs.
Proof.
  induction l as [|a l IH]; intros H; simpl; [eauto|].
  destruct (H a (or_introl eq_refl)) as (b & ->); simpl.
  destruct IH as (bs & ->); [intros; apply H; right; assumption|].
  simpl; eauto.
Qed.

(* ================================================================== *)
(** * Dictionaries *)
(* ================================================================== *)

Section DictFacts.
Context {V : Type}.
Implicit Types (d : dict V) (k : string) (v : V).

Lemma dict_keys_set k v d :
  dict_keys (dict_set k v d)
  = if dict_mem k d then dict_keys d else (dict_keys d ++ [k])%list.
Proof.
  unfold dict_mem; induction d as [|[k' v'] d IH]; simpl; [reflexivity|].
  destruct (String.eqb_spec k k') as [->|Hne]; simpl; [reflexivity|].
  rewrite IH; destruct (dict_get k d); reflexivity.
Qed.

Lemma dict_mem_in k d : dict_mem k d = true <-> In k (dict_keys d).
Proof.
  unfold dict_mem; induction d as [|[k' v'] d IH]; simpl.
  - split; [discriminate | tauto].
  - destruct (String.eqb_spec k k') as [->|Hne].
    + split; auto.
    + rewrite IH; split; [auto | intros [H|H]; [congruence | assumption]].
Qed.

Lemma dict_mem_false k d : dict_mem k d = false <-> ~ In k (dict_keys d).
Proof.
  rewrite <- dict_mem_in; destruct (dict_mem k d); split; congruence.
Qed.

Lemma dict_set_fresh k v d :
  ~ In k (dict_keys d) -> dict_set k v d = (d ++ [(k, v)])%list.
Proof.
  induction d as [|[k' v'] d IH]; simpl; intros H; [reflexivity|].
  destruct (String.eqb_spec k k') as [->|Hne]; [tauto|].
  rewrite IH; tauto.
Qed.

Lemma dict_set_nodup k v d :
  NoDup (dict_keys d) -> NoDup (dict_keys (dict_set k v d)).
Proof.
  intros H; rewrite dict_keys_set.
  destruct (dict_mem k d) eqn:E; [assumption|].
  apply dict_mem_false in E.
  apply NoDup_app; [assumption | repeat constructor; simpl; tauto |].
  intros x Hx [<-|[]]; tauto.
Qed.

Lemma dict_get_set_same k v d : dict_get k (dict_set k v d) = Some v.
Proof.
  induction d as [|[k' v'] d IH]; simpl.
  - rewrite String.eqb_refl; reflexivity.
  - destruct (String.eqb_spec k k') as [->|Hne]; simpl.
    + rewrite String.eqb_refl; reflexivity.
    + destruct (String.eqb_spec k k'); [congruence | assumption].
Qed.

Lemma dict_get_set_other k k' v d :
  k <> k' -> dict_get k (dict_set k' v d) = dict_get k d.
Proof.
  intros Hne; induction d as [|[k0 v0] d IH]; simpl.
  - destruct (String.eqb_spec k k'); [congruence | reflexivity].
  - destruct (String.eqb_spec k' k0) as [->|Hne0]; simpl.
    + destruct (String.eqb_spec k k0); [congruence | reflexivity].
    + destruct (String.eqb_spec k k0); [reflexivity | assumption].
Qed.

Lemma dict_get_in k v d : dict_get k d = Some v -> In (k, v) d.
Proof.
  induction d as [|[k' v'] d IH]; simpl; [discriminate|].
  destruct (String.eqb_spec k k') as [->|Hne].
  - intros [= ->]; left; reflexivity.
  - intros H; right; auto.
Qed.

Lemma in_dict_get k v d :
  NoDup (dict_keys d) -> In (k, v) d -> dict_get k d = Some v.
Proof.
  induction d as [|[k' v'] d IH]; simpl; intros Hnd Hin; [contradiction|].
  inversion Hnd as [|? ? Hk' Hnd']; subst.
  destruct Hin as [[= -> ->]|Hin].
  - rewrite String.eqb_refl; reflexivity.
  - destruct (String.eqb_spec k k') as [->|Hne]; [|auto].
    exfalso; apply Hk'; apply (in_map fst) in Hin; exact Hin.
Qed.

Lemma dict_keys_adjust f k d : dict_keys (dict_adjust f k d) = dict_keys d.
Proof.
  induction d as [|[k' v'] d IH]; simpl; [reflexivity|].
  destruct (String.eqb k k'); simpl; congruence.
Qed.

(** On unique keys, adjusting a key touches exactly the entries under it. *)
Lemma dict_adjust_map (f : V -> V) k d :
  NoDup (dict_keys d) ->
  dict_adjust f k d
  = map (fun '(k', v) => (k', if String.eqb k k' then f v else v)) d.
Proof.
  induction d as [|[k' v'] d IH]; simpl; intros Hnd; [reflexivity|].
  inversion Hnd as [|? ? Hk' Hnd']; subst.
  destruct (String.eqb_spec k k') as [->|Hne].
  - f_equal. symmetry. rewrite <- (map_id d) at 2.
    apply map_ext_in; intros [k0 v0] Hin.
    destruct (String.eqb_spec k' k0) as [->|]; [|reflexivity].
    exfalso; apply Hk'; apply (in_map fst) in Hin; exact Hin.
  - f_equal; auto.
Qed.
End DictFacts.

(* ================================================================== *)
(** * The allocator: the table built by the nested loops *)
(* ================================================================== *)

Lemma fractional_distribution_flat total qd dd bd :
  fractional_distribution total qd dd bd
  = for_each (cross_product qd dd bd) (store total) [].
Proof.
  unfold fractional_distribution, cross_product.
  rewrite for_each_flat_map.
  apply for_each_ext; intros tbl [q qr] _.
  rewrite for_each_flat_map.
  apply for_each_ext; intros tbl1 [d dr] _.
  rewrite for_each_map.
  apply for_each_ext; intros tbl2 [b br] _.
  unfold store, stored_entry, exact_of; simpl.
  destruct (exact_count_of total qr dr br) as [x|]; simpl; [|reflexivity].
  destruct (int_of_float x); reflexivity.
Qed.

Lemma store_ok total tbl c tbl' :
  store total tbl c = Ok tbl' ->
  exists e, stored_entry total c = Ok e /\ tbl' = dict_set (key_of c) e tbl.
Proof.
  unfold store; intros H; apply bind_ok_inv in H as (e & He & H).
  injection H as <-; eauto.
Qed.

Lemma table_nodup total l tbl0 tbl :
  NoDup (dict_keys tbl0) -> for_each l (store total) tbl0 = Ok tbl ->
  NoDup (dict_keys tbl).
Proof.
  apply (for_each_invariant (fun s => NoDup (dict_keys s))).
  intros s a s' _ Hs H; apply store_ok in H as (e & _ & ->).
  apply dict_set_nodup; assumption.
Qed.

(** Every entry of the table was stored for some combination. *)
Lemma table_entries total l tbl0 tbl :
  for_each l (store total) tbl0 = Ok tbl ->
  forall k e, In (k, e) tbl ->
    In (k, e) tbl0
    \/ exists c, In c l /\ key_of c = k /\ stored_entry total c = Ok e.
Proof.
  revert tbl0; induction l as [|c l IH]; intros tbl0 H k e Hin; simpl in H.
  - injection H as <-; left; assumption.
  - apply bind_ok_inv in H as (t1 & H1 & H2).
    apply store_ok in H1 as (e1 & He1 & ->).
    destruct (IH _ H2 k e Hin) as [Hin1 | (c' & Hc' & Hk & He)].
    + clear - Hin1 He1.
      assert (G : forall d, In (k, e) (dict_set (key_of c) e1 d) ->
                  In (k, e) d \/ (k = key_of c /\ e = e1)).
      { induction d as [|[k0 v0] d IHd]; simpl.
        - intros [[= <- <-]|[]]; right; auto.
        - destruct (String.eqb (key_of c) k0); simpl.
          + intros [[= <- <-]|Hd]; [right; auto | left; right; assumption].
          + intros [Hd|Hd]; [left; left; assumption|].
            destruct (IHd Hd) as [?|?]; [left; right; assumption | right; assumption]. }
      destruct (G _ Hin1) as [?|[-> ->]]; [left; assumption|].
      right; exists c; split; [left; reflexivity | auto].
    + right; exists c'; split; [right; assumption | auto].
Qed.

(** The last combination stored under a key is the one the table holds. *)
Lemma table_last_write total l tbl0 tbl :
  for_each l (store total) tbl0 = Ok tbl ->
  forall k,
    (existsb (fun c => String.eqb (key_of c) k) l = false ->
     dict_get k tbl = dict_get k tbl0)
    /\ (forall e,
          existsb (fun c => String.eqb (key_of c) k) l = true ->
          (forall c, In c l -> key_of c = k -> stored_entry total c = Ok e) ->
          dict_get k tbl = Some e).
Proof.
  revert tbl0; induction l as [|c l IH]; intros tbl0 H k; simpl in H.
  - injection H as <-; split; [reflexivity | simpl; discriminate].
  - apply bind_ok_inv in H as (t1 & H1 & H2).
    apply store_ok in H1 as (e1 & He1 & ->).
    destruct (IH _ H2 k) as [IHa IHb]; simpl; split.
    + intros Hnone; apply orb_false_iff in Hnone as [Hc Hl].
      rewrite (IHa Hl). apply dict_get_set_other.
      intros ->; rewrite String.eqb_refl in Hc; discriminate.
    + intros e Hex Hall.
      destruct (existsb (fun c0 => String.eqb (key_of c0) k) l) eqn:El.
      * apply IHb; [reflexivity|]; intros; apply Hall; [right|]; assumption.
      * rewrite (IHa eq_refl).
        destruct (String.eqb_spec (key_of c) k) as [Hk|Hk].
        -- rewrite <- Hk, dict_get_set_same.
           rewrite (Hall c (or_introl eq_refl) Hk) in He1; congruence.
        -- exfalso.
           destruct (String.eqb_spec (key_of c) k); [contradiction | discriminate].
Qed.

(* ================================================================== *)
(** * The stable descending sort *)
(* ================================================================== *)

Section Sorting.
Context {A : Type}.
Implicit Types (x y z : float * A) (l s : list (float * A)).

Lemma insert_desc_perm x l : Permutation (insert_desc x l) (x :: l).
Proof.
  induction l as [|w l IH]; simpl; [reflexivity|].
  destruct (flt (fst x) (fst w)); [|reflexivity].
  rewrite IH; apply perm_swap.
Qed.

Lemma sorted_desc_perm l : Permutation (sorted_desc l) l.
Proof.
  induction l as [|x l IH]; simpl; [reflexivity|].
  rewrite insert_desc_perm; constructor; assumption.
Qed.






End Sorting.



Lemma map_result_snd {A} (f : string -> result A) (l : list string)
    (bs : list (A * string)) :
  map_result (fun k => v <- f k ;; Ok (v, k)) l = Ok bs -> map snd bs = l.
Proof.
  revert bs; induction l as [|k l IH]; intros bs H; simpl in H.
  - injection H as <-; reflexivity.
  - apply bind_ok_inv in H as (b & Hb & H).
    apply bind_ok_inv in H as (bs' & Hbs & H); injection H as <-.
    apply bind_ok_inv in Hb as (v & _ & Hb); injection Hb as <-.
    simpl; f_equal; auto.
Qed.

(** The sorted keys are the keys of the table in another order. *)
Lemma sorted_keys_perm tbl sk :
  sorted_keys_of tbl = Ok sk -> Permutation sk (dict_keys tbl).
Proof.
  unfold sorted_keys_of; intros H.
  apply bind_ok_inv in H as (dec & Hdec & H); injection H as <-.
  rewrite <- (map_result_snd _ _ _ Hdec).
  apply Permutation_map, sorted_desc_perm.
Qed.


(* ================================================================== *)
(** * The remainder pass and the clean-up loop *)
(* ================================================================== *)

Lemma fold_out_of_range {T} (f : string -> T -> T) (sk : list string)
    (r a : nat) (t : T) :
  (List.length sk <= a)%nat ->
  fold_left (fun t i => if (i <? List.length sk)%nat
                        then f (nth i sk "") t else t) (seq a r) t = t.
Proof.
  revert a t; induction r as [|r IH]; intros a t Ha; simpl; [reflexivity|].
  destruct (Nat.ltb_spec a (List.length sk)); [lia|].
  apply IH; lia.
Qed.

Lemma fold_seq_firstn {T} (f : string -> T -> T) (r : nat)
    (pre suf : list string) (t : T) :
  fold_left (fun t i => if (i <? List.length (pre ++ suf))%nat
                        then f (nth i (pre ++ suf) "") t else t)
            (seq (List.length pre) r) t
  = fold_left (fun t k => f k t) (firstn r suf) t.
Proof.
  revert pre suf t; induction r as [|r IH]; intros pre suf t; simpl.
  - reflexivity.
  - destruct suf as [|k suf].
    + rewrite app_nil_r.
      destruct (Nat.ltb_spec (List.length pre) (List.length pre)); [lia|].
      apply fold_out_of_range; lia.
    + simpl.
      destruct (Nat.ltb_spec (List.length pre) (List.length (pre ++ k :: suf)))
        as [_|Hge]; [|rewrite length_app in Hge; simpl in Hge; lia].
      rewrite app_nth2, Nat.sub_diag by lia; simpl.
      specialize (IH (pre ++ [k])%list suf (f k t)).
      rewrite <- app_assoc in IH; simpl app in IH.
      replace (List.length (pre ++ [k])) with (S (List.length pre)) in IH
        by (rewrite length_app; simpl; lia).
      exact IH.
Qed.

(** The remainder pass adds one under each of the first [remainder] sorted
    keys, as far as there are keys. *)
Lemma distribute_remainder_firstn remainder sk tbl :
  distribute_remainder remainder sk tbl
  = fold_left (fun t k => dict_adjust incr_count k t)
              (firstn (Z.to_nat remainder) sk) tbl.
Proof.
  unfold distribute_remainder.
  apply (fold_seq_firstn (dict_adjust incr_count) _ [] sk tbl).
Qed.

Lemma bump_nil tbl : bump [] tbl = tbl.
Proof.
  unfold bump; rewrite <- (map_id tbl) at 2.
  apply map_ext; intros [k e]; reflexivity.
Qed.

Lemma dict_keys_bump ks tbl : dict_keys (bump ks tbl) = dict_keys tbl.
Proof.
  unfold bump, dict_keys; rewrite map_map.
  apply map_ext; intros [k e]; reflexivity.
Qed.

Lemma existsb_eqb_in k ks : existsb (String.eqb k) ks = true <-> In k ks.
Proof.
  rewrite existsb_exists; split.
  - intros (x & Hx & E); apply String.eqb_eq in E; subst; assumption.
  - intros H; exists k; split; [assumption | apply String.eqb_refl].
Qed.

Lemma fold_adjust_bump ks tbl :
  NoDup ks -> NoDup (dict_keys tbl) ->
  fold_left (fun t k => dict_adjust incr_count k t) ks tbl = bump ks tbl.
Proof.
  revert tbl; induction ks as [|k ks IH]; intros tbl Hks Htbl; simpl.
  - symmetry; apply bump_nil.
  - inversion Hks as [|? ? Hk Hks']; subst.
    rewrite IH by (try rewrite dict_keys_adjust; assumption).
    rewrite dict_adjust_map by assumption.
    unfold bump; rewrite map_map.
    apply map_ext; intros [k' e]; simpl.
    destruct (String.eqb_spec k' k) as [->|Hne].
    + rewrite String.eqb_refl; simpl.
      destruct (existsb (String.eqb k) ks) eqn:E; [|reflexivity].
      apply existsb_eqb_in in E; contradiction.
    + destruct (String.eqb_spec k k'); [congruence | reflexivity].
Qed.

Lemma dict_get_bump ks tbl k :
  dict_get k (bump ks tbl)
  = match dict_get k tbl with
    | Some e => Some (if existsb (String.eqb k) ks then incr_count e else e)
    | None => None
    end.
Proof.
  induction tbl as [|[k' e'] tbl IH]; simpl; [reflexivity|].
  destruct (String.eqb_spec k k') as [->|Hne]; [reflexivity | assumption].
Qed.

Lemma table_total_adjust k tbl :
  In k (dict_keys tbl) ->
  table_total (dict_adjust incr_count k tbl) = table_total tbl + 1.
Proof.
  unfold table_total, dict_values.
  induction tbl as [|[k' e'] tbl IH]; simpl; intros Hin; [contradiction|].
  destruct (String.eqb_spec k k') as [->|Hne]; simpl.
  - lia.
  - destruct Hin as [Hin|Hin]; [congruence|].
    rewrite IH by assumption; lia.
Qed.

Lemma table_total_fold ks tbl :
  (forall k, In k ks -> In k (dict_keys tbl)) ->
  table_total (fold_left (fun t k => dict_adjust incr_count k t) ks tbl)
  = table_total tbl + Z.of_nat (List.length ks).
Proof.
  revert tbl; induction ks as [|k ks IH]; intros tbl H; simpl fold_left.
  - simpl; lia.
  - rewrite IH.
    + rewrite table_total_adjust by (apply H; left; reflexivity).
      simpl List.length; lia.
    + intros k' Hk'; rewrite dict_keys_adjust; apply H; right; assumption.
Qed.

(** On unique keys the clean-up loop keeps the entries with a positive
    count, in order. *)
Lemma clean_distribution_filter tbl :
  NoDup (dict_keys tbl) ->
  clean_distribution tbl
  = map (fun '(k, e) => (k, to_alloc e))
        (filter (fun '(_, e) => fe_count e >? 0) tbl).
Proof.
  unfold clean_distribution.
  set (step := fun (distribution : dict alloc_entry) '(key, item) => _).
  assert (G : forall tbl acc,
             NoDup (dict_keys tbl) ->
             (forall k, In k (dict_keys acc) -> ~ In k (dict_keys tbl)) ->
             fold_left step tbl acc
             = (acc ++ map (fun '(k, e) => (k, to_alloc e))
                           (filter (fun '(_, e) => fe_count e >? 0) tbl))%list).
  { clear tbl; induction tbl as [|[k e] tbl IH]; intros acc Hnd Hdis; simpl.
    - rewrite app_nil_r; reflexivity.
    - inversion Hnd as [|? ? Hk Hnd']; subst.
      destruct (fe_count e >? 0) eqn:E; simpl.
      + rewrite dict_set_fresh.
        * rewrite IH; [rewrite <- app_assoc; reflexivity | assumption |].
          intros k' Hk'. unfold dict_keys in Hk'; rewrite map_app in Hk'.
          apply in_app_or in Hk' as [Hk'|[<-|[]]]; [|assumption].
          intros Hin; apply (Hdis k' Hk'); right; assumption.
        * intros Hin; apply (Hdis k Hin); left; reflexivity.
      + apply IH; [assumption|].
        intros k' Hk' Hin; apply (Hdis k' Hk'); right; assumption. }
  intros Hnd; rewrite G; [reflexivity | assumption | intros k []].
Qed.

Lemma allocated_clean tbl :
  NoDup (dict_keys tbl) ->
  (forall k e, In (k, e) tbl -> 0 <= fe_count e) ->
  allocated (clean_distribution tbl) = table_total tbl.
Proof.
  intros Hnd Hpos; rewrite clean_distribution_filter by assumption.
  clear Hnd; unfold allocated, table_total, dict_values.
  induction tbl as [|[k e] tbl IH]; simpl; [reflexivity|].
  assert (He := Hpos k e (or_introl eq_refl)).
  rewrite <- IH by (intros; eapply Hpos; right; eassumption).
  destruct (Z.gtb_spec (fe_count e) 0); simpl; lia.
Qed.

(* ================================================================== *)
(** * Facts about binary64 arithmetic *)
(* ================================================================== *)

Lemma up_to_hundred_check (P : Z -> bool) :
  forallb P up_to_hundred = true ->
  forall n, 0 <= n <= 100 -> P n = true.
Proof.
  intros H n Hn; rewrite forallb_forall in H; apply H.
  unfold up_to_hundred; apply in_map_iff.
  exists (Z.to_nat n); split; [lia|].
  apply in_seq; lia.
Qed.

Lemma float_of_int_small n :
  0 <= n <= 100 -> exists f, float_of_int n = Ok f.
Proof.
  intros Hn.
  assert (H : is_ok (float_of_int n) = true).
  { revert n Hn; apply up_to_hundred_check; vm_compute; reflexivity. }
  destruct (float_of_int n); [eauto | discriminate].
Qed.

(** Rounding a non-negative number gives a non-negative float, or NaN. *)
Lemma binary_round_aux_sign m e l :
  sign_ok (binary_round_aux prec emax false m e l) = true.
Proof.
  unfold binary_round_aux.
  destruct (shr_fexp prec emax m e l) as [mrs' e'].
  destruct (shr_fexp prec emax _ e' loc_Exact) as [mrs'' e''].
  destruct (shr_m mrs''); try reflexivity.
  destruct (e'' <=? emax - prec); reflexivity.
Qed.

Lemma fmul_sign_ok x y :
  sign_ok x = true -> sign_ok y = true -> sign_ok (fmul x y) = true.
Proof.
  unfold fmul.
  destruct x as [sx|sx| |sx mx ex], y as [sy|sy| |sy my ey];
    try destruct sx; try destruct sy; try discriminate; try reflexivity.
  intros _ _; simpl; apply binary_round_aux_sign.
Qed.

Lemma float_of_int_nonneg n f :
  0 <= n -> float_of_int n = Ok f -> sign_ok f = true.
Proof.
  unfold float_of_int, binary_normalize; intros Hn.
  destruct n as [|p|p]; [intros [= <-]; reflexivity | | lia].
  unfold binary_round.
  destruct (shl_align p 0 _) as [mz ez].
  assert (H := binary_round_aux_sign (Z.pos mz) ez loc_Exact).
  destruct (binary_round_aux prec emax false (Z.pos mz) ez loc_Exact);
    try discriminate; intros [= <-]; exact H.
Qed.

(** On a non-negative float [int] is the floor, and it is not negative. *)
Lemma int_of_float_floor x n :
  sign_ok x = true -> int_of_float x = Ok n -> floor x = Some n /\ 0 <= n.
Proof.
  destruct x as [s|s| |s m e]; try discriminate.
  - intros _ [= <-]; split; [reflexivity | lia].
  - destruct s; [discriminate|]; intros _.
    destruct e as [|p|p]; intros [= <-]; (split; [reflexivity|]).
    + lia.
    + change (0 <= Z.pos m * 2 ^ Z.pos p).
      apply Z.mul_nonneg_nonneg; [lia | apply Z.pow_nonneg; lia].
    + change (0 <= Z.pos m / 2 ^ Z.pos p).
      apply Z.div_pos; [lia | apply Z.pow_pos_nonneg; lia].
Qed.

Lemma exact_of_sign_ok total c x :
  0 <= total ->
  (let '((_, qr), (_, dr), (_, br)) := c in
   nonneg qr = true /\ nonneg dr = true /\ nonneg br = true) ->
  exact_of total c = Ok x -> sign_ok x = true.
Proof.
  destruct c as [[[q qr] [d dr]] [b br]]; simpl.
  intros Ht (Hq & Hd & Hb) H.
  unfold exact_count_of, int_mul_float in H.
  apply bind_ok_inv in H as (tq & Htq & H); injection H as <-.
  apply bind_ok_inv in Htq as (y & Hy & Htq); injection Htq as <-.
  apply float_of_int_nonneg in Hy; [|assumption].
  assert (S : forall w, nonneg w = true -> sign_ok w = true)
    by (intros w Hw; unfold sign_ok; rewrite Hw; reflexivity).
  repeat apply fmul_sign_ok; auto.
Qed.

(** A product with a zero factor. *)
Lemma fmul_zero_r x y : is_zero y = true -> zero_or_nan (fmul x y) = true.
Proof.
  destruct y as [sy| | |]; try discriminate; intros _.
  destruct x as [sx|sx| |sx mx ex]; reflexivity.
Qed.

Lemma fmul_zero_l x y : zero_or_nan x = true -> zero_or_nan (fmul x y) = true.
Proof.
  destruct x as [sx| | |]; try discriminate; intros _;
    destruct y as [sy|sy| |sy my ey]; reflexivity.
Qed.

Lemma flt_zero_zero x y : is_zero x = true -> is_zero y = true -> flt x y = false.
Proof.
  destruct x, y; try discriminate; reflexivity.
Qed.


(* ================================================================== *)
(** * The allocator as a whole *)
(* ================================================================== *)

Lemma stored_entry_inv total c e :
  stored_entry total c = Ok e ->
  exists x, exact_of total c = Ok x /\ int_of_float x = Ok (fe_count e)
            /\ fe_exact_count e = x
            /\ key_of c = combo_key (fe_question_type e) (fe_difficulty e)
                                    (fe_blooms_level e).
Proof.
  destruct c as [[[q qr] [d dr]] [b br]]; unfold stored_entry.
  intros H; apply bind_ok_inv in H as (x & Hx & H).
  apply bind_ok_inv in H as (n & Hn & H); injection H as <-.
  exists x; simpl; auto.
Qed.

Lemma fractional_distribution_nodup total qd dd bd tbl :
  fractional_distribution total qd dd bd = Ok tbl -> NoDup (dict_keys tbl).
Proof.
  rewrite fractional_distribution_flat.
  apply table_nodup; constructor.
Qed.

Lemma fractional_distribution_entries total qd dd bd tbl k e :
  fractional_distribution total qd dd bd = Ok tbl -> In (k, e) tbl ->
  exists c, In c (cross_product qd dd bd) /\ key_of c = k
            /\ stored_entry total c = Ok e.
Proof.
  rewrite fractional_distribution_flat; intros H Hin.
  destruct (table_entries _ _ _ _ H k e Hin) as [[]|?]; assumption.
Qed.

Lemma cross_product_in qd dd bd q d b :
  In (q, d, b) (cross_product qd dd bd) <-> In q qd /\ In d dd /\ In b bd.
Proof.
  unfold cross_product; rewrite in_flat_map; split.
  - intros (q' & Hq & H); apply in_flat_map in H as (d' & Hd & H).
    apply in_map_iff in H as (b' & [= <- <- <-] & Hb); auto.
  - intros (Hq & Hd & Hb); exists q; split; [assumption|].
    apply in_flat_map; exists d; split; [assumption|].
    apply in_map; assumption.
Qed.

Lemma cross_product_nonneg qd dd bd c :
  nonneg_weights qd = true -> nonneg_weights dd = true ->
  nonneg_weights bd = true -> In c (cross_product qd dd bd) ->
  let '((_, qr), (_, dr), (_, br)) := c in
  nonneg qr = true /\ nonneg dr = true /\ nonneg br = true.
Proof.
  unfold nonneg_weights; rewrite !forallb_forall.
  destruct c as [[[q qr] [d dr]] [b br]]; intros Hq Hd Hb Hin.
  apply cross_product_in in Hin as (Iq & Id & Ib).
  repeat split;
    [apply (Hq _ Iq) | apply (Hd _ Id) | apply (Hb _ Ib)].
Qed.

(** With non-negative weights every floored count is the floor of its exact
    count, and is not negative. *)
Lemma table_counts_floor total qd dd bd tbl k e :
  0 <= total ->
  nonneg_weights qd = true -> nonneg_weights dd = true ->
  nonneg_weights bd = true ->
  fractional_distribution total qd dd bd = Ok tbl -> In (k, e) tbl ->
  floor (fe_exact_count e) = Some (fe_count e) /\ 0 <= fe_count e.
Proof.
  intros Ht Hq Hd Hb H Hin.
  destruct (fractional_distribution_entries _ _ _ _ _ _ _ H Hin)
    as (c & Hc & _ & He).
  apply stored_entry_inv in He as (x & Hx & Hn & -> & _).
  apply int_of_float_floor; [|assumption].
  eapply exact_of_sign_ok; [eassumption | | eassumption].
  apply (cross_product_nonneg qd dd bd); assumption.
Qed.

Lemma count_le_table_total tbl k e :
  (forall k e, In (k, e) tbl -> 0 <= fe_count e) ->
  In (k, e) tbl -> fe_count e <= table_total tbl.
Proof.
  unfold table_total, dict_values.
  induction tbl as [|[k' e'] tbl IH]; simpl; intros Hpos Hin; [contradiction|].
  assert (0 <= sum_Z (map fe_count (map snd tbl))).
  { clear - Hpos; induction tbl as [|[k1 e1] tbl IH]; simpl; [lia|].
    assert (0 <= fe_count e1) by (apply (Hpos k1 e1); right; left; reflexivity).
    assert (0 <= sum_Z (map fe_count (map snd tbl))); [|lia].
    apply IH; intros k2 e2 [H2|H2]; apply (Hpos k2 e2);
      [left; assumption | right; right; assumption]. }
  assert (0 <= fe_count e') by (apply (Hpos k' e'); left; reflexivity).
  destruct Hin as [[= -> ->]|Hin]; [lia|].
  assert (fe_count e <= sum_Z (map fe_count (map snd tbl))); [|lia].
  apply IH; [|assumption]. intros; eapply Hpos; right; eassumption.
Qed.

(** The sort succeeds when every count converts to a float. *)
Lemma sorted_keys_of_ok tbl :
  (forall k e, In (k, e) tbl -> exists f, float_of_int (fe_count e) = Ok f) ->
  exists sk, sorted_keys_of tbl = Ok sk.
Proof.
  intros H; unfold sorted_keys_of.
  destruct (map_result_all_ok
              (fun k => v <- sort_key tbl k ;; Ok (v, k)) (dict_keys tbl))
    as (dec & ->); [|simpl; eauto].
  intros k Hk; unfold sort_key.
  destruct (dict_get k tbl) as [e|] eqn:E.
  - apply dict_get_in in E; destruct (H _ _ E) as (f & Hf).
    unfold fractional_part, float_sub_int; rewrite Hf; simpl; eauto.
  - apply dict_mem_in in Hk; unfold dict_mem in Hk; rewrite E in Hk.
    discriminate.
Qed.

Lemma in_firstn {A} (n : nat) (l : list A) (x : A) :
  In x (firstn n l) -> In x l.
Proof.
  revert l; induction n as [|n IH]; intros [|a l]; simpl; try tauto.
  intros [H|H]; [left; assumption | right; auto].
Qed.

Lemma nodup_firstn {A} (n : nat) (l : list A) :
  NoDup l -> NoDup (firstn n l).
Proof.
  revert l; induction n as [|n IH]; intros [|a l] H; simpl;
    try constructor.
  - inversion H; subst; intros Hin; apply in_firstn in Hin; contradiction.
  - inversion H; subst; auto.
Qed.

(** What the allocator returns, in one formula. *)
Lemma allocation_table_inv total qd dd bd tbl' :
  allocation_table total qd dd bd = Ok tbl' ->
  exists tbl sk,
    fractional_distribution total qd dd bd = Ok tbl
    /\ sorted_keys_of tbl = Ok sk
    /\ tbl' = bump (firstn (Z.to_nat (total - table_total tbl)) sk) tbl.
Proof.
  unfold allocation_table; intros H.
  apply bind_ok_inv in H as (tbl & Htbl & H).
  apply bind_ok_inv in H as (sk & Hsk & H); injection H as <-.
  exists tbl, sk; repeat split; try assumption.
  rewrite distribute_remainder_firstn.
  apply fold_adjust_bump.
  - apply nodup_firstn.
    apply (Permutation_NoDup (Permutation_sym (sorted_keys_perm _ _ Hsk))).
    eapply fractional_distribution_nodup; eassumption.
  - eapply fractional_distribution_nodup; eassumption.
Qed.

Lemma allocation_table_intro total qd dd bd tbl sk :
  fractional_distribution total qd dd bd = Ok tbl ->
  sorted_keys_of tbl = Ok sk ->
  allocation_table total qd dd bd
  = Ok (bump (firstn (Z.to_nat (total - table_total tbl)) sk) tbl).
Proof.
  intros Htbl Hsk.
  destruct (allocation_table total qd dd bd) as [tbl'|e] eqn:E.
  - apply allocation_table_inv in E as (tbl1 & sk1 & H1 & H2 & ->).
    congruence.
  - unfold allocation_table in E; rewrite Htbl in E; simpl in E.
    rewrite Hsk in E; discriminate.
Qed.

Lemma table_total_bump ks tbl :
  NoDup ks -> NoDup (dict_keys tbl) ->
  (forall k, In k ks -> In k (dict_keys tbl)) ->
  table_total (bump ks tbl) = table_total tbl + Z.of_nat (List.length ks).
Proof.
  intros Hks Htbl Hin.
  rewrite <- fold_adjust_bump by assumption.
  apply table_total_fold; assumption.
Qed.

Lemma in_bump ks tbl k e' :
  In (k, e') (bump ks tbl) ->
  exists e, In (k, e) tbl /\ (e' = e \/ e' = incr_count e).
Proof.
  unfold bump; intros H; apply in_map_iff in H as ([k0 e] & [= -> <-] & Hin).
  exists e; split; [assumption|].
  destruct (existsb (String.eqb k) ks); auto.
Qed.

Lemma calculate_of_table total qd dd bd tbl' :
  allocation_table total qd dd bd = Ok tbl' ->
  calculate_question_distribution total qd dd bd
  = Ok (clean_distribution tbl').
Proof.
  unfold calculate_question_distribution; intros ->; reflexivity.
Qed.

Lemma dict_get_none {V} (k : string) (d : dict V) :
  ~ In k (dict_keys d) -> dict_get k d = None.
Proof.
  intros H; apply dict_mem_false in H; unfold dict_mem in H.
  destruct (dict_get k d); [discriminate | reflexivity].
Qed.

(** The count the returned allocation gives to a key, read off the table. *)
Lemma count_in_clean tbl k :
  NoDup (dict_keys tbl) ->
  count_in (clean_distribution tbl) k
  = match dict_get k tbl with
    | Some e => if fe_count e >? 0 then fe_count e else 0
    | None => 0
    end.
Proof.
  intros Hnd; rewrite clean_distribution_filter by assumption.
  unfold count_in.
  induction tbl as [|[k' e'] tbl IH]; simpl; [reflexivity|].
  inversion Hnd as [|? ? Hk' Hnd']; subst.
  destruct (String.eqb_spec k k') as [->|Hne].
  - destruct (fe_count e' >? 0) eqn:E; simpl.
    + rewrite String.eqb_refl; reflexivity.
    + rewrite dict_get_none; [reflexivity|].
      intros Hin; apply Hk'.
      unfold dict_keys in Hin; rewrite map_map in Hin.
      apply in_map_iff in Hin as ([k1 e1] & <- & Hin).
      apply filter_In in Hin as [Hin _].
      apply (in_map fst) in Hin; exact Hin.
  - destruct (fe_count e' >? 0); simpl; [|auto].
    destruct (String.eqb_spec k k'); [congruence | auto].
Qed.

Lemma for_each_store_all_ok total l tbl0 tbl c :
  for_each l (store total) tbl0 = Ok tbl -> In c l ->
  exists e, stored_entry total c = Ok e.
Proof.
  revert tbl0; induction l as [|c0 l IH]; intros tbl0 H Hin; simpl in H;
    [contradiction|].
  apply bind_ok_inv in H as (t1 & H1 & H2).
  destruct Hin as [->|Hin]; [|eauto].
  apply store_ok in H1 as (e & He & _); eauto.
Qed.

(** A combination that shares its key with no other is the one stored
    under its key. *)
Lemma unshared_key_entry total qd dd bd tbl c :
  fractional_distribution total qd dd bd = Ok tbl ->
  In c (cross_product qd dd bd) ->
  (forall c', In c' (cross_product qd dd bd) -> key_of c' = key_of c -> c' = c) ->
  exists e, stored_entry total c = Ok e /\ dict_get (key_of c) tbl = Some e.
Proof.
  rewrite fractional_distribution_flat; intros H Hin Huniq.
  destruct (for_each_store_all_ok _ _ _ _ _ H Hin) as (e & He).
  exists e; split; [assumption|].
  apply (table_last_write _ _ _ _ H (key_of c)).
  - apply existsb_exists; exists c; split; [assumption | apply String.eqb_refl].
  - intros c' Hc' Hk; rewrite (Huniq c' Hc' Hk); assumption.
Qed.

Lemma dict_mem_existsb {V} (k : string) (d : dict V) :
  dict_mem k d = existsb (String.eqb k) (dict_keys d).
Proof.
  unfold dict_mem; induction d as [|[k' v'] d IH]; simpl; [reflexivity|].
  destruct (String.eqb k k'); [reflexivity | assumption].
Qed.




(** Labels without underscores give every combination a key of its own. *)
Lemma underscore_split a a' r r' :
  underscore_free a = true -> underscore_free a' = true ->
  a ++ String "_" r = a' ++ String "_" r' -> a = a' /\ r = r'.
Proof.
  revert a'; induction a as [|c a IH]; intros [|c' a'] Ha Ha' H; simpl in *.
  - injection H as ->; auto.
  - injection H as <- _; discriminate.
  - injection H as -> _; discriminate.
  - apply andb_true_iff in Ha as [_ Ha]; apply andb_true_iff in Ha' as [_ Ha'].
    injection H as -> H; destruct (IH a' Ha Ha' H) as [-> ->]; auto.
Qed.

Lemma combo_key_injective q d b q' d' b' :
  underscore_free q = true -> underscore_free q' = true ->
  underscore_free d = true -> underscore_free d' = true ->
  combo_key q d b = combo_key q' d' b' -> q = q' /\ d = d' /\ b = b'.
Proof.
  unfold combo_key; intros Hq Hq' Hd Hd' H.
  apply underscore_split in H as [-> H]; [|assumption..].
  apply underscore_split in H as [-> ->]; auto.
Qed.

Lemma nodup_keys_value {V} (l : list (string * V)) k v v' :
  NoDup (map fst l) -> In (k, v) l -> In (k, v') l -> v = v'.
Proof.
  intros Hnd H1 H2.
  assert (G1 := in_dict_get _ _ _ Hnd H1).
  assert (G2 := in_dict_get _ _ _ Hnd H2); congruence.
Qed.

Lemma plain_labels_unshared qd dd bd c :
  plain_labels qd -> plain_labels dd -> NoDup (map fst bd) ->
  In c (cross_product qd dd bd) ->
  forall c', In c' (cross_product qd dd bd) -> key_of c' = key_of c -> c' = c.
Proof.
  intros [Nq Uq] [Nd Ud] Nb Hc c' Hc' Hk.
  destruct c as [[[q qr] [d dr]] [b br]], c' as [[[q' qr'] [d' dr']] [b' br']].
  apply cross_product_in in Hc as (Iq & Id & Ib).
  apply cross_product_in in Hc' as (Iq' & Id' & Ib').
  rewrite forallb_forall in Uq, Ud.
  simpl in Hk; apply combo_key_injective in Hk as (-> & -> & ->);
    [| apply (Uq _ Iq') | apply (Uq _ Iq) | apply (Ud _ Id') | apply (Ud _ Id)].
  rewrite (nodup_keys_value _ _ _ _ Nq Iq Iq'),
          (nodup_keys_value _ _ _ _ Nd Id Id'),
          (nodup_keys_value _ _ _ _ Nb Ib Ib'); reflexivity.
Qed.

(* ================================================================== *)
(** * An all-zero proportion map *)
(* ================================================================== *)

Lemma for_each_raise {A S} (l : list A) (body : S -> A -> result S)
    (s : S) (e : exn) :
  for_each l body s = Raise e -> exists a s', In a l /\ body s' a = Raise e.
Proof.
  revert s; induction l as [|a l IH]; intros s H; simpl in H; [discriminate|].
  destruct (body s a) as [s1|e1] eqn:E; simpl in H.
  - destruct (IH _ H) as (a' & s' & Hin & Hb).
    exists a', s'; split; [right; assumption | assumption].
  - injection H as <-; exists a, s; split; [left; reflexivity | assumption].
Qed.

Lemma float_of_int_raise n e : float_of_int n = Raise e -> e = int_too_large.
Proof.
  unfold float_of_int.
  destruct (binary_normalize prec emax n 0 false); try discriminate.
  intros [= <-]; reflexivity.
Qed.

Lemma all_zero_in p k w : all_zero p = true -> In (k, w) p -> is_zero w = true.
Proof.
  unfold all_zero; rewrite forallb_forall; intros H Hin; apply (H _ Hin).
Qed.

(** With an all-zero map every exact count is a zero, or NaN. *)
Lemma all_zero_exact total qd dd bd c :
  all_zero qd = true \/ all_zero dd = true \/ all_zero bd = true ->
  In c (cross_product qd dd bd) ->
  match exact_of total c with
  | Ok x => zero_or_nan x = true
  | Raise e => e = int_too_large
  end.
Proof.
  destruct c as [[[q qr] [d dr]] [b br]]; intros Hz Hin.
  apply cross_product_in in Hin as (Iq & Id & Ib).
  unfold exact_of, exact_count_of, int_mul_float.
  destruct (float_of_int total) as [y|e] eqn:E; simpl;
    [|apply (float_of_int_raise _ _ E)].
  destruct Hz as [Hz|[Hz|Hz]].
  - do 2 apply fmul_zero_l; apply fmul_zero_r.
    apply (all_zero_in _ _ _ Hz Iq).
  - apply fmul_zero_l, fmul_zero_r; apply (all_zero_in _ _ _ Hz Id).
  - apply fmul_zero_r; apply (all_zero_in _ _ _ Hz Ib).
Qed.

Lemma zero_or_nan_int x :
  zero_or_nan x = true ->
  (is_zero x = true /\ int_of_float x = Ok 0)
  \/ int_of_float x = Raise nan_error.
Proof.
  destruct x; try discriminate; intros _; [left | right]; auto.
Qed.

Lemma all_zero_store_raise total qd dd bd c tbl e :
  all_zero qd = true \/ all_zero dd = true \/ all_zero bd = true ->
  In c (cross_product qd dd bd) ->
  store total tbl c = Raise e -> e = nan_error \/ e = int_too_large.
Proof.
  intros Hz Hin; assert (Hx := all_zero_exact total _ _ _ _ Hz Hin).
  unfold store, stored_entry.
  destruct c as [[[q qr] [d dr]] [b br]].
  destruct (exact_of total _) as [x|e1]; simpl.
  - destruct (zero_or_nan_int _ Hx) as [[_ ->]| ->]; simpl;
      [discriminate | intros [= <-]; left; reflexivity].
  - intros [= <-]; right; assumption.
Qed.

Lemma all_zero_entries total qd dd bd tbl k e :
  all_zero qd = true \/ all_zero dd = true \/ all_zero bd = true ->
  fractional_distribution total qd dd bd = Ok tbl -> In (k, e) tbl ->
  is_zero (fe_exact_count e) = true /\ fe_count e = 0.
Proof.
  intros Hz H Hin.
  destruct (fractional_distribution_entries _ _ _ _ _ _ _ H Hin)
    as (c & Hc & _ & He).
  assert (Hx := all_zero_exact total _ _ _ _ Hz Hc).
  apply stored_entry_inv in He as (x & Hex & Hn & -> & _).
  rewrite Hex in Hx.
  destruct (zero_or_nan_int _ Hx) as [[Hzero Hi]|Hi]; rewrite Hi in Hn;
    [injection Hn as <-; auto | discriminate].
Qed.

Lemma sorted_desc_all_ties {A} (l : list (float * A)) :
  (forall x, In x l -> is_zero (fst x) = true) -> sorted_desc l = l.
Proof.
  induction l as [|x l IH]; intros H; simpl; [reflexivity|].
  rewrite IH by (intros; apply H; right; assumption).
  destruct l as [|y l]; simpl; [reflexivity|].
  rewrite flt_zero_zero; [reflexivity | |]; apply H; simpl; auto.
Qed.

Lemma fractional_part_zero e :
  is_zero (fe_exact_count e) = true -> fe_count e = 0 ->
  exists z, fractional_part e = Ok z /\ is_zero z = true.
Proof.
  unfold fractional_part; destruct e as [q d b x n]; simpl.
  intros Hx ->; destruct x as [s| | |]; try discriminate.
  exists (fsub (S754_zero s) (S754_zero false)); split;
    [reflexivity | destruct s; reflexivity].
Qed.

(** All fractional parts are zeros, so the sort leaves the keys in place. *)
Lemma all_zero_sorted_keys tbl :
  (forall k e, In (k, e) tbl ->
     is_zero (fe_exact_count e) = true /\ fe_count e = 0) ->
  sorted_keys_of tbl = Ok (dict_keys tbl).
Proof.
  intros H; unfold sorted_keys_of.
  destruct (map_result _ (dict_keys tbl)) as [dec|e] eqn:E.
  - simpl; f_equal.
    rewrite sorted_desc_all_ties; [apply (map_result_snd _ _ _ E)|].
    intros [z k] Hin.
    apply map_result_ok in E.
    assert (G : exists k0, In k0 (dict_keys tbl)
                /\ (v <- sort_key tbl k0 ;; Ok (v, k0)) = Ok (z, k)).
    { clear - E Hin; induction E as [|a b0 l l' Hab E IH]; [destruct Hin|].
      destruct Hin as [->|Hin].
      - exists a; split; [left; reflexivity | assumption].
      - destruct (IH Hin) as (k0 & ? & ?); exists k0; split;
          [right; assumption | assumption]. }
    destruct G as (k0 & Hk0 & G).
    apply bind_ok_inv in G as (v & Hv & G); injection G as <- <-.
    unfold sort_key in Hv.
    destruct (dict_get k0 tbl) as [e0|] eqn:G0; [|discriminate].
    apply dict_get_in in G0; destruct (H _ _ G0) as [Hz Hc].
    destruct (fractional_part_zero _ Hz Hc) as (z' & Hz' & Hzz).
    simpl; congruence.
  - exfalso.
    destruct (map_result_all_ok
                (fun k => v <- sort_key tbl k ;; Ok (v, k)) (dict_keys tbl))
      as (dec & Hdec); [|congruence].
    intros k Hk; unfold sort_key.
    destruct (dict_get k tbl) as [e0|] eqn:G0.
    + apply dict_get_in in G0; destruct (H _ _ G0) as [Hz Hc].
      destruct (fractional_part_zero _ Hz Hc) as (z' & -> & _); simpl; eauto.
    + apply dict_mem_in in Hk; unfold dict_mem in Hk; rewrite G0 in Hk.
      discriminate.
Qed.

Lemma filter_none {A} (f : A -> bool) (l : list A) :
  (forall a, In a l -> f a = false) -> filter f l = [].
Proof.
  induction l as [|a l IH]; intros H; simpl; [reflexivity|].
  rewrite (H a (or_introl eq_refl)); apply IH.
  intros; apply H; right; assumption.
Qed.

Lemma filter_firstn_keys {V} (r : nat) (d : dict V) :
  NoDup (dict_keys d) ->
  filter (fun '(k, _) => existsb (String.eqb k) (firstn r (dict_keys d))) d
  = firstn r d.
Proof.
  revert r; induction d as [|[k v] d IH]; intros r Hnd.
  - destruct r; reflexivity.
  - inversion Hnd as [|? ? Hk Hnd']; subst.
    destruct r as [|r]; simpl.
    + apply filter_none; intros [k' v'] _; reflexivity.
    + rewrite String.eqb_refl; simpl; f_equal.
      rewrite <- (IH r Hnd').
      apply filter_ext_in; intros [k' v'] Hin.
      destruct (String.eqb_spec k' k) as [->|]; [|reflexivity].
      exfalso; apply Hk; apply (in_map fst) in Hin; exact Hin.
Qed.

(** With zero counts everywhere, the allocation gives one question to each
    of the first [r] keys. *)
Lemma all_zero_clean r tbl :
  NoDup (dict_keys tbl) ->
  (forall k e, In (k, e) tbl -> fe_count e = 0) ->
  clean_distribution (bump (firstn r (dict_keys tbl)) tbl)
  = map one_each (firstn r tbl).
Proof.
  intros Hnd Hz.
  rewrite clean_distribution_filter by (rewrite dict_keys_bump; assumption).
  rewrite <- (filter_firstn_keys r tbl Hnd).
  generalize (firstn r (dict_keys tbl)) as ks; intros ks.
  clear Hnd; induction tbl as [|[k e] tbl IH]; simpl; [reflexivity|].
  assert (He := Hz k e (or_introl eq_refl)).
  assert (IH' := IH (fun k0 e0 H0 => Hz k0 e0 (or_intror H0))).
  destruct (existsb (String.eqb k) ks); simpl.
  - rewrite He; simpl; rewrite IH'.
    unfold to_alloc; simpl; rewrite He; reflexivity.
  - rewrite He; simpl; assumption.
Qed.

Lemma table_total_zero tbl :
  (forall k e, In (k, e) tbl -> fe_count e = 0) -> table_total tbl = 0.
Proof.
  unfold table_total, dict_values.
  induction tbl as [|[k e] tbl IH]; intros H; simpl; [reflexivity|].
  rewrite (H k e (or_introl eq_refl)), IH; [reflexivity|].
  intros; eapply H; right; eassumption.
Qed.

(* ================================================================== *)
(** * Strings: occurrences and splitting *)
(* ================================================================== *)

Lemma append_assoc (a b c : string) : (a ++ b) ++ c = a ++ b ++ c.
Proof. induction a as [|x a IH]; simpl; [reflexivity | rewrite IH; reflexivity]. Qed.

Lemma append_nil_r (a : string) : a ++ "" = a.
Proof. induction a as [|x a IH]; simpl; [reflexivity | rewrite IH; reflexivity]. Qed.

Lemma strip_prefix_spec p s r : strip_prefix p s = Some r -> s = p ++ r.
Proof.
  revert s; induction p as [|a p IH]; intros s; simpl.
  - intros [= ->]; reflexivity.
  - destruct s as [|c s]; [discriminate|].
    destruct (Ascii.eqb_spec a c) as [->|]; [|discriminate].
    intros H; rewrite (IH _ H); reflexivity.
Qed.

Lemma strip_prefix_app p r : strip_prefix p (p ++ r) = Some r.
Proof.
  induction p as [|a p IH]; simpl; [reflexivity|].
  rewrite Ascii.eqb_refl; assumption.
Qed.

Lemma find_sub_spec sep s a b :
  find_sub sep s = Some (a, b) -> s = a ++ sep ++ b.
Proof.
  revert a b; induction s as [|c s IH]; intros a b; simpl.
  - destruct (strip_prefix sep "") as [r|] eqn:E; [|discriminate].
    intros [= <- <-]; apply strip_prefix_spec in E; assumption.
  - destruct (strip_prefix sep (String c s)) as [r|] eqn:E.
    + intros [= <- <-]; apply strip_prefix_spec in E; assumption.
    + destruct (find_sub sep s) as [[a' b']|]; [|discriminate].
      intros [= <- <-]; simpl; f_equal; apply IH; reflexivity.
Qed.

Lemma find_sub_app sep a b : find_sub sep (a ++ sep ++ b) <> None.
Proof.
  induction a as [|c a IH]; simpl.
  - destruct (sep ++ b) eqn:E; simpl; rewrite <- E, strip_prefix_app;
      discriminate.
  - destruct (strip_prefix sep (String c (a ++ sep ++ b))); [discriminate|].
    destruct (find_sub sep (a ++ sep ++ b)) as [[? ?]|]; [discriminate|].
    exact IH.
Qed.

(** [sep in s] holds exactly when [s] holds an occurrence of [sep]. *)
Lemma contains_iff sep s :
  contains sep s = true <-> exists a b, s = a ++ sep ++ b.
Proof.
  unfold contains; split.
  - destruct (find_sub sep s) as [[a b]|] eqn:E; [|discriminate].
    intros _; exists a, b; apply find_sub_spec; assumption.
  - intros (a & b & ->).
    destruct (find_sub sep _) eqn:E; [reflexivity|].
    exfalso; exact (find_sub_app _ _ _ E).
Qed.

(** What occurs in a part of a text occurs in the text. *)
Lemma contains_part k a t c :
  contains k t = true -> contains k (a ++ t ++ c) = true.
Proof.
  rewrite !contains_iff; intros (x & y & ->).
  exists (a ++ x), (y ++ c); rewrite !append_assoc; reflexivity.
Qed.

Lemma contains_part_false k a t c :
  contains k (a ++ t ++ c) = false -> contains k t = false.
Proof.
  intros H; destruct (contains k t) eqn:E; [|reflexivity].
  rewrite (contains_part k a t c E) in H; discriminate.
Qed.

Lemma split_fuel_head n sep s : exists x r, split_fuel n sep s = x :: r.
Proof.
  destruct n; simpl; [eauto|].
  destruct (find_sub sep s) as [[a b]|]; eauto.
Qed.

Lemma split_first sep s : exists x, getitem (split sep s) 0 = Ok x.
Proof.
  unfold split, getitem.
  destruct (split_fuel_head (String.length s) sep s) as (x & r & ->).
  simpl; eauto.
Qed.

(** The second piece of a split at a non-empty separator that occurs: the
    text between the first occurrence and the next one (or the end). *)
Lemma split_second c sep s :
  contains (String c sep) s = true ->
  exists pre x rest,
    getitem (split (String c sep) s) 1 = Ok x
    /\ s = pre ++ String c sep ++ x ++ rest.
Proof.
  unfold contains, split, getitem.
  destruct (find_sub (String c sep) s) as [[pre post]|] eqn:E; [|discriminate].
  intros _; assert (Hs := find_sub_spec _ _ _ _ E).
  destruct s as [|c0 s0]; [destruct pre; discriminate|].
  cbn [String.length split_fuel]; rewrite E; cbn [nth_error].
  destruct (split_fuel_head (String.length s0) (String c sep) post)
    as (x & r & Hx); rewrite Hx; cbn [nth_error].
  exists pre, x.
  destruct (String.length s0) as [|n]; simpl in Hx.
  - injection Hx as <- <-; exists ""; split; [reflexivity|].
    rewrite append_nil_r; assumption.
  - destruct (find_sub (String c sep) post) as [[a1 b1]|] eqn:E1.
    + injection Hx as <- <-; apply find_sub_spec in E1.
      exists (String c sep ++ b1); split; [reflexivity|].
      rewrite Hs, E1; reflexivity.
    + injection Hx as <- <-; exists ""; split; [reflexivity|].
      rewrite append_nil_r; assumption.
Qed.

Lemma length_append (a b : string) :
  String.length (a ++ b) = (String.length a + String.length b)%nat.
Proof. induction a as [|x a IH]; simpl; [reflexivity | rewrite IH; reflexivity]. Qed.

Lemma find_sub_shorter c sep s a b :
  find_sub (String c sep) s = Some (a, b) ->
  (String.length b < String.length s)%nat.
Proof.
  intros H; apply find_sub_spec in H; subst s.
  rewrite !length_append; simpl; lia.
Qed.

(** The fuel of [split] is enough: more fuel changes nothing. *)
Lemma split_fuel_enough c sep n m s :
  (String.length s <= n)%nat -> (String.length s <= m)%nat ->
  split_fuel n (String c sep) s = split_fuel m (String c sep) s.
Proof.
  revert m s; induction n as [|n IH]; intros m s Hn Hm.
  - destruct s; [|simpl in Hn; lia].
    destruct m; reflexivity.
  - destruct m as [|m].
    + destruct s; [reflexivity | simpl in Hm; lia].
    + simpl; destruct (find_sub (String c sep) s) as [[a b]|] eqn:E;
        [|reflexivity].
      apply find_sub_shorter in E; f_equal; apply IH; lia.
Qed.

Lemma strip_prefix_shorter c p s r :
  strip_prefix (String c p) s = Some r ->
  (String.length r < String.length s)%nat.
Proof.
  intros H; apply strip_prefix_spec in H; subst s.
  simpl; rewrite length_append; lia.
Qed.

Lemma drop_space_shorter ws s r :
  forallb truthy ws = true -> drop_space ws s = Some r ->
  (String.length r < String.length s)%nat.
Proof.
  unfold drop_space; induction ws as [|w ws IH]; simpl; [discriminate|].
  intros H; apply andb_true_iff in H as [Hw Hws].
  destruct (strip_prefix w s) as [r'|] eqn:E.
  - intros [= <-]; destruct w; [discriminate|].
    eapply strip_prefix_shorter; eassumption.
  - auto.
Qed.

(** The fuel of [strip] is enough as well. *)
Lemma lstrip_fuel_enough ws n m s :
  forallb truthy ws = true ->
  (String.length s <= n)%nat -> (String.length s <= m)%nat ->
  lstrip_fuel ws n s = lstrip_fuel ws m s.
Proof.
  intros Hws; revert m s; induction n as [|n IH]; intros m s Hn Hm.
  - destruct s; [|simpl in Hn; lia].
    destruct m; [reflexivity|]; simpl.
    destruct (drop_space ws "") as [r|] eqn:E; [|reflexivity].
    apply (drop_space_shorter _ _ _ Hws) in E; simpl in E; lia.
  - destruct m as [|m]; simpl.
    + destruct s; [|simpl in Hm; lia].
      destruct (drop_space ws "") as [r|] eqn:E; [|reflexivity].
      apply (drop_space_shorter _ _ _ Hws) in E; simpl in E; lia.
    + destruct (drop_space ws s) as [r|] eqn:E; [|reflexivity].
      apply (drop_space_shorter _ _ _ Hws) in E; apply IH; lia.
Qed.

Lemma whitespace_nonempty :
  forallb truthy whitespace = true
  /\ forallb truthy (map reverse whitespace) = true.
Proof. split; reflexivity. Qed.

(* ================================================================== *)
(** * The parsers *)
(* ================================================================== *)

Lemma take_question_spec block :
  exists q block',
    take_question block = Ok (q, block')
    /\ (exists a c, block = a ++ block' ++ c)
    /\ (contains "ANSWER:" block = false -> q = "" /\ block' = block).
Proof.
  unfold take_question.
  destruct (contains "ANSWER:" block) eqn:E.
  - destruct (split_first "ANSWER:" block) as (q & ->).
    cbn [bind].
    destruct (split_second "A" "NSWER:" block E) as (pre & x & rest & -> & Hs).
    cbn [bind]; exists (strip q), ("ANSWER:" ++ x); split; [reflexivity|].
    split; [|discriminate].
    exists pre, rest; rewrite Hs, !append_assoc; reflexivity.
  - exists "", block; split; [reflexivity|]; split; [|auto].
    exists "", ""; rewrite append_nil_r; reflexivity.
Qed.

Lemma take_answer_spec block :
  exists ans block',
    take_answer block = Ok (ans, block')
    /\ (exists a c, block = a ++ block' ++ c)
    /\ (contains "ANSWER:" block = false \/ contains "EXPLANATION:" block = false
        -> ans = "" /\ block' = block).
Proof.
  unfold take_answer.
  destruct (contains "ANSWER:" block) eqn:E1;
    [destruct (contains "EXPLANATION:" block) eqn:E2|]; simpl.
  - destruct (split_second "A" "NSWER:" block E1) as (_ & x & _ & -> & _).
    cbn [bind].
    destruct (split_first "EXPLANATION:" x) as (a0 & ->).
    cbn [bind].
    destruct (split_second "E" "XPLANATION:" block E2)
      as (pre & e & rest & -> & Hs).
    cbn [bind]; exists (strip a0), ("EXPLANATION:" ++ e); split; [reflexivity|].
    split; [|intros [?|?]; discriminate].
    exists pre, rest; rewrite Hs, !append_assoc; reflexivity.
  - exists "", block; split; [reflexivity|]; split; [|auto].
    exists "", ""; rewrite append_nil_r; reflexivity.
  - exists "", block; split; [reflexivity|]; split; [|auto].
    exists "", ""; rewrite append_nil_r; reflexivity.
Qed.

Lemma take_mcq_explanation_spec block :
  exists e, take_mcq_explanation block = Ok e
            /\ (contains "EXPLANATION:" block = false -> e = "").
Proof.
  unfold take_mcq_explanation.
  destruct (contains "EXPLANATION:" block) eqn:E; [|eauto].
  destruct (split_second "E" "XPLANATION:" block E) as (_ & x & _ & -> & _).
  cbn [bind]; destruct (contains "DISTRACTOR1:" x).
  - destruct (split_first "DISTRACTOR1:" x) as (e & ->); cbn [bind].
    eexists; split; [reflexivity | discriminate].
  - eexists; split; [reflexivity | discriminate].
Qed.

Lemma take_distractor_spec block ds i c key :
  exists ds', take_distractor block ds (i, String c key) = Ok ds'
              /\ (contains (String c key) block = false -> ds' = ds).
Proof.
  unfold take_distractor.
  destruct (contains (String c key) block) eqn:E; [|eauto].
  destruct (split_second c key block E) as (_ & x & _ & -> & _); cbn [bind].
  destruct (nth_error distractor_keys (i + 1)) as [nk|].
  - destruct (contains nk block).
    + destruct (split_first nk x) as (d0 & ->); cbn [bind].
      eexists; split; [reflexivity | discriminate].
    + eexists; split; [reflexivity | discriminate].
  - eexists; split; [reflexivity | discriminate].
Qed.

Lemma take_distractors_spec block :
  exists ds,
    for_each (enumerate distractor_keys) (take_distractor block) [] = Ok ds
    /\ (forallb (fun key => negb (contains key block)) distractor_keys = true
        -> ds = []).
Proof.
  unfold enumerate, distractor_keys; cbn [List.length seq combine for_each].
  destruct (take_distractor_spec block [] 0 "D" "ISTRACTOR1:") as (d1 & -> & H1).
  cbn [bind].
  destruct (take_distractor_spec block d1 1 "D" "ISTRACTOR2:") as (d2 & -> & H2).
  cbn [bind].
  destruct (take_distractor_spec block d2 2 "D" "ISTRACTOR3:") as (d3 & -> & H3).
  cbn [bind].
  exists d3; split; [reflexivity|].
  cbn [forallb]; intros H.
  apply andb_true_iff in H as [K1 H]; apply andb_true_iff in H as [K2 H].
  apply andb_true_iff in H as [K3 _].
  apply negb_true_iff in K1, K2, K3.
  rewrite (H3 K3), (H2 K2), (H1 K1); reflexivity.
Qed.

Lemma assign_metadata_spec seq j :
  assign_metadata seq (Nat.min j (List.length seq))
  = (fst (pair_at seq j), snd (pair_at seq j),
     Nat.min (S j) (List.length seq)).
Proof.
  unfold assign_metadata, pair_at.
  destruct (Nat.lt_ge_cases j (List.length seq)) as [Hlt|Hge].
  - rewrite Nat.min_l by lia.
    destruct (nth_error seq j) as [[d bl]|] eqn:E.
    + rewrite (nth_error_nth _ _ _ E); cbn [fst snd]; f_equal; lia.
    + apply nth_error_None in E; lia.
  - rewrite Nat.min_r by lia.
    destruct (nth_error seq (List.length seq)) as [p|] eqn:E.
    + assert (List.length seq < List.length seq)%nat; [|lia].
      apply nth_error_Some; congruence.
    + rewrite nth_overflow by lia; cbn [fst snd]; f_equal; lia.
Qed.

(** The MCQ loop body never fails; it names the record [uid], gives it the
    metadata of its position, and leaves empty what the block lacks. *)
Lemma mcq_block_spec seq uid j block :
  exists q,
    mcq_block seq uid (Nat.min j (List.length seq)) block
    = Ok (q, Nat.min (S j) (List.length seq))
    /\ pair_of_mcq q = pair_at seq j
    /\ mcq_question_id q = uid
    /\ lenient_fields block q.
Proof.
  unfold mcq_block.
  destruct (take_question_spec block) as (qn & b1 & -> & (a1 & c1 & Hb1) & Hq).
  cbn [bind].
  destruct (take_answer_spec b1) as (ans & b2 & -> & (a2 & c2 & Hb2) & Ha).
  cbn [bind].
  destruct (take_mcq_explanation_spec b2) as (ex & -> & He).
  cbn [bind].
  destruct (take_distractors_spec b2) as (ds & -> & Hd).
  cbn [bind].
  rewrite assign_metadata_spec.
  eexists; split; [reflexivity|].
  unfold pair_of_mcq, lenient_fields; cbn.
  split; [destruct (pair_at seq j); reflexivity|].
  split; [reflexivity|].
  assert (S1 : forall k, contains k block = false -> contains k b1 = false).
  { intros k Hk; rewrite Hb1 in Hk; exact (contains_part_false _ _ _ _ Hk). }
  assert (S2 : forall k, contains k b1 = false -> contains k b2 = false).
  { intros k Hk; rewrite Hb2 in Hk; exact (contains_part_false _ _ _ _ Hk). }
  repeat split.
  - intros Hk. apply He.
    destruct (Ha (or_intror (S1 _ Hk))) as [_ ->]; apply S1; assumption.
  - intros Hk; apply Ha; left; apply S1; assumption.
  - intros Hk; apply Hd.
    unfold distractor_keys in *; cbn [forallb] in *.
    apply andb_true_iff in Hk as [K1 Hk]; apply andb_true_iff in Hk as [K2 Hk].
    apply andb_true_iff in Hk as [K3 _].
    apply negb_true_iff in K1, K2, K3.
    rewrite (S2 _ (S1 _ K1)), (S2 _ (S1 _ K2)), (S2 _ (S1 _ K3)); reflexivity.
Qed.

Section ParseBlocks.
Context {Q : Type}.
Variable uuid4 : nat -> string.
Variable body : string -> nat -> string -> result (Q * nat).
Variable seq : list (string * string).
Variable meta : Q -> string * string.
Variable R : string -> nat -> string -> Q -> Prop.

Hypothesis body_spec : forall uid j block,
  exists q, body uid (Nat.min j (List.length seq)) block
            = Ok (q, Nat.min (S j) (List.length seq))
            /\ meta q = pair_at seq j /\ R uid j block q.

Lemma parse_blocks_from blocks : forall qs0 j,
  exists qs,
    for_each blocks (parse_step uuid4 body)
    (qs0, Nat.min j (List.length seq), j)
    = Ok ((qs0 ++ qs)%list,
          Nat.min (j + List.length blocks) (List.length seq),
          (j + List.length blocks)%nat)
    /\ List.length qs = List.length blocks
    /\ forall i block, nth_error blocks i = Some block ->
         exists q, nth_error qs i = Some q
                   /\ meta q = pair_at seq (j + i)
                   /\ R (uuid4 (j + i)) (j + i)%nat block q.
Proof.
  induction blocks as [|b bs IH]; intros qs0 j.
  - exists []; rewrite app_nil_r, Nat.add_0_r; repeat split.
    intros [|i] block H; discriminate.
  - destruct (body_spec (uuid4 j) j b) as (q & Hq & Hm & HR).
    destruct (IH (qs0 ++ [q])%list (S j)) as (qs & Hqs & Hlen & Hall).
    exists (q :: qs); repeat split.
    + cbn [for_each parse_step]; rewrite Hq; cbn [bind validate].
      rewrite Hqs, <- app_assoc; cbn [app List.length].
      rewrite Nat.add_succ_r; reflexivity.
    + simpl; congruence.
    + intros [|i] block H; simpl in H.
      * injection H as <-; exists q; rewrite Nat.add_0_r; auto.
      * destruct (Hall i block H) as (q' & ? & ? & ?).
        exists q'; rewrite Nat.add_succ_r; auto.
Qed.

(** The loop of the parsers never fails; it yields one record per block,
    and the record of the [i]-th block has the pair at position [i]. *)
Lemma parse_blocks_spec blocks :
  exists qs,
    parse_blocks uuid4 body blocks = Ok qs
    /\ List.length qs = List.length blocks
    /\ forall i block, nth_error blocks i = Some block ->
         exists q, nth_error qs i = Some q
                   /\ meta q = pair_at seq i /\ R (uuid4 i) i block q.
Proof.
  destruct (parse_blocks_from blocks [] 0) as (qs & H & Hlen & Hall).
  exists qs; split; [|split; assumption].
  change (parse_blocks uuid4 body blocks)
    with ('(questions, _, _) <-
            for_each blocks (parse_step uuid4 body)
              ([], Nat.min 0 (List.length seq), O) ;;
          Ok questions).
  rewrite H; reflexivity.
Qed.
End ParseBlocks.

(** The MCQ parser, block by block. *)
Lemma parse_mcq_response_spec uuid4 response_text question_breakdown :
  exists records,
    parse_mcq_response uuid4 response_text question_breakdown = Ok records
    /\ List.length records
       = List.length (surviving_blocks "QUESTION:" response_text)
    /\ forall i block,
         nth_error (surviving_blocks "QUESTION:" response_text) i = Some block ->
         exists q, nth_error records i = Some q
                   /\ pair_of_mcq q
                      = pair_at (create_question_sequence question_breakdown) i
                   /\ mcq_block (create_question_sequence question_breakdown)
                        (uuid4 i)
                        (Nat.min i (List.length
                                      (create_question_sequence
                                         question_breakdown))) block
                      = Ok (q, Nat.min (S i)
                                 (List.length
                                    (create_question_sequence
                                       question_breakdown)))
                   /\ lenient_fields block q.
Proof.
  unfold parse_mcq_response.
  apply (parse_blocks_spec uuid4 _ (create_question_sequence question_breakdown)
           pair_of_mcq
           (fun uid j block q =>
              mcq_block (create_question_sequence question_breakdown) uid
                (Nat.min j (List.length
                              (create_question_sequence question_breakdown)))
                block
              = Ok (q, Nat.min (S j)
                         (List.length
                            (create_question_sequence question_breakdown)))
              /\ lenient_fields block q)).
  intros uid j block.
  destruct (mcq_block_spec (create_question_sequence question_breakdown)
              uid j block) as (q & H1 & H2 & H3 & H4).
  exists q; auto.
Qed.

(* ================================================================== *)
(** * Pipelines and the orchestrator *)
(* ================================================================== *)

(** A generator whose parser returns no record raises. *)
Lemma generate_nothing_parsed w tag parse msg chapter_name content_id
    learning_objectives num dd bd chapter_content max_chunks max_chars
    breakdown response :
  truthy chapter_content = true ->
  calculate_question_distribution num [(tag, one)] dd bd = Ok breakdown ->
  stream_complete w (mk_prompt tag chapter_content num breakdown dd bd)
  = Ok response ->
  parse response breakdown = Ok [] ->
  generate w tag parse msg chapter_name content_id learning_objectives num
    dd bd (Some chapter_content) max_chunks max_chars
  = Raise (mk_exn ValueError msg).
Proof.
  intros Hc Hb Hs Hp; unfold generate; cbn [bind].
  rewrite Hc; cbn [negb]; rewrite Hb; cbn [bind].
  unfold generate_completion; rewrite Hs; cbn [bind].
  rewrite Hp; reflexivity.
Qed.

Lemma generate_no_content w tag parse msg chapter_name content_id
    learning_objectives num dd bd chapter_content max_chunks max_chars :
  truthy chapter_content = false ->
  generate w tag parse msg chapter_name content_id learning_objectives num
    dd bd (Some chapter_content) max_chunks max_chars
  = Raise (mk_exn ValueError (no_content_message chapter_name content_id)).
Proof.
  intros Hc; unfold generate; cbn [bind]; rewrite Hc; reflexivity.
Qed.

Lemma generate_allocation_error w tag parse msg chapter_name content_id
    learning_objectives num dd bd chapter_content max_chunks max_chars e :
  truthy chapter_content = true ->
  calculate_question_distribution num [(tag, one)] dd bd = Raise e ->
  generate w tag parse msg chapter_name content_id learning_objectives num
    dd bd (Some chapter_content) max_chunks max_chars
  = Raise e.
Proof.
  intros Hc Hb; unfold generate; cbn [bind]; rewrite Hc; cbn [negb].
  rewrite Hb; reflexivity.
Qed.

Lemma generate_completion_error w tag parse msg chapter_name content_id
    learning_objectives num dd bd chapter_content max_chunks max_chars
    breakdown e :
  truthy chapter_content = true ->
  calculate_question_distribution num [(tag, one)] dd bd = Ok breakdown ->
  stream_complete w (mk_prompt tag chapter_content num breakdown dd bd)
  = Raise e ->
  generate w tag parse msg chapter_name content_id learning_objectives num
    dd bd (Some chapter_content) max_chunks max_chars
  = Raise (mk_exn ExceptionOther ("LLM completion error: " ++ exn_msg e)).
Proof.
  intros Hc Hb Hs; unfold generate; cbn [bind].
  rewrite Hc; cbn [negb]; rewrite Hb; cbn [bind].
  unfold generate_completion; rewrite Hs; reflexivity.
Qed.

(** For a known type, the body of the pipeline is the generator of that
    type followed by the packing of its result. *)
Lemma single_question_type_body_known w qt configs chapter_content
    chapter_name content_id learning_objectives dd bd max_chunks max_chars :
  In qt known_types ->
  single_question_type_body w qt configs chapter_content chapter_name
    content_id learning_objectives dd bd max_chunks max_chars
  = (result <- generate w qt (type_parser w qt) (nothing_parsed qt)
                 chapter_name content_id learning_objectives
                 (total_for_type configs) dd bd (Some chapter_content)
                 (Some max_chunks) (Some max_chars) ;;
     Ok (mk_pipeline qt (Some (md_filename (gen_metadata result)))
           (Some (gen_response result)) None)).
Proof.
  intros [<-|[<-|[<-|[]]]]; reflexivity.
Qed.

Lemma single_question_type_body_unknown w qt configs chapter_content
    chapter_name content_id learning_objectives dd bd max_chunks max_chars :
  ~ In qt known_types ->
  single_question_type_body w qt configs chapter_content chapter_name
    content_id learning_objectives dd bd max_chunks max_chars
  = Raise (mk_exn ValueError ("Unknown question type: " ++ qt)).
Proof.
  intros H; unfold single_question_type_body.
  destruct (String.eqb_spec qt "mcq") as [->|_];
    [exfalso; apply H; left; reflexivity|].
  destruct (String.eqb_spec qt "fib") as [->|_];
    [exfalso; apply H; right; left; reflexivity|].
  destruct (String.eqb_spec qt "tf") as [->|_];
    [exfalso; apply H; right; right; left; reflexivity|].
  reflexivity.
Qed.

Lemma parallel_results_are_values w type_groups chapter_content request results :
  _generate_questions_parallel w type_groups chapter_content request
  = Ok results ->
  forall x, In x results -> exists r, x = inr r.
Proof.
  unfold _generate_questions_parallel; intros H.
  apply bind_ok_inv in H as (futures & _ & H); injection H as <-.
  intros x Hx; apply in_map_iff in Hx as (r & <- & _); eauto.
Qed.


(* ================================================================== *)
(** * The sequence builder and the per-type allocation *)
(* ================================================================== *)

Lemma append_repeat {A} (p : A) (n : nat) (idx : list nat) (acc : list A) :
  List.length idx = n ->
  fold_left (fun sequence (_ : nat) => (sequence ++ [p])%list) idx acc
  = (acc ++ repeat p n)%list.
Proof.
  revert n acc; induction idx as [|i idx IH]; intros n acc <-; simpl.
  - rewrite app_nil_r; reflexivity.
  - rewrite (IH (List.length idx)) by reflexivity.
    rewrite <- app_assoc; reflexivity.
Qed.

Lemma create_question_sequence_from question_breakdown acc :
  fold_left
    (fun sequence '(combo_key, specs) =>
       fold_left
         (fun sequence (_ : nat) =>
            (sequence ++ [(difficulty specs, blooms_level specs)])%list)
         (seq 0 (Z.to_nat (count specs))) sequence)
    question_breakdown acc
  = (acc ++ repeated_pairs question_breakdown)%list.
Proof.
  unfold repeated_pairs.
  revert acc; induction question_breakdown as [|[k e] l IH]; intros acc; simpl.
  - rewrite app_nil_r; reflexivity.
  - rewrite IH, (append_repeat _ (Z.to_nat (count e))) by apply length_seq.
    rewrite <- app_assoc; reflexivity.
Qed.

(** The sequence builder does what its contract says. *)
Lemma create_question_sequence_repeated question_breakdown :
  create_question_sequence question_breakdown
  = repeated_pairs question_breakdown.
Proof. apply (create_question_sequence_from question_breakdown []). Qed.

Lemma dict_get_adjust {V} (f : V -> V) (k k' : string) (d : dict V) :
  dict_get k (dict_adjust f k' d)
  = if String.eqb k k' then option_map f (dict_get k d) else dict_get k d.
Proof.
  induction d as [|[k0 v0] d IH]; simpl.
  - destruct (String.eqb k k'); reflexivity.
  - destruct (String.eqb_spec k' k0) as [->|Hne]; simpl.
    + destruct (String.eqb_spec k k0); reflexivity.
    + destruct (String.eqb_spec k k0) as [->|Hk].
      * destruct (String.eqb_spec k0 k'); [congruence | reflexivity].
      * assumption.
Qed.

(** Grouping collects, per type, the entries of that type in order. *)
Lemma group_get qt question_dist groups0 :
  dict_get qt
    (fold_left
       (fun type_groups '(key, config) =>
          let q_type := question_type config in
          let type_groups :=
            if negb (dict_mem q_type type_groups)
            then dict_set q_type [] type_groups else type_groups in
          dict_adjust (fun l => (l ++ [config])%list) q_type type_groups)
       question_dist groups0)
  = match dict_get qt groups0 with
    | Some l0 =>
        Some (l0 ++ map snd (restrict_to_type qt question_dist))%list
    | None =>
        match map snd (restrict_to_type qt question_dist) with
        | [] => None
        | l => Some l
        end
    end.
Proof.
  revert groups0; induction question_dist as [|[key config] dist IH];
    intros groups0; simpl.
  - destruct (dict_get qt groups0); [rewrite app_nil_r|]; reflexivity.
  - rewrite IH, dict_get_adjust.
    destruct (String.eqb_spec (question_type config) qt) as [E|E].
    + rewrite <- E, String.eqb_refl; unfold dict_mem.
      destruct (dict_get (question_type config) groups0) as [l0|] eqn:G;
        simpl.
      * rewrite G; simpl; rewrite <- app_assoc; reflexivity.
      * rewrite dict_get_set_same; reflexivity.
    + destruct (String.eqb_spec qt (question_type config)); [congruence|].
      destruct (negb (dict_mem (question_type config) groups0));
        [rewrite dict_get_set_other by assumption|]; reflexivity.
Qed.

Lemma float_eqb_eq x y : float_eqb x y = true -> x = y.
Proof.
  destruct x, y; simpl; try discriminate; try reflexivity.
  - intros H; apply Bool.eqb_prop in H; congruence.
  - intros H; apply Bool.eqb_prop in H; congruence.
  - intros H; apply andb_true_iff in H as [H He].
    apply andb_true_iff in H as [Hs Hm].
    apply Bool.eqb_prop in Hs; apply Pos.eqb_eq in Hm; apply Z.eqb_eq in He.
    congruence.
Qed.

Lemma single_entry_facts n :
  1 <= n <= 100 ->
  int_truediv n n = Ok one
  /\ exists f z, exact_count_of n one one one = Ok f
                 /\ int_of_float f = Ok n /\ float_sub_int f n = Ok z.
Proof.
  intros Hn.
  assert (H : (n =? 0) || single_entry_check n = true).
  { revert n Hn.
    assert (G : forall n, 0 <= n <= 100 -> (n =? 0) || single_entry_check n = true)
      by (apply up_to_hundred_check; vm_compute; reflexivity).
    intros n Hn; apply G; lia. }
  destruct (Z.eqb_spec n 0); [lia|]; simpl in H.
  unfold single_entry_check in H.
  destruct (int_truediv n n) as [x|]; [|discriminate].
  destruct (exact_count_of n one one one) as [f|]; [|discriminate].
  apply andb_true_iff in H as [H Hz]; apply andb_true_iff in H as [Hx Hc].
  apply float_eqb_eq in Hx; subst x; split; [reflexivity|].
  destruct (int_of_float f) as [c|] eqn:Ec; [|discriminate].
  apply Z.eqb_eq in Hc; subst c.
  destruct (float_sub_int f n) as [z|] eqn:Ez; [|discriminate].
  exists f, z; repeat split; assumption.
Qed.

(** A type whose restriction is one entry of [n] questions is handed the
    proportions [{difficulty: 1.0}] and [{level: 1.0}], and its generator
    allocates all [n] questions to that one combination. *)
Lemma generator_breakdown_single qt d b n :
  1 <= n <= 100 ->
  generator_breakdown qt [mk_alloc qt d b n]
  = Ok [(combo_key qt d b, mk_alloc qt d b n)].
Proof.
  intros Hn; destruct (single_entry_facts n Hn) as (Hdiv & f & z & Hf & Hi & Hz).
  unfold generator_breakdown, type_distributions, total_for_type.
  cbn [for_each map sum_Z fold_right count difficulty blooms_level].
  rewrite Z.add_0_r, Hdiv; cbn [bind dict_mem dict_get negb dict_set dict_adjust].
  rewrite !String.eqb_refl.
  change (fadd zero one) with one. cbn [bind].
  assert (Htbl : fractional_distribution n [(qt, one)] [(d, one)] [(b, one)]
                 = Ok [(combo_key qt d b, mk_frac qt d b f n)]).
  { unfold fractional_distribution; cbn [for_each]; rewrite Hf; cbn [bind].
    rewrite Hi; reflexivity. }
  assert (Hsk : sorted_keys_of [(combo_key qt d b, mk_frac qt d b f n)]
                = Ok [combo_key qt d b]).
  { unfold sorted_keys_of, sort_key, fractional_part.
    cbn [dict_keys map fst map_result dict_get].
    rewrite String.eqb_refl; cbn [fe_exact_count fe_count].
    rewrite Hz; reflexivity. }
  rewrite (calculate_of_table _ _ _ _ _
             (allocation_table_intro _ _ _ _ _ _ Htbl Hsk)).
  unfold table_total; cbn [dict_values map snd sum_Z fold_right fe_count].
  replace (n - (n + 0)) with 0 by lia.
  cbn [Z.to_nat firstn]; rewrite bump_nil.
  unfold clean_distribution; cbn [fold_left fe_count].
  destruct (Z.gtb_spec n 0); [reflexivity | lia].
Qed.


(* ================================================================== *)
(** * The returned allocation, entry by entry *)
(* ================================================================== *)

Lemma nodup_keys_filter {V} (f : string * V -> bool) (d : dict V) :
  NoDup (dict_keys d) -> NoDup (dict_keys (filter f d)).
Proof.
  unfold dict_keys; induction d as [|[k v] d IH]; simpl; intros H.
  - constructor.
  - inversion H as [|? ? Hn Hd]; subst.
    destruct (f (k, v)); simpl; [constructor|]; auto.
    intros Hin; apply Hn.
    apply in_map_iff in Hin as ([k' v'] & <- & Hin).
    apply filter_In in Hin as [Hin _].
    apply in_map_iff; exists (k', v'); auto.
Qed.

Lemma stored_entry_labels total q qr d dr b br e :
  stored_entry total ((q, qr), (d, dr), (b, br)) = Ok e ->
  fe_question_type e = q /\ fe_difficulty e = d /\ fe_blooms_level e = b.
Proof.
  unfold stored_entry; intros H.
  apply bind_ok_inv in H as (x & _ & H).
  apply bind_ok_inv in H as (n & _ & H).
  injection H as <-; auto.
Qed.

(** What every entry of a returned allocation satisfies. *)
Lemma allocation_entry_facts total qd dd bd alloc :
  calculate_question_distribution total qd dd bd = Ok alloc ->
  NoDup (dict_keys alloc)
  /\ forall k a, In (k, a) alloc ->
       1 <= count a
       /\ k = combo_key (question_type a) (difficulty a) (blooms_level a)
       /\ In (question_type a) (dict_keys qd)
       /\ In (difficulty a) (dict_keys dd)
       /\ In (blooms_level a) (dict_keys bd).
Proof.
  unfold calculate_question_distribution; intros H.
  apply bind_ok_inv in H as (tbl' & Ht & H); injection H as <-.
  destruct (allocation_table_inv _ _ _ _ _ Ht) as (tbl & sk & Hf & _ & ->).
  assert (Hnd : NoDup (dict_keys tbl))
    by exact (fractional_distribution_nodup _ _ _ _ _ Hf).
  assert (Hnd' : NoDup (dict_keys (bump (firstn (Z.to_nat (total - table_total tbl)) sk) tbl)))
    by (rewrite dict_keys_bump; exact Hnd).
  rewrite (clean_distribution_filter _ Hnd').
  split.
  - unfold dict_keys; rewrite map_map.
    erewrite map_ext; [apply (nodup_keys_filter _ _ Hnd')|].
    intros [k e]; reflexivity.
  - intros k a Hin.
    apply in_map_iff in Hin as ([k' e'] & Heq & Hin); injection Heq as -> <-.
    apply filter_In in Hin as [Hin Hpos].
    apply in_bump in Hin as (e & Hin & He).
    destruct (fractional_distribution_entries _ _ _ _ _ _ _ Hf Hin)
      as ([[[q qr] [d dr]] [b br]] & Hc & Hk & Hs).
    destruct (stored_entry_labels _ _ _ _ _ _ _ _ Hs) as (Eq & Ed & Eb).
    apply cross_product_in in Hc as (Iq & Id & Ib).
    assert (Hl : fe_question_type e' = q /\ fe_difficulty e' = d
                 /\ fe_blooms_level e' = b)
      by (destruct He as [-> | ->]; simpl; auto).
    destruct Hl as (Lq & Ld & Lb).
    unfold to_alloc; simpl; rewrite Lq, Ld, Lb.
    repeat split.
    + apply Z.gtb_lt in Hpos; lia.
    + symmetry; exact Hk.
    + apply in_map_iff; exists (q, qr); auto.
    + apply in_map_iff; exists (d, dr); auto.
    + apply in_map_iff; exists (b, br); auto.
Qed.

Lemma cross_product_empty qd dd bd :
  qd = [] \/ dd = [] \/ bd = [] -> cross_product qd dd bd = [].
Proof.
  unfold cross_product; intros [-> | [-> | ->]]; [reflexivity| |].
  - induction qd; simpl; auto.
  - assert (Hin : forall q : string * float,
              flat_map (fun d : string * float =>
                          map (fun b : string * float => (q, d, b)) []) dd
              = []) by (intros q; induction dd; simpl; auto).
    induction qd as [|q qd IH]; cbn [flat_map]; [reflexivity|].
    rewrite IH, Hin; reflexivity.
Qed.

Lemma calculate_of_empty_table total qd dd bd :
  fractional_distribution total qd dd bd = Ok [] ->
  calculate_question_distribution total qd dd bd = Ok [].
Proof.
  intros Hf.
  assert (Hsk : sorted_keys_of [] = Ok []) by reflexivity.
  rewrite (calculate_of_table _ _ _ _ _
             (allocation_table_intro _ _ _ _ _ _ Hf Hsk)).
  rewrite firstn_nil; reflexivity.
Qed.

Lemma for_each_all_ok {A S} (l : list A) (body : S -> A -> result S) :
  (forall s a, In a l -> exists s', body s a = Ok s') ->
  forall s, exists s', for_each l body s = Ok s'.
Proof.
  induction l as [|a l IH]; simpl; intros H s; [eauto|].
  destruct (H s a (or_introl eq_refl)) as (s1 & ->); cbn [bind].
  apply IH; intros; apply H; auto.
Qed.

Lemma fmul_zero_finite x y :
  is_zero x = true -> is_finite y = true -> is_zero (fmul x y) = true.
Proof. destruct x, y; try discriminate; reflexivity. Qed.

Lemma zero_total_exact c :
  (let '((_, qr), (_, dr), (_, br)) := c in
   is_finite qr = true /\ is_finite dr = true /\ is_finite br = true) ->
  exists x, exact_of 0 c = Ok x /\ is_zero x = true.
Proof.
  destruct c as [[[q qr] [d dr]] [b br]]; intros (Hq & Hd & Hb).
  unfold exact_of, exact_count_of, int_mul_float.
  change (float_of_int 0) with (Ok (S754_zero false)); cbn [bind].
  eexists; split; [reflexivity|].
  assert (Z1 : is_zero (fmul (S754_zero false) qr) = true)
    by (apply fmul_zero_finite; auto).
  assert (Z2 : is_zero (fmul (fmul (S754_zero false) qr) dr) = true)
    by (apply fmul_zero_finite; auto).
  apply fmul_zero_finite; auto.
Qed.

Lemma cross_product_finite qd dd bd c :
  finite_weights qd = true -> finite_weights dd = true ->
  finite_weights bd = true -> In c (cross_product qd dd bd) ->
  let '((_, qr), (_, dr), (_, br)) := c in
  is_finite qr = true /\ is_finite dr = true /\ is_finite br = true.
Proof.
  unfold finite_weights; rewrite !forallb_forall; intros Hq Hd Hb Hc.
  destruct c as [[[q qr] [d dr]] [b br]].
  apply cross_product_in in Hc as (Iq & Id & Ib).
  repeat split; [apply (Hq _ Iq) | apply (Hd _ Id) | apply (Hb _ Ib)].
Qed.

Lemma zero_total_stored c :
  (let '((_, qr), (_, dr), (_, br)) := c in
   is_finite qr = true /\ is_finite dr = true /\ is_finite br = true) ->
  exists e, stored_entry 0 c = Ok e
            /\ is_zero (fe_exact_count e) = true /\ fe_count e = 0.
Proof.
  intros H; destruct (zero_total_exact c H) as (x & Hx & Hz).
  destruct c as [[[q qr] [d dr]] [b br]].
  unfold stored_entry; rewrite Hx; cbn [bind].
  destruct x; try discriminate; cbn [int_of_float bind].
  eexists; split; [reflexivity|]; auto.
Qed.

(** The length of the sequence built from non-negative counts. *)
Lemma repeated_pairs_length question_breakdown :
  (forall k a, In (k, a) question_breakdown -> 0 <= count a) ->
  List.length (repeated_pairs question_breakdown)
  = Z.to_nat (allocated question_breakdown).
Proof.
  unfold repeated_pairs, allocated, dict_values.
  induction question_breakdown as [|[k a] l IH]; intros H; [reflexivity|].
  cbn [flat_map map snd sum_Z fold_right].
  rewrite length_app, repeat_length, IH by (intros; eapply H; right; eauto).
  assert (0 <= count a) by (eapply H; left; reflexivity).
  assert (0 <= sum_Z (map count (map snd l))).
  { clear IH; induction l as [|[k' a'] l IHl]; simpl; [lia|].
    assert (0 <= count a') by (eapply H; right; left; reflexivity).
    assert (0 <= sum_Z (map count (map snd l))); [|unfold sum_Z in *; lia].
    apply IHl; intros k0 a0 [E|Hin]; [eapply H; left; exact E|].
    eapply H; right; right; exact Hin. }
  unfold sum_Z in *; lia.
Qed.

Lemma repeated_pairs_in question_breakdown p :
  In p (repeated_pairs question_breakdown)
  <-> exists k a, In (k, a) question_breakdown
                  /\ p = (difficulty a, blooms_level a) /\ 1 <= count a.
Proof.
  unfold repeated_pairs; rewrite in_flat_map; split.
  - intros ([k a] & Hin & Hp).
    assert (E := repeat_spec _ _ _ Hp).
    exists k, a; repeat split; auto.
    destruct (Z.to_nat (count a)) eqn:En; [destruct Hp | lia].
  - intros (k & a & Hin & -> & Hc).
    exists (k, a); split; [exact Hin|].
    destruct (Z.to_nat (count a)) eqn:En; [lia | left; reflexivity].
Qed.

(* ================================================================== *)
(** * File names *)
(* ================================================================== *)

Lemma map_result_raise {A B} (f : A -> result B) (l : list A) (e : exn) :
  map_result f l = Raise e -> exists a, In a l /\ f a = Raise e.
Proof.
  induction l as [|a l IH]; simpl; [discriminate|].
  destruct (f a) as [b|e'] eqn:Ea; cbn [bind].
  - destruct (map_result f l) as [bs|e'']; cbn [bind]; [discriminate|].
    intros H; injection H as ->.
    destruct IH as (a' & Hin & Ha'); eauto.
  - intros H; injection H as ->; eauto.
Qed.

Lemma contains_single c s : contains (String c "") s = has_char c s.
Proof.
  unfold contains; induction s as [|x s IH]; [reflexivity|].
  cbn [find_sub strip_prefix has_char].
  destruct (Ascii.eqb c x); [reflexivity|]; cbn [orb].
  rewrite <- IH; destruct (find_sub (String c "") s) as [[a b]|]; reflexivity.
Qed.

Lemma has_char_app c a b : has_char c (a ++ b) = has_char c a || has_char c b.
Proof.
  induction a as [|x a IH]; simpl; [reflexivity|].
  rewrite IH, orb_assoc; reflexivity.
Qed.

Lemma has_char_replaced old new s :
  old <> new -> has_char old (replace_char old (String new "") s) = false.
Proof.
  intros Hne; induction s as [|x s IH]; [reflexivity|].
  cbn [replace_char]; rewrite has_char_app, IH, orb_false_r.
  destruct (Ascii.eqb x old) eqn:E; cbn [has_char]; rewrite orb_false_r.
  - apply Ascii.eqb_neq; exact Hne.
  - rewrite Ascii.eqb_sym; exact E.
Qed.

Lemma has_char_kept c old new s :
  c <> new -> has_char c s = false ->
  has_char c (replace_char old (String new "") s) = false.
Proof.
  intros Hne; induction s as [|x s IH]; [reflexivity|].
  cbn [has_char replace_char]; intros H.
  apply orb_false_iff in H as [Hx Hs].
  rewrite has_char_app, (IH Hs), orb_false_r.
  destruct (Ascii.eqb x old); cbn [has_char]; rewrite orb_false_r.
  - apply Ascii.eqb_neq; exact Hne.
  - exact Hx.
Qed.

Lemma replace_char_length old new s :
  String.length (replace_char old (String new "") s) = String.length s.
Proof.
  induction s as [|x s IH]; [reflexivity|].
  cbn [replace_char]; rewrite length_append.
  destruct (Ascii.eqb x old); simpl; rewrite IH; reflexivity.
Qed.

Lemma replace_char_absent old new s :
  has_char old s = false -> replace_char old new s = s.
Proof.
  induction s as [|x s IH]; [reflexivity|].
  cbn [has_char replace_char]; intros H.
  apply orb_false_iff in H as [Hx Hs].
  rewrite Ascii.eqb_sym, Hx, (IH Hs); reflexivity.
Qed.

Lemma clean_chapter_name_facts chapter_name :
  String.length (clean_chapter_name chapter_name) = String.length chapter_name
  /\ contains " " (clean_chapter_name chapter_name) = false
  /\ contains "/" (clean_chapter_name chapter_name) = false
  /\ (contains " " chapter_name = false -> contains "/" chapter_name = false ->
      clean_chapter_name chapter_name = chapter_name).
Proof.
  unfold clean_chapter_name; rewrite !contains_single.
  repeat split.
  - rewrite !replace_char_length; reflexivity.
  - apply has_char_kept; [discriminate|].
    apply has_char_replaced; discriminate.
  - apply has_char_replaced; discriminate.
  - intros Hs Hl.
    rewrite (replace_char_absent " " "_" chapter_name Hs).
    apply replace_char_absent; exact Hl.
Qed.

Lemma distribution_str_raise dist e :
  distribution_str dist = Raise e ->
  exists label prop, In (label, prop) dist
                     /\ int_of_float (fmul prop hundred) = Raise e.
Proof.
  unfold distribution_str; intros H.
  destruct (map_result _ dist) as [parts|e'] eqn:E; [discriminate|].
  injection H as ->.
  apply map_result_raise in E as ([label prop] & Hin & Hf).
  exists label, prop; split; [exact Hin|].
  destruct (int_of_float (fmul prop hundred)); cbn [bind] in Hf; [discriminate | injection Hf as ->; reflexivity].
Qed.

Lemma distribution_str_ok dist :
  finite_percent dist = true -> exists s, distribution_str dist = Ok s.
Proof.
  unfold finite_percent, distribution_str; rewrite forallb_forall; intros H.
  destruct (map_result_all_ok
              (fun '(label, prop) =>
                 n <- int_of_float (fmul prop hundred) ;;
                 Ok (label ++ str_of_int n)) dist) as (parts & ->).
  - intros [label prop] Hin; specialize (H _ Hin); cbn in H.
    destruct (fmul prop hundred); try discriminate; cbn; eauto.
  - cbn [bind]; eauto.
Qed.

Lemma generate_filename_cases chapter_name dd bd qt lo :
  match generate_filename chapter_name dd bd qt lo with
  | Ok name =>
      exists d b,
        distribution_str dd = Ok d /\ distribution_str bd = Ok b
        /\ name = clean_chapter_name chapter_name ++ "_" ++ d ++ "_" ++ b
                  ++ objectives_part lo ++ "_" ++ suffix_of qt ++ ".json"
  | Raise e =>
      exists label prop,
        In (label, prop) (dd ++ bd)%list
        /\ int_of_float (fmul prop hundred) = Raise e
  end.
Proof.
  unfold generate_filename.
  fold (clean_chapter_name chapter_name).
  destruct (distribution_str dd) as [d|e] eqn:Ed; cbn [bind].
  2:{ destruct (distribution_str_raise _ _ Ed) as (l & p & Hin & H).
      exists l, p; split; [apply in_or_app; left|]; assumption. }
  destruct (distribution_str bd) as [b|e] eqn:Eb; cbn [bind].
  2:{ destruct (distribution_str_raise _ _ Eb) as (l & p & Hin & H).
      exists l, p; split; [apply in_or_app; right|]; assumption. }
  exists d, b; repeat split.
  unfold objectives_part; destruct (objectives_truthy lo);
    cbn [join app]; rewrite ?append_assoc; reflexivity.
Qed.

(* ================================================================== *)
(** * The true/false and fill-in-blank parsers *)
(* ================================================================== *)

Lemma take_explanation_spec block :
  exists e, take_explanation block = Ok e
            /\ (contains "EXPLANATION:" block = false -> e = "").
Proof.
  unfold take_explanation.
  destruct (contains "EXPLANATION:" block) eqn:E; [|eauto].
  destruct (split_second "E" "XPLANATION:" block E) as (_ & x & _ & -> & _).
  cbn [bind]; eexists; split; [reflexivity | discriminate].
Qed.

Lemma take_tf_answer_spec block :
  exists ans, take_tf_answer block = Ok ans
              /\ (contains "ANSWER:" block = false -> ans = "").
Proof.
  unfold take_tf_answer.
  destruct (contains "ANSWER:" block) eqn:E1; cbn [andb]; [|eauto].
  destruct (split_second "A" "NSWER:" block E1) as (_ & x & _ & -> & _).
  destruct (contains "EXPLANATION:" block); cbn [bind].
  - destruct (split_first "EXPLANATION:" x) as (a0 & ->); cbn [bind].
    eexists; split; [reflexivity | discriminate].
  - eexists; split; [reflexivity | discriminate].
Qed.

(** The true/false loop body never fails. *)
Lemma tf_block_spec seq uid j block :
  exists q,
    tf_block seq uid (Nat.min j (List.length seq)) block
    = Ok (q, Nat.min (S j) (List.length seq))
    /\ pair_of_tf q = pair_at seq j
    /\ tf_question_id q = uid
    /\ tf_question_type q = "tf"
    /\ lenient_tf_fields block q.
Proof.
  unfold tf_block.
  destruct (take_question_spec block) as (st & b1 & -> & (a1 & c1 & Hb1) & Hq).
  cbn [bind].
  destruct (take_tf_answer_spec b1) as (ans & -> & Ha); cbn [bind].
  destruct (take_explanation_spec b1) as (ex & -> & He); cbn [bind].
  rewrite assign_metadata_spec.
  eexists; split; [reflexivity|].
  unfold pair_of_tf, lenient_tf_fields; cbn.
  split; [destruct (pair_at seq j); reflexivity|].
  split; [reflexivity|]; split; [reflexivity|].
  assert (S1 : forall k, contains k block = false -> contains k b1 = false).
  { intros k Hk; rewrite Hb1 in Hk; exact (contains_part_false _ _ _ _ Hk). }
  repeat split.
  - destruct (Hq H) as [E _]; exact E.
  - apply Ha, S1, H.
  - intros Hk; apply He, S1, Hk.
Qed.

Lemma split_max_one c sep s a b :
  find_sub (String c sep) s = Some (a, b) ->
  split_max (String c sep) 1 s = [a; b].
Proof.
  intros E; unfold split_max.
  destruct s as [|x s]; [destruct a; discriminate (find_sub_spec _ _ _ _ E)|].
  cbn [String.length Nat.min split_fuel]; rewrite E; reflexivity.
Qed.

Lemma fib_answer_line_ok isd answer line :
  exists answer', fib_answer_line isd answer line = Ok answer'.
Proof.
  unfold fib_answer_line.
  destruct (truthy (strip line)); cbn [andb]; [|eauto].
  destruct (first_isdigit isd (strip line)); cbn [andb]; [|eauto].
  unfold contains.
  destruct (find_sub ". " (strip line)) as [[a b]|] eqn:E; [|eauto].
  rewrite (split_max_one _ _ _ _ _ E); cbn; eauto.
Qed.

Lemma take_fib_answer_spec isd block :
  exists ans block',
    take_fib_answer isd block = Ok (ans, block')
    /\ (exists a c, block = a ++ block' ++ c)
    /\ (contains "ANSWER:" block = false \/ contains "EXPLANATION:" block = false
        -> ans = [] /\ block' = block).
Proof.
  unfold take_fib_answer.
  destruct (contains "ANSWER:" block) eqn:E1;
    [destruct (contains "EXPLANATION:" block) eqn:E2|]; simpl.
  - destruct (split_second "A" "NSWER:" block E1) as (_ & x & _ & -> & _).
    cbn [bind].
    destruct (split_first "EXPLANATION:" x) as (a0 & ->).
    cbn [bind].
    destruct (for_each_all_ok (split LF (strip a0)) (fib_answer_line isd)
                (fun s a _ => fib_answer_line_ok isd s a) [])
      as (answer & ->).
    cbn [bind].
    destruct (split_second "E" "XPLANATION:" block E2)
      as (pre & e & rest & -> & Hs).
    cbn [bind]; exists answer, ("EXPLANATION:" ++ e); split; [reflexivity|].
    split; [|intros [?|?]; discriminate].
    exists pre, rest; rewrite Hs, !append_assoc; reflexivity.
  - exists [], block; split; [reflexivity|]; split; [|auto].
    exists "", ""; rewrite append_nil_r; reflexivity.
  - exists [], block; split; [reflexivity|]; split; [|auto].
    exists "", ""; rewrite append_nil_r; reflexivity.
Qed.

(** The fill-in-blank loop body never fails. *)
Lemma fib_block_spec isd seq uid j block :
  exists q,
    fib_block isd seq uid (Nat.min j (List.length seq)) block
    = Ok (q, Nat.min (S j) (List.length seq))
    /\ pair_of_fib q = pair_at seq j
    /\ fib_question_id q = uid
    /\ fib_question_type q = "fib"
    /\ lenient_fib_fields block q.
Proof.
  unfold fib_block.
  destruct (take_question_spec block) as (qn & b1 & -> & (a1 & c1 & Hb1) & Hq).
  cbn [bind].
  destruct (take_fib_answer_spec isd b1)
    as (ans & b2 & -> & (a2 & c2 & Hb2) & Ha).
  cbn [bind].
  destruct (take_explanation_spec b2) as (ex & -> & He); cbn [bind].
  rewrite assign_metadata_spec.
  eexists; split; [reflexivity|].
  unfold pair_of_fib, lenient_fib_fields; cbn.
  split; [destruct (pair_at seq j); reflexivity|].
  split; [reflexivity|]; split; [reflexivity|].
  assert (S1 : forall k, contains k block = false -> contains k b1 = false).
  { intros k Hk; rewrite Hb1 in Hk; exact (contains_part_false _ _ _ _ Hk). }
  repeat split.
  - destruct (Hq H) as [E _]; exact E.
  - apply Ha; left; apply S1, H.
  - apply He. destruct (Ha (or_intror (S1 _ H))) as [_ ->]; apply S1, H.
  - apply Ha; right; apply S1, H.
Qed.

(** What positional pairing gives for a parsed list. *)
Lemma pairing_facts {Q} (meta : Q -> string * string) (records : list Q)
    (blocks : list string) (sequence : list (string * string)) :
  List.length records = List.length blocks ->
  (forall i block, nth_error blocks i = Some block ->
     exists q, nth_error records i = Some q /\ meta q = pair_at sequence i) ->
  (forall i q, nth_error records i = Some q ->
     (i < List.length sequence)%nat -> nth_error sequence i = Some (meta q))
  /\ (forall i q, nth_error records i = Some q ->
        (List.length sequence <= i)%nat -> meta q = ("", ""))
  /\ (List.length blocks = List.length sequence ->
        map meta records = sequence).
Proof.
  intros Hlen Hall.
  assert (Hpair : forall i q, nth_error records i = Some q ->
                              meta q = pair_at sequence i).
  { intros i q Hq.
    destruct (nth_error blocks i) as [block|] eqn:E.
    - destruct (Hall i block E) as (q' & Hq' & Hm); congruence.
    - apply nth_error_None in E.
      assert (i < List.length records)%nat
        by (apply nth_error_Some; congruence).
      lia. }
  repeat split.
  - intros i q Hq Hi; rewrite (Hpair i q Hq).
    unfold pair_at; apply nth_error_nth'; assumption.
  - intros i q Hq Hi; rewrite (Hpair i q Hq); unfold pair_at.
    apply nth_overflow; assumption.
  - intros Hn; apply nth_error_ext; intros i.
    rewrite nth_error_map.
    destruct (nth_error records i) as [q|] eqn:E; simpl.
    + rewrite (Hpair i q E); unfold pair_at; symmetry.
      apply nth_error_nth'.
      assert (i < List.length records)%nat
        by (apply nth_error_Some; congruence).
      lia.
    + symmetry; apply nth_error_None.
      apply nth_error_None in E; lia.
Qed.

(* ================================================================== *)
(** * Occurrences of a delimiter in a concatenation *)
(* ================================================================== *)

Lemma append_eq_append (a b c d : string) :
  a ++ b = c ++ d ->
  exists e, (a = c ++ e /\ d = e ++ b) \/ (c = a ++ e /\ b = e ++ d).
Proof.
  revert c; induction a as [|x a IH]; intros c H.
  - exists c; right; simpl in *; auto.
  - destruct c as [|y c].
    + exists (String x a); left; simpl in *; auto.
    + simpl in H; injection H as -> H.
      destruct (IH c H) as (e & [[-> ->] | [-> ->]]); exists e; [left|right];
        auto.
Qed.

Lemma append_inv_head (a b c : string) : a ++ b = a ++ c -> b = c.
Proof. induction a as [|x a IH]; simpl; intros H; [|injection H as H]; auto. Qed.

Lemma append_tail_inj (a b : string) (x y : ascii) :
  a ++ String x "" = b ++ String y "" -> a = b /\ x = y.
Proof.
  revert b; induction a as [|c a IH]; intros [|d b] H; simpl in H.
  - injection H as ->; auto.
  - injection H as -> H; destruct b; discriminate.
  - injection H as -> H; destruct a; discriminate.
  - injection H as -> H; destruct (IH b H) as [-> ->]; auto.
Qed.

Lemma ends_with_char (a p f : string) (c : ascii) :
  a ++ String c "" = p ++ f -> f = "" \/ exists f', f = f' ++ String c "".
Proof.
  intros H; apply append_eq_append in H as (e & [[-> ->] | [-> H]]).
  - right; eauto.
  - destruct e as [|y e]; simpl in H.
    + right; exists ""; auto.
    + injection H as -> H; destruct e; [|discriminate].
      left; simpl in H; auto.
Qed.

(** A colon that a text without colon follows lies before that text. *)
Lemma colon_in_front (x t m b : string) :
  has_char ":" t = false -> x ++ t = m ++ ":" ++ b ->
  exists g, x = m ++ ":" ++ g.
Proof.
  intros Ht H.
  replace (m ++ ":" ++ b) with ((m ++ ":") ++ b) in H
    by (rewrite append_assoc; reflexivity).
  apply append_eq_append in H as (e & [[-> ->] | [H ->]]).
  - exists e; rewrite append_assoc; reflexivity.
  - destruct (ends_with_char _ _ _ _ H) as [-> | (f' & ->)].
    + exists ""; rewrite append_nil_r in H; rewrite <- H; reflexivity.
    + rewrite !has_char_app in Ht; simpl in Ht.
      rewrite orb_true_r in Ht; discriminate.
Qed.

(** Where an occurrence of [s1 ++ ":"] can lie in [x ++ ":" ++ y] when [s1]
    holds no colon: it ends at that colon, lies before it, or after it. *)
Lemma occurrence_at_colon (s1 x y a b : string) :
  has_char ":" s1 = false ->
  x ++ ":" ++ y = a ++ s1 ++ ":" ++ b ->
  (x = a ++ s1 /\ y = b)
  \/ (exists g, x = a ++ s1 ++ ":" ++ g)
  \/ (exists a', a = x ++ ":" ++ a' /\ y = a' ++ s1 ++ ":" ++ b).
Proof.
  intros Hs H.
  replace (a ++ s1 ++ ":" ++ b) with ((a ++ s1) ++ ":" ++ b) in H
    by (rewrite append_assoc; reflexivity).
  apply append_eq_append in H as (e & [[Hx He] | [Ha He]]).
  - destruct e as [|c e]; simpl in He.
    + injection He as ->; left; rewrite append_nil_r in Hx; auto.
    + injection He as <- ->; right; left; exists e.
      rewrite Hx, append_assoc; reflexivity.
  - destruct e as [|c e]; simpl in He.
    + injection He as ->; left; rewrite append_nil_r in Ha; auto.
    + injection He as <- ->; right; right.
      destruct (colon_in_front _ _ _ _ Hs Ha) as (g & Hg).
      exists g; split; [exact Hg|].
      rewrite Hg, !append_assoc in Ha.
      apply append_inv_head in Ha; simpl in Ha; injection Ha as Ha.
      rewrite <- Ha, append_assoc; reflexivity.
Qed.

Lemma split_last_spec s i c : split_last s = Some (i, c) -> s = i ++ String c "".
Proof.
  revert i; induction s as [|x s IH]; intros i; simpl; [discriminate|].
  destruct (split_last s) as [[i' l]|] eqn:E.
  - intros H; injection H as <- <-; rewrite (IH i' eq_refl); reflexivity.
  - intros H; injection H as <- <-; destruct s; [reflexivity|].
    simpl in E; destruct (split_last s) as [[? ?]|]; discriminate.
Qed.

Lemma is_delimiter_shape sep :
  is_delimiter sep = true ->
  exists s1, sep = s1 ++ ":" /\ has_char ":" s1 = false.
Proof.
  unfold is_delimiter; destruct (split_last sep) as [[body c]|] eqn:E;
    [|discriminate].
  intros H; apply andb_true_iff in H as [Hc Hb].
  apply Ascii.eqb_eq in Hc; subst c; apply negb_true_iff in Hb.
  exists body; split; [exact (split_last_spec _ _ _ E) | exact Hb].
Qed.

Lemma apart_shape sep K :
  apart sep K = true ->
  exists s1 c1 k1 c2,
    sep = s1 ++ String c1 ":" /\ K = k1 ++ String c2 ":" /\ c1 <> c2
    /\ has_char ":" (s1 ++ String c1 "") = false
    /\ has_char ":" (k1 ++ String c2 "") = false.
Proof.
  unfold apart.
  destruct (split_last sep) as [[b1 x1]|] eqn:E1; [|discriminate].
  destruct (split_last K) as [[b2 x2]|] eqn:E2; [|discriminate].
  destruct (split_last b1) as [[s1 c1]|] eqn:E3; [|discriminate].
  destruct (split_last b2) as [[k1 c2]|] eqn:E4; [|discriminate].
  intros H; repeat (apply andb_true_iff in H as [H ?]).
  apply Ascii.eqb_eq in H; subst x1.
  match goal with X : Ascii.eqb x2 _ = true |- _ =>
    apply Ascii.eqb_eq in X; subst x2 end.
  repeat match goal with X : negb _ = true |- _ =>
    apply negb_true_iff in X end.
  apply split_last_spec in E1, E2, E3, E4; subst.
  exists s1, c1, k1, c2; repeat split; auto.
  - rewrite append_assoc; reflexivity.
  - rewrite append_assoc; reflexivity.
  - apply Ascii.eqb_neq; assumption.
Qed.

Lemma contains_false_iff sep s : contains sep s = false <-> find_sub sep s = None.
Proof.
  unfold contains; destruct (find_sub sep s); split; congruence.
Qed.

Lemma contains_here sep a b : contains sep (a ++ sep ++ b) = true.
Proof. apply contains_iff; eauto. Qed.

Lemma find_sub_prefix sep s rest :
  strip_prefix sep s = Some rest -> find_sub sep s = Some ("", rest).
Proof. intros H; destruct s; simpl; rewrite H; reflexivity. Qed.

Lemma find_sub_step sep x s :
  strip_prefix sep (String x s) = None ->
  find_sub sep (String x s)
  = match find_sub sep s with
    | Some (a, b) => Some (String x a, b)
    | None => None
    end.
Proof. intros H; cbn [find_sub]; rewrite H; reflexivity. Qed.

Lemma contains_tail sep x s :
  contains sep (String x s) = false ->
  strip_prefix sep (String x s) = None /\ contains sep s = false.
Proof.
  unfold contains; cbn [find_sub].
  destruct (strip_prefix sep (String x s)); [discriminate|].
  destruct (find_sub sep s) as [[a b]|]; [discriminate | auto].
Qed.

(** The first occurrence of a delimiter that follows a text without it. *)
Lemma find_sub_first sep p r :
  is_delimiter sep = true -> contains sep p = false ->
  find_sub sep (p ++ sep ++ r) = Some (p, r).
Proof.
  intros Hd; destruct (is_delimiter_shape sep Hd) as (s1 & -> & Hs).
  induction p as [|x p IH]; intros Hp.
  - change ("" ++ (s1 ++ ":") ++ r) with ((s1 ++ ":") ++ r).
    apply find_sub_prefix, strip_prefix_app.
  - destruct (contains_tail _ _ _ Hp) as [Hx Hp'].
    change (String x p ++ (s1 ++ ":") ++ r)
      with (String x (p ++ (s1 ++ ":") ++ r)).
    rewrite find_sub_step, (IH Hp'); [reflexivity|].
    destruct (strip_prefix (s1 ++ ":") (String x (p ++ (s1 ++ ":") ++ r)))
      as [t|] eqn:E; [|reflexivity].
    exfalso; apply strip_prefix_spec in E.
    change (String x (p ++ (s1 ++ ":") ++ r))
      with (String x p ++ (s1 ++ ":") ++ r) in E.
    assert (E' : (String x p ++ s1) ++ ":" ++ r = "" ++ s1 ++ ":" ++ t)
      by (rewrite !append_assoc in *; exact E).
    destruct (occurrence_at_colon _ _ _ _ _ Hs E')
      as [[H _] | [(g & H) | (a' & H & _)]].
    + apply (f_equal String.length) in H; rewrite length_append in H.
      simpl in H; lia.
    + destruct (colon_in_front _ _ _ _ Hs H) as (g' & Hg).
      assert (C : contains (s1 ++ ":") (String x p) = true).
      { apply contains_iff; exists "", g'.
        rewrite Hg, !append_assoc; reflexivity. }
      congruence.
    + discriminate H.
Qed.

Lemma split_cons c sep s a b :
  find_sub (String c sep) s = Some (a, b) ->
  split (String c sep) s = a :: split (String c sep) b.
Proof.
  intros E; unfold split.
  assert (Hl := find_sub_shorter _ _ _ _ _ E).
  destruct (String.length s) as [|n] eqn:En; [lia|].
  cbn [split_fuel]; rewrite E; f_equal.
  apply split_fuel_enough; lia.
Qed.

Lemma split_none sep s : contains sep s = false -> split sep s = [s].
Proof.
  intros H; apply contains_false_iff in H; unfold split.
  destruct (String.length s); simpl; [|rewrite H]; reflexivity.
Qed.

Lemma is_delimiter_nonempty sep :
  is_delimiter sep = true -> exists c sep', sep = String c sep'.
Proof. destruct sep; [discriminate | eauto]. Qed.

(** The two pieces of a text with one occurrence of the delimiter. *)
Lemma split_two sep p r :
  is_delimiter sep = true -> contains sep p = false ->
  contains sep r = false -> split sep (p ++ sep ++ r) = [p; r].
Proof.
  intros Hd Hp Hr.
  assert (E := find_sub_first sep p r Hd Hp).
  destruct (is_delimiter_nonempty sep Hd) as (c & sep' & ->).
  rewrite (split_cons _ _ _ _ _ E), (split_none _ _ Hr); reflexivity.
Qed.

Lemma split_head sep p r :
  is_delimiter sep = true -> contains sep p = false ->
  getitem (split sep (p ++ sep ++ r)) 0 = Ok p.
Proof.
  intros Hd Hp.
  assert (E := find_sub_first sep p r Hd Hp).
  destruct (is_delimiter_nonempty sep Hd) as (c & sep' & ->).
  rewrite (split_cons _ _ _ _ _ E); reflexivity.
Qed.

Lemma contains_empty sep : is_delimiter sep = true -> contains sep "" = false.
Proof. destruct sep; [discriminate | reflexivity]. Qed.

(** No occurrence of a delimiter arises where a text without it meets
    another delimiter that ends in a different letter. *)
Lemma contains_across sep K u v :
  apart sep K = true -> contains sep u = false -> contains sep v = false ->
  contains sep (u ++ K ++ v) = false.
Proof.
  intros Ha Hu Hv.
  destruct (apart_shape _ _ Ha) as (s1 & c1 & k1 & c2 & -> & -> & Hne & Hs & Hk).
  destruct (contains (s1 ++ String c1 ":") (u ++ (k1 ++ String c2 ":") ++ v))
    eqn:E; [|reflexivity].
  exfalso; apply contains_iff in E as (a & b & E).
  assert (E' : (u ++ k1 ++ String c2 "") ++ ":" ++ v
               = a ++ (s1 ++ String c1 "") ++ ":" ++ b).
  { rewrite !append_assoc in *; exact E. }
  destruct (occurrence_at_colon _ _ _ _ _ Hs E')
    as [[H _] | [(g & H) | (a' & _ & H)]].
  - rewrite <- !append_assoc in H.
    apply append_tail_inj in H as [_ H]; congruence.
  - replace (a ++ (s1 ++ String c1 "") ++ ":" ++ g)
      with ((a ++ s1 ++ String c1 "") ++ ":" ++ g) in H
      by (rewrite !append_assoc; reflexivity).
    destruct (colon_in_front _ _ _ _ Hk H) as (g' & Hg).
    assert (C : contains (s1 ++ String c1 ":") u = true).
    { apply contains_iff; exists a, g'.
      rewrite Hg, !append_assoc; reflexivity. }
    congruence.
  - assert (C : contains (s1 ++ String c1 ":") v = true).
    { apply contains_iff; exists a', b.
      rewrite H, !append_assoc; reflexivity. }
    congruence.
Qed.

Lemma apart_is_delimiter sep K : apart sep K = true -> is_delimiter sep = true.
Proof.
  unfold apart, is_delimiter.
  destruct (split_last sep) as [[b1 x1]|]; [|discriminate].
  destruct (split_last K) as [[b2 x2]|]; [|discriminate].
  destruct (split_last b1) as [[s1 c1]|]; [|discriminate].
  destruct (split_last b2) as [[k1 c2]|]; [|discriminate].
  intros H; repeat (apply andb_true_iff in H as [H ?]).
  rewrite H; assumption.
Qed.

Lemma contains_after sep K v :
  apart sep K = true -> contains sep v = false ->
  contains sep (K ++ v) = false.
Proof.
  intros Ha Hv.
  apply (contains_across sep K "" v Ha); [|exact Hv].
  apply contains_empty, (apart_is_delimiter _ _ Ha).
Qed.

(* ================================================================== *)
(** * Blocks that hold every field *)
(* ================================================================== *)

Lemma contains_in sep block pre post :
  block = pre ++ sep ++ post -> contains sep block = true.
Proof. intros ->; apply contains_here. Qed.

Lemma first_piece sep block p r :
  block = p ++ sep ++ r -> is_delimiter sep = true ->
  contains sep p = false -> getitem (split sep block) 0 = Ok p.
Proof. intros ->; apply split_head. Qed.

Lemma second_piece sep block pre r :
  block = pre ++ sep ++ r -> is_delimiter sep = true ->
  contains sep pre = false -> contains sep r = false ->
  getitem (split sep block) 1 = Ok r.
Proof. intros -> Hd Hp Hr; rewrite (split_two _ _ _ Hd Hp Hr); reflexivity. Qed.

Ltac free_of_delimiter :=
  repeat first
    [ assumption
    | reflexivity
    | apply contains_after; [reflexivity|]
    | apply contains_across; [reflexivity| |] ].

Ltac same_text := rewrite ?append_assoc; reflexivity.

Ltac known_contains sep pre post :=
  match goal with
  | |- context [contains sep ?b] =>
      rewrite (contains_in sep b pre post) by same_text
  end.

Ltac known_first sep p r :=
  match goal with
  | |- context [getitem (split sep ?b) 0] =>
      rewrite (first_piece sep b p r)
        by (first [same_text | free_of_delimiter])
  end.

Ltac known_second sep pre r :=
  match goal with
  | |- context [getitem (split sep ?b) 1] =>
      rewrite (second_piece sep b pre r)
        by (first [same_text | free_of_delimiter])
  end.

Ltac split_free H :=
  unfold free_of, answer_keys, block_keys in H; cbn [forallb] in H;
  repeat (let F := fresh "F" in
          apply andb_true_iff in H as [F H]; apply negb_true_iff in F);
  clear H.

Lemma take_question_text q r :
  contains "ANSWER:" q = false -> contains "ANSWER:" r = false ->
  take_question (q ++ "ANSWER:" ++ r) = Ok (strip q, "ANSWER:" ++ r).
Proof.
  intros Hq Hr; unfold take_question.
  rewrite contains_here, (split_two "ANSWER:" q r eq_refl Hq Hr).
  reflexivity.
Qed.

Lemma take_answer_text a r :
  free_of answer_keys a = true ->
  contains "ANSWER:" r = false -> contains "EXPLANATION:" r = false ->
  take_answer ("ANSWER:" ++ a ++ "EXPLANATION:" ++ r)
  = Ok (strip a, "EXPLANATION:" ++ r).
Proof.
  intros Ha R1 R2; split_free Ha.
  unfold take_answer.
  known_contains "ANSWER:" "" (a ++ "EXPLANATION:" ++ r).
  known_contains "EXPLANATION:" ("ANSWER:" ++ a) r.
  cbn [andb].
  known_second "ANSWER:" "" (a ++ "EXPLANATION:" ++ r).
  cbn [bind].
  known_first "EXPLANATION:" a r.
  cbn [bind].
  known_second "EXPLANATION:" ("ANSWER:" ++ a) r.
  reflexivity.
Qed.

Lemma take_mcq_explanation_text e r :
  contains "EXPLANATION:" e = false -> contains "DISTRACTOR1:" e = false ->
  contains "EXPLANATION:" r = false ->
  take_mcq_explanation ("EXPLANATION:" ++ e ++ "DISTRACTOR1:" ++ r)
  = Ok (strip e).
Proof.
  intros E1 E2 R1; unfold take_mcq_explanation.
  known_contains "EXPLANATION:" "" (e ++ "DISTRACTOR1:" ++ r).
  known_second "EXPLANATION:" "" (e ++ "DISTRACTOR1:" ++ r).
  cbn [bind].
  known_contains "DISTRACTOR1:" e r.
  known_first "DISTRACTOR1:" e r.
  reflexivity.
Qed.

Lemma take_distractor_next block ds i key nk pre d r :
  nth_error distractor_keys (i + 1) = Some nk ->
  block = pre ++ key ++ d ++ nk ++ r ->
  is_delimiter key = true -> is_delimiter nk = true ->
  contains key pre = false -> contains key (d ++ nk ++ r) = false ->
  contains nk d = false ->
  take_distractor block ds (i, key) = Ok (ds ++ [strip d])%list.
Proof.
  intros Hn -> Hk Hnk Hpre Hrest Hd; unfold take_distractor.
  rewrite contains_here, Hn.
  rewrite (second_piece key _ pre (d ++ nk ++ r) eq_refl Hk Hpre Hrest).
  cbn [bind].
  rewrite (contains_in nk _ (pre ++ key ++ d) r) by same_text.
  rewrite (first_piece nk _ d r eq_refl Hnk Hd).
  reflexivity.
Qed.

Lemma take_distractor_last block ds i key pre d :
  nth_error distractor_keys (i + 1) = None ->
  block = pre ++ key ++ d ->
  is_delimiter key = true ->
  contains key pre = false -> contains key d = false ->
  take_distractor block ds (i, key) = Ok (ds ++ [strip d])%list.
Proof.
  intros Hn -> Hk Hpre Hd; unfold take_distractor.
  rewrite contains_here, Hn.
  rewrite (second_piece key _ pre d eq_refl Hk Hpre Hd).
  reflexivity.
Qed.

(** The MCQ loop body on a block that holds every field, each free of
    the delimiters. *)
Lemma mcq_block_text sequence uid j q a e d1 d2 d3 :
  free_of block_keys q = true -> free_of block_keys a = true ->
  free_of block_keys e = true -> free_of block_keys d1 = true ->
  free_of block_keys d2 = true -> free_of block_keys d3 = true ->
  mcq_block sequence uid j (mcq_text q a e d1 d2 d3)
  = Ok (mk_mcq uid (strip q) (strip a) (strip e)
          [strip d1; strip d2; strip d3]
          (fst (fst (assign_metadata sequence j)))
          (snd (fst (assign_metadata sequence j))) "mcq",
        snd (assign_metadata sequence j)).
Proof.
  intros Hq Ha He H1 H2 H3.
  assert (Ha' : free_of answer_keys a = true).
  { unfold free_of, block_keys, answer_keys in *; cbn [forallb] in *.
    apply andb_true_iff in Ha as [A1 Ha]; apply andb_true_iff in Ha as [A2 _].
    rewrite A1, A2; reflexivity. }
  split_free Hq; split_free Ha; split_free He.
  split_free H1; split_free H2; split_free H3.
  unfold mcq_block, mcq_text.
  rewrite take_question_text by free_of_delimiter; cbn [bind].
  rewrite (take_answer_text a _ Ha') by free_of_delimiter; cbn [bind].
  rewrite take_mcq_explanation_text by free_of_delimiter; cbn [bind].
  unfold enumerate; cbn [distractor_keys List.length seq combine for_each].
  rewrite (take_distractor_next _ [] 0 "DISTRACTOR1:" "DISTRACTOR2:"
             ("EXPLANATION:" ++ e) d1 (d2 ++ "DISTRACTOR3:" ++ d3)
             eq_refl)
    by (first [same_text | free_of_delimiter]).
  cbn [bind].
  rewrite (take_distractor_next _ _ 1 "DISTRACTOR2:" "DISTRACTOR3:"
             ("EXPLANATION:" ++ e ++ "DISTRACTOR1:" ++ d1) d2 d3 eq_refl)
    by (first [same_text | free_of_delimiter]).
  cbn [bind].
  rewrite (take_distractor_last _ _ 2 "DISTRACTOR3:"
             ("EXPLANATION:" ++ e ++ "DISTRACTOR1:" ++ d1
                ++ "DISTRACTOR2:" ++ d2) d3 eq_refl)
    by (first [same_text | free_of_delimiter]).
  cbn [bind app].
  destruct (assign_metadata sequence j) as [[d bl] j']; reflexivity.
Qed.

Lemma take_explanation_text block pre e :
  block = pre ++ "EXPLANATION:" ++ e ->
  contains "EXPLANATION:" pre = false -> contains "EXPLANATION:" e = false ->
  take_explanation block = Ok (strip e).
Proof.
  intros -> Hp He; unfold take_explanation.
  rewrite contains_here.
  rewrite (second_piece "EXPLANATION:" _ pre e eq_refl eq_refl Hp He).
  reflexivity.
Qed.

Lemma take_tf_answer_text a r :
  free_of answer_keys a = true ->
  contains "ANSWER:" r = false -> contains "EXPLANATION:" r = false ->
  take_tf_answer ("ANSWER:" ++ a ++ "EXPLANATION:" ++ r) = Ok (strip a).
Proof.
  intros Ha R1 R2; split_free Ha.
  unfold take_tf_answer.
  known_contains "ANSWER:" "" (a ++ "EXPLANATION:" ++ r).
  known_contains "EXPLANATION:" ("ANSWER:" ++ a) r.
  cbn [andb].
  known_second "ANSWER:" "" (a ++ "EXPLANATION:" ++ r).
  cbn [bind].
  known_first "EXPLANATION:" a r.
  reflexivity.
Qed.

(** Without ["EXPLANATION:"] the true/false parser keeps the answer. *)
Lemma take_tf_answer_alone a :
  free_of answer_keys a = true ->
  take_tf_answer ("ANSWER:" ++ a) = Ok (strip a).
Proof.
  intros Ha; split_free Ha.
  unfold take_tf_answer.
  known_contains "ANSWER:" "" a.
  replace (contains "EXPLANATION:" ("ANSWER:" ++ a)) with false
    by (symmetry; free_of_delimiter).
  cbn [andb].
  known_second "ANSWER:" "" a.
  reflexivity.
Qed.

Lemma tf_block_text sequence uid j s a e :
  free_of answer_keys s = true -> free_of answer_keys a = true ->
  free_of answer_keys e = true ->
  tf_block sequence uid j (answered_text s a e)
  = Ok (mk_tf uid (strip s) (strip a) (strip e)
          (fst (fst (assign_metadata sequence j)))
          (snd (fst (assign_metadata sequence j))) "tf",
        snd (assign_metadata sequence j)).
Proof.
  intros Hs Ha He; assert (Ha' := Ha).
  split_free Hs; split_free Ha; split_free He.
  unfold tf_block, answered_text.
  rewrite take_question_text by free_of_delimiter; cbn [bind].
  rewrite (take_tf_answer_text a e Ha') by free_of_delimiter; cbn [bind].
  rewrite (take_explanation_text _ ("ANSWER:" ++ a) e)
    by (first [same_text | free_of_delimiter]).
  cbn [bind].
  destruct (assign_metadata sequence j) as [[d bl] j']; reflexivity.
Qed.

Lemma tf_block_unexplained sequence uid j s a :
  free_of answer_keys s = true -> free_of answer_keys a = true ->
  tf_block sequence uid j (s ++ "ANSWER:" ++ a)
  = Ok (mk_tf uid (strip s) (strip a) ""
          (fst (fst (assign_metadata sequence j)))
          (snd (fst (assign_metadata sequence j))) "tf",
        snd (assign_metadata sequence j)).
Proof.
  intros Hs Ha; assert (Ha' := Ha).
  split_free Hs; split_free Ha.
  unfold tf_block.
  rewrite take_question_text by free_of_delimiter; cbn [bind].
  rewrite (take_tf_answer_alone a Ha'); cbn [bind].
  unfold take_explanation.
  replace (contains "EXPLANATION:" ("ANSWER:" ++ a)) with false
    by (symmetry; free_of_delimiter).
  cbn [bind].
  destruct (assign_metadata sequence j) as [[d bl] j']; reflexivity.
Qed.

(** Without ["EXPLANATION:"] the MCQ parser drops the answer. *)
Lemma mcq_block_unexplained sequence uid j q a :
  free_of block_keys q = true -> free_of block_keys a = true ->
  mcq_block sequence uid j (q ++ "ANSWER:" ++ a)
  = Ok (mk_mcq uid (strip q) "" "" []
          (fst (fst (assign_metadata sequence j)))
          (snd (fst (assign_metadata sequence j))) "mcq",
        snd (assign_metadata sequence j)).
Proof.
  intros Hq Ha; split_free Hq; split_free Ha.
  unfold mcq_block.
  rewrite take_question_text by free_of_delimiter; cbn [bind].
  assert (NE : contains "EXPLANATION:" ("ANSWER:" ++ a) = false)
    by free_of_delimiter.
  assert (N1 : contains "DISTRACTOR1:" ("ANSWER:" ++ a) = false)
    by free_of_delimiter.
  assert (N2 : contains "DISTRACTOR2:" ("ANSWER:" ++ a) = false)
    by free_of_delimiter.
  assert (N3 : contains "DISTRACTOR3:" ("ANSWER:" ++ a) = false)
    by free_of_delimiter.
  unfold take_answer; rewrite NE, andb_false_r; cbn [bind].
  unfold take_mcq_explanation; rewrite NE; cbn [bind].
  unfold enumerate; cbn [distractor_keys List.length List.seq combine for_each].
  unfold take_distractor; rewrite N1, N2, N3; cbn [bind].
  destruct (assign_metadata sequence j) as [[d bl] j']; reflexivity.
Qed.

Lemma take_fib_answer_text isd a r answers :
  free_of answer_keys a = true ->
  contains "ANSWER:" r = false -> contains "EXPLANATION:" r = false ->
  for_each (split LF (strip a)) (fib_answer_line isd) [] = Ok answers ->
  take_fib_answer isd ("ANSWER:" ++ a ++ "EXPLANATION:" ++ r)
  = Ok (answers, "EXPLANATION:" ++ r).
Proof.
  intros Ha R1 R2 Hl; split_free Ha.
  unfold take_fib_answer.
  known_contains "ANSWER:" "" (a ++ "EXPLANATION:" ++ r).
  known_contains "EXPLANATION:" ("ANSWER:" ++ a) r.
  cbn [andb].
  known_second "ANSWER:" "" (a ++ "EXPLANATION:" ++ r).
  cbn [bind].
  known_first "EXPLANATION:" a r.
  cbn [bind]; rewrite Hl; cbn [bind].
  known_second "EXPLANATION:" ("ANSWER:" ++ a) r.
  reflexivity.
Qed.

Lemma fib_block_text isd sequence uid j q a e answers :
  free_of answer_keys q = true -> free_of answer_keys a = true ->
  free_of answer_keys e = true ->
  for_each (split LF (strip a)) (fib_answer_line isd) [] = Ok answers ->
  fib_block isd sequence uid j (answered_text q a e)
  = Ok (mk_fib uid (strip q) answers (strip e)
          (fst (fst (assign_metadata sequence j)))
          (snd (fst (assign_metadata sequence j))) "fib",
        snd (assign_metadata sequence j)).
Proof.
  intros Hq Ha He Hl; assert (Ha' := Ha).
  split_free Hq; split_free Ha; split_free He.
  unfold fib_block, answered_text.
  rewrite take_question_text by free_of_delimiter; cbn [bind].
  rewrite (take_fib_answer_text isd a e answers Ha') by free_of_delimiter.
  cbn [bind].
  rewrite (take_explanation_text _ "" e)
    by (first [same_text | free_of_delimiter]).
  cbn [bind].
  destruct (assign_metadata sequence j) as [[d bl] j']; reflexivity.
Qed.

Lemma fib_block_unexplained isd sequence uid j q a :
  free_of answer_keys q = true -> free_of answer_keys a = true ->
  fib_block isd sequence uid j (q ++ "ANSWER:" ++ a)
  = Ok (mk_fib uid (strip q) [] ""
          (fst (fst (assign_metadata sequence j)))
          (snd (fst (assign_metadata sequence j))) "fib",
        snd (assign_metadata sequence j)).
Proof.
  intros Hq Ha; split_free Hq; split_free Ha.
  unfold fib_block.
  rewrite take_question_text by free_of_delimiter; cbn [bind].
  assert (NE : contains "EXPLANATION:" ("ANSWER:" ++ a) = false)
    by free_of_delimiter.
  unfold take_fib_answer; rewrite NE, andb_false_r; cbn [bind].
  unfold take_explanation; rewrite NE; cbn [bind].
  destruct (assign_metadata sequence j) as [[d bl] j']; reflexivity.
Qed.

(** The records of the three parsers, each with the loop body that built
    it. *)
Lemma parse_tf_response_spec uuid4 response_text question_breakdown :
  let sequence := create_question_sequence question_breakdown in
  exists records,
    parse_tf_response uuid4 response_text question_breakdown = Ok records
    /\ forall i block,
         nth_error (surviving_blocks "STATEMENT:" response_text) i = Some block ->
         exists q, nth_error records i = Some q
                   /\ tf_block sequence (uuid4 i)
                        (Nat.min i (List.length sequence)) block
                      = Ok (q, Nat.min (S i) (List.length sequence)).
Proof.
  intros sequence; unfold parse_tf_response; fold sequence.
  destruct (parse_blocks_spec uuid4 (tf_block sequence) sequence pair_of_tf
              (fun uid j block q =>
                 tf_block sequence uid (Nat.min j (List.length sequence)) block
                 = Ok (q, Nat.min (S j) (List.length sequence))))
    with (blocks := surviving_blocks "STATEMENT:" response_text)
    as (records & Hp & _ & Hall).
  { intros uid j block.
    destruct (tf_block_spec sequence uid j block) as (q & H1 & H2 & _).
    exists q; auto. }
  exists records; split; [exact Hp|].
  intros i block Hb; destruct (Hall i block Hb) as (q & Hq & _ & Hr); eauto.
Qed.

Lemma parse_fib_response_spec isd uuid4 response_text question_breakdown :
  let sequence := create_question_sequence question_breakdown in
  exists records,
    parse_fib_response isd uuid4 response_text question_breakdown = Ok records
    /\ forall i block,
         nth_error (surviving_blocks "QUESTION:" response_text) i = Some block ->
         exists q, nth_error records i = Some q
                   /\ fib_block isd sequence (uuid4 i)
                        (Nat.min i (List.length sequence)) block
                      = Ok (q, Nat.min (S i) (List.length sequence)).
Proof.
  intros sequence; unfold parse_fib_response; fold sequence.
  destruct (parse_blocks_spec uuid4 (fib_block isd sequence) sequence
              pair_of_fib
              (fun uid j block q =>
                 fib_block isd sequence uid
                   (Nat.min j (List.length sequence)) block
                 = Ok (q, Nat.min (S j) (List.length sequence))))
    with (blocks := surviving_blocks "QUESTION:" response_text)
    as (records & Hp & _ & Hall).
  { intros uid j block.
    destruct (fib_block_spec isd sequence uid j block) as (q & H1 & H2 & _).
    exists q; auto. }
  exists records; split; [exact Hp|].
  intros i block Hb; destruct (Hall i block Hb) as (q & Hq & _ & Hr); eauto.
Qed.
(* ================================================================== *)
(** * The blocks of a completion *)
(* ================================================================== *)

Lemma strip_prefix_more p s r t :
  strip_prefix p s = Some r -> strip_prefix p (s ++ t) = Some (r ++ t).
Proof.
  revert s; induction p as [|a p IH]; intros s; simpl.
  - intros H; injection H as ->; reflexivity.
  - destruct s as [|b s]; [discriminate|]; simpl.
    destruct (Ascii.eqb a b); [apply IH | discriminate].
Qed.

(** The text before the first occurrence holds no occurrence. *)
Lemma find_sub_left_free c sep s a b :
  find_sub (String c sep) s = Some (a, b) -> contains (String c sep) a = false.
Proof.
  revert a; induction s as [|x s IH]; intros a.
  - simpl; discriminate.
  - cbn [find_sub].
    destruct (strip_prefix (String c sep) (String x s)) as [rest|] eqn:E.
    + intros H; injection H as <- _; reflexivity.
    + destruct (find_sub (String c sep) s) as [[a' b']|] eqn:E'; [|discriminate].
      intros H; injection H as <- <-.
      assert (Hs := find_sub_spec _ _ _ _ E').
      apply contains_false_iff.
      rewrite find_sub_step.
      * specialize (IH a' eq_refl); apply contains_false_iff in IH.
        rewrite IH; reflexivity.
      * destruct (strip_prefix (String c sep) (String x a')) as [r|] eqn:Ea;
          [|reflexivity].
        apply (strip_prefix_more _ _ _ (String c sep ++ b')) in Ea.
        change (String x a' ++ String c sep ++ b')
          with (String x (a' ++ String c sep ++ b')) in Ea.
        rewrite <- Hs in Ea; congruence.
Qed.

Lemma split_fuel_free c sep n s piece :
  (String.length s <= n)%nat ->
  In piece (split_fuel n (String c sep) s) ->
  contains (String c sep) piece = false.
Proof.
  revert s; induction n as [|n IH]; intros s Hn.
  - destruct s; [|simpl in Hn; lia].
    simpl; intros [<-|[]]; reflexivity.
  - cbn [split_fuel].
    destruct (find_sub (String c sep) s) as [[a b]|] eqn:E.
    + intros [<-|Hin]; [exact (find_sub_left_free _ _ _ _ _ E)|].
      apply (IH b); [|exact Hin].
      assert (Hl := find_sub_shorter _ _ _ _ _ E); lia.
    + intros [<-|[]]; apply contains_false_iff; exact E.
Qed.

Lemma rev_string_app s acc : rev_string s acc = rev_string s "" ++ acc.
Proof.
  revert acc; induction s as [|x s IH]; intros acc; [reflexivity|].
  simpl; rewrite (IH (String x acc)), (IH (String x "")), append_assoc.
  reflexivity.
Qed.

Lemma reverse_app a b : reverse (a ++ b) = reverse b ++ reverse a.
Proof.
  unfold reverse; induction a as [|x a IH]; simpl.
  - rewrite append_nil_r; reflexivity.
  - rewrite (rev_string_app (a ++ b)), IH, (rev_string_app a (String x "")).
    rewrite append_assoc; reflexivity.
Qed.

Lemma reverse_involutive s : reverse (reverse s) = s.
Proof.
  induction s as [|x s IH]; [reflexivity|].
  change (String x s) with (String x "" ++ s) at 1.
  rewrite reverse_app, reverse_app, IH; reflexivity.
Qed.

Lemma drop_space_spec ws s r :
  drop_space ws s = Some r -> exists w, s = w ++ r.
Proof.
  unfold drop_space; induction ws as [|w ws IH]; simpl; [discriminate|].
  destruct (strip_prefix w s) as [x|] eqn:E.
  - intros H; injection H as <-; exists w; exact (strip_prefix_spec _ _ _ E).
  - exact IH.
Qed.

Lemma lstrip_fuel_suffix ws n s : exists pre, s = pre ++ lstrip_fuel ws n s.
Proof.
  revert s; induction n as [|n IH]; intros s; simpl; [exists ""; reflexivity|].
  destruct (drop_space ws s) as [r|] eqn:E; [|exists ""; reflexivity].
  destruct (drop_space_spec _ _ _ E) as (w & ->).
  destruct (IH r) as (pre & Hr).
  exists (w ++ pre); rewrite append_assoc, <- Hr; reflexivity.
Qed.

(** What [strip] returns is a part of its argument. *)
Lemma strip_inside s : exists pre suf, s = pre ++ strip s ++ suf.
Proof.
  unfold strip, lstrip, rstrip.
  set (t := lstrip_fuel (map reverse whitespace) (String.length s) (reverse s)).
  destruct (lstrip_fuel_suffix (map reverse whitespace) (String.length s)
              (reverse s)) as (suf & Hs); fold t in Hs.
  destruct (lstrip_fuel_suffix whitespace (String.length (reverse t))
              (reverse t)) as (pre & Hp).
  exists pre, (reverse suf).
  rewrite <- append_assoc, <- Hp, <- reverse_app, <- Hs.
  symmetry; apply reverse_involutive.
Qed.

Lemma surviving_block_facts c sep text b :
  In b (surviving_blocks (String c sep) text) ->
  truthy b = true /\ contains (String c sep) b = false.
Proof.
  unfold surviving_blocks; intros H.
  apply in_map_iff in H as (x & <- & H).
  apply filter_In in H as [Hin Ht]; split; [exact Ht|].
  assert (Hx : contains (String c sep) x = false)
    by (apply (split_fuel_free c sep _ text x (Nat.le_refl _) Hin)).
  destruct (strip_inside x) as (pre & suf & Hs).
  rewrite Hs in Hx; exact (contains_part_false _ _ _ _ Hx).
Qed.

Lemma surviving_blocks_cons sep p rest :
  is_delimiter sep = true -> contains sep p = false ->
  surviving_blocks sep (p ++ sep ++ rest)
  = ((if truthy (strip p) then [strip p] else [])
       ++ surviving_blocks sep rest)%list.
Proof.
  intros Hd Hp; unfold surviving_blocks.
  assert (E := find_sub_first sep p rest Hd Hp).
  destruct (is_delimiter_nonempty sep Hd) as (c & sep' & ->).
  rewrite (split_cons _ _ _ _ _ E); cbn [filter].
  destruct (truthy (strip p)); reflexivity.
Qed.

Lemma find_sub_after_digits digits rest :
  ascii_digits digits = true ->
  find_sub ". " (digits ++ ". " ++ rest) = Some (digits, rest).
Proof.
  induction digits as [|d ds IH]; intros H.
  - apply find_sub_prefix, (strip_prefix_app ". " rest).
  - cbn [ascii_digits] in H.
    apply andb_true_iff in H as [H Hds]; apply andb_true_iff in H as [Hlo Hhi].
    change (String d ds ++ ". " ++ rest) with (String d (ds ++ ". " ++ rest)).
    rewrite find_sub_step, (IH Hds); [reflexivity|].
    cbn [strip_prefix].
    destruct (Ascii.eqb "." d) eqn:E; [|reflexivity].
    apply Ascii.eqb_eq in E; subst d; discriminate Hlo.
Qed.
(* ================================================================== *)
(** * Grouping an allocation by question type *)
(* ================================================================== *)

Lemma first_seen_snoc l k :
  first_seen (l ++ [k])%list
  = if existsb (String.eqb k) (first_seen l) then first_seen l
    else (first_seen l ++ [k])%list.
Proof. unfold first_seen; rewrite fold_left_app; reflexivity. Qed.

Lemma first_seen_facts l :
  NoDup (first_seen l) /\ forall k, In k (first_seen l) <-> In k l.
Proof.
  induction l as [|x l [IHn IHi]] using rev_ind.
  - split; [constructor | intros k; split; intros []].
  - rewrite first_seen_snoc.
    destruct (existsb (String.eqb x) (first_seen l)) eqn:E.
    + split; [exact IHn|].
      apply existsb_eqb_in in E.
      intros k; rewrite in_app_iff, <- IHi; simpl; split; [auto|].
      intros [H|[<-|[]]]; auto.
    + assert (Hn : ~ In x (first_seen l)).
      { intros H; apply existsb_eqb_in in H; congruence. }
      split.
      * apply NoDup_app; [exact IHn | repeat constructor; intros [] |].
        intros a Ha [<-|[]]; contradiction.
      * intros k; rewrite !in_app_iff, IHi; reflexivity.
Qed.

Lemma configs_of_snoc qt dist k c :
  configs_of qt (dist ++ [(k, c)])%list
  = (configs_of qt dist
       ++ if String.eqb (question_type c) qt then [c] else [])%list.
Proof.
  unfold configs_of, restrict_to_type; rewrite filter_app, map_app.
  cbn [filter]; destruct (String.eqb (question_type c) qt); reflexivity.
Qed.

Lemma configs_of_absent qt dist :
  ~ In qt (types_of dist) -> configs_of qt dist = [].
Proof.
  unfold configs_of, restrict_to_type, types_of; intros H.
  rewrite filter_none; [reflexivity|].
  intros [k e] Hin; apply String.eqb_neq; intros <-.
  apply H, in_map_iff; exists (k, e); auto.
Qed.

Lemma dict_adjust_app_fresh {V} (f : V -> V) (k : string) (v : V) (d : dict V) :
  ~ In k (dict_keys d) ->
  dict_adjust f k (d ++ [(k, v)])%list = (d ++ [(k, f v)])%list.
Proof.
  induction d as [|[k' v'] d IH]; simpl; intros H.
  - rewrite String.eqb_refl; reflexivity.
  - destruct (String.eqb_spec k k') as [->|Hne]; [exfalso; auto|].
    rewrite IH; auto.
Qed.

(** The groups in closed form: one group per question type in first-seen
    order, holding the entries of that type in their order. *)
Lemma groups_closed_form question_dist :
  _group_by_question_type question_dist
  = map (fun qt => (qt, configs_of qt question_dist))
        (first_seen (types_of question_dist)).
Proof.
  unfold _group_by_question_type.
  induction question_dist as [|[k c] dist IH] using rev_ind; [reflexivity|].
  rewrite fold_left_app; cbn [fold_left]; rewrite IH; clear IH.
  destruct (first_seen_facts (types_of dist)) as [Hnd Hin].
  set (keys := first_seen (types_of dist)) in *.
  set (G := map (fun qt => (qt, configs_of qt dist)) keys).
  assert (HG : dict_keys G = keys).
  { unfold G, dict_keys; rewrite map_map; cbn [fst]; apply map_id. }
  unfold types_of at 1; rewrite map_app; cbn [map]; fold (types_of dist).
  rewrite first_seen_snoc; fold keys.
  rewrite dict_mem_existsb, HG.
  destruct (existsb (String.eqb (question_type c)) keys) eqn:E; cbn [negb].
  - rewrite dict_adjust_map by (rewrite HG; exact Hnd).
    unfold G; rewrite map_map; apply map_ext; intros qt.
    rewrite configs_of_snoc.
    destruct (String.eqb (question_type c) qt);
      [reflexivity | rewrite app_nil_r; reflexivity].
  - assert (Hn : ~ In (question_type c) keys).
    { intros H; apply existsb_eqb_in in H; congruence. }
    rewrite dict_set_fresh by (rewrite HG; exact Hn).
    rewrite dict_adjust_app_fresh by (rewrite HG; exact Hn).
    rewrite map_app; cbn [map app]; f_equal.
    + unfold G; apply map_ext_in; intros qt Hqt.
      rewrite configs_of_snoc.
      destruct (String.eqb_spec (question_type c) qt) as [<-|_];
        [contradiction | rewrite app_nil_r; reflexivity].
    + rewrite configs_of_snoc, String.eqb_refl.
      rewrite configs_of_absent by (rewrite <- Hin; exact Hn).
      reflexivity.
Qed.

Lemma sum_Z_app l1 l2 : sum_Z (l1 ++ l2) = sum_Z l1 + sum_Z l2.
Proof. unfold sum_Z; induction l1; simpl; lia. Qed.

Lemma sum_Z_pointwise {A} (f g : A -> Z) (l : list A) :
  sum_Z (map (fun a => f a + g a) l) = sum_Z (map f l) + sum_Z (map g l).
Proof. unfold sum_Z; induction l; simpl; lia. Qed.

Lemma sum_Z_indicator (t : string) (v : Z) (keys : list string) :
  NoDup keys -> In t keys ->
  sum_Z (map (fun qt => if String.eqb t qt then v else 0) keys) = v.
Proof.
  unfold sum_Z; induction keys as [|k keys IH]; intros Hnd Hin; [destruct Hin|].
  inversion Hnd as [|? ? Hk Hnd']; subst; cbn [map fold_right].
  destruct (String.eqb_spec t k) as [->|Hne].
  - assert (E : fold_right Z.add 0
                  (map (fun qt => if String.eqb k qt then v else 0) keys) = 0).
    { clear -Hk; induction keys as [|k' keys IH]; [reflexivity|].
      cbn [map fold_right].
      destruct (String.eqb_spec k k') as [->|_]; [exfalso; apply Hk; left; auto|].
      rewrite IH; [reflexivity | intros H; apply Hk; right; exact H]. }
    rewrite E; lia.
  - destruct Hin as [->|Hin]; [congruence|].
    rewrite (IH Hnd' Hin); lia.
Qed.

Lemma total_of_configs_cons qt k c dist :
  total_for_type (configs_of qt ((k, c) :: dist))
  = (if String.eqb (question_type c) qt then count c else 0)
    + total_for_type (configs_of qt dist).
Proof.
  unfold total_for_type, configs_of, restrict_to_type; cbn [filter].
  destruct (String.eqb (question_type c) qt); reflexivity.
Qed.

Lemma group_totals_over keys dist :
  NoDup keys -> (forall t, In t (types_of dist) -> In t keys) ->
  sum_Z (map (fun qt => total_for_type (configs_of qt dist)) keys)
  = allocated dist.
Proof.
  intros Hnd; induction dist as [|[k c] dist IH]; intros Hin.
  - unfold sum_Z; clear; induction keys; simpl; auto.
  - erewrite map_ext by (intros qt; apply total_of_configs_cons).
    rewrite sum_Z_pointwise, IH by (intros t Ht; apply Hin; right; exact Ht).
    rewrite sum_Z_indicator; [reflexivity | exact Hnd |].
    apply Hin; left; reflexivity.
Qed.

(* ================================================================== *)
(** * The pipelines of a request *)
(* ================================================================== *)

Lemma truediv_small a b :
  0 <= a <= 100 -> 1 <= b <= 100 -> exists f, int_truediv a b = Ok f.
Proof.
  intros Ha Hb.
  assert (C : truediv_check = true) by (vm_compute; reflexivity).
  unfold truediv_check in C.
  assert (Ca := up_to_hundred_check _ C a Ha); cbn beta in Ca.
  assert (Cb := up_to_hundred_check _ Ca b ltac:(lia)); cbn beta in Cb.
  destruct (Z.eqb_spec b 0); [lia|]; cbn [orb] in Cb.
  destruct (int_truediv a b); [eauto | discriminate].
Qed.

Lemma count_le_total configs c :
  (forall c, In c configs -> 0 <= count c) -> In c configs ->
  count c <= total_for_type configs.
Proof.
  unfold total_for_type, sum_Z; induction configs as [|x l IH]; intros H [];
    cbn [map fold_right].
  - subst x.
    assert (0 <= fold_right Z.add 0 (map count l)); [|lia].
    clear IH; induction l as [|y l IHl]; simpl; [lia|].
    assert (0 <= count y) by (apply H; right; left; reflexivity).
    assert (0 <= fold_right Z.add 0 (map count l)); [|lia].
    apply IHl; intros c0 [<-|Hc]; apply H; [left | right; right]; auto.
  - assert (0 <= count x) by (apply H; left; reflexivity).
    assert (count c <= fold_right Z.add 0 (map count l)); [|lia].
    apply IH; [intros; apply H; right|]; assumption.
Qed.

(** The combined proportions of a group of bounded size are computed
    without error. *)
Lemma type_distributions_ok configs :
  (forall c, In c configs -> 0 <= count c) ->
  1 <= total_for_type configs <= 100 ->
  exists dd bd, type_distributions configs = Ok (dd, bd).
Proof.
  intros Hc Ht; unfold type_distributions.
  destruct (for_each_all_ok configs
              (fun '(difficulty_dist_for_type, blooms_dist_for_type) config =>
       let diff := difficulty config in
       let blooms := blooms_level config in
       let difficulty_dist_for_type :=
         if negb (dict_mem diff difficulty_dist_for_type)
         then dict_set diff zero difficulty_dist_for_type
         else difficulty_dist_for_type in
       let blooms_dist_for_type :=
         if negb (dict_mem blooms blooms_dist_for_type)
         then dict_set blooms zero blooms_dist_for_type
         else blooms_dist_for_type in
       x <- int_truediv (count config) (total_for_type configs) ;;
       let difficulty_dist_for_type :=
         dict_adjust (fun v => fadd v x) diff difficulty_dist_for_type in
       y <- int_truediv (count config) (total_for_type configs) ;;
       let blooms_dist_for_type :=
         dict_adjust (fun v => fadd v y) blooms blooms_dist_for_type in
       Ok (difficulty_dist_for_type, blooms_dist_for_type)))
    with (s := (@nil (string * float), @nil (string * float)))
    as ([dd bd] & E).
  - intros [dd bd] c Hin.
    assert (Hle := count_le_total configs c Hc Hin).
    destruct (truediv_small (count c) (total_for_type configs)) as (f & ->);
      [split; [apply Hc; exact Hin | lia] | lia |].
    cbn [bind]; eauto.
  - exists dd, bd; exact E.
Qed.

Lemma sync_question_type w qt configs content chapter_name content_id lo
    dd bd mc mx :
  pr_question_type
    (_generate_single_question_type_sync w qt configs content chapter_name
       content_id lo dd bd mc mx) = qt.
Proof.
  unfold _generate_single_question_type_sync.
  destruct (single_question_type_body w qt configs content chapter_name
              content_id lo dd bd mc mx) as [r|e] eqn:E; [|reflexivity].
  unfold single_question_type_body in E.
  apply bind_ok_inv in E as (g & _ & E); injection E as <-; reflexivity.
Qed.

(** The gathered results, one per group and in the order of the groups:
    each is the value its pipeline returned for the group's combined
    proportions. *)
Lemma parallel_results w groups content request results :
  _generate_questions_parallel w groups content request = Ok results ->
  Forall2
    (fun '(qt, configs) x =>
       exists dd bd,
         type_distributions configs = Ok (dd, bd)
         /\ x = inr (_generate_single_question_type_sync w qt configs content
                       (req_chapter_name request) (req_contentId request)
                       (req_learning_objectives request) dd bd
                       (req_max_chunks request) (req_max_chars request)))
    groups results.
Proof.
  unfold _generate_questions_parallel; intros H.
  apply bind_ok_inv in H as (futures & H & E); injection E as <-.
  assert (G : forall acc futures,
            for_each groups
              (fun futures '(question_type, configs) =>
         '(difficulty_dist_for_type, blooms_dist_for_type) <-
            type_distributions configs ;;
         let future :=
           _generate_single_question_type_sync w question_type configs
             content (req_chapter_name request) (req_contentId request)
             (req_learning_objectives request) difficulty_dist_for_type
             blooms_dist_for_type (req_max_chunks request)
             (req_max_chars request) in
         Ok (futures ++ [future])%list) acc = Ok futures ->
            exists news,
              futures = (acc ++ news)%list
              /\ Forall2
                   (fun '(qt, configs) r =>
                      exists dd bd,
                        type_distributions configs = Ok (dd, bd)
                        /\ r = _generate_single_question_type_sync w qt configs
                                 content (req_chapter_name request)
                                 (req_contentId request)
                                 (req_learning_objectives request) dd bd
                                 (req_max_chunks request)
                                 (req_max_chars request))
                   groups news).
  { clear; induction groups as [|[qt configs] groups IH]; intros acc futures;
      cbn [for_each].
    - intros E; injection E as <-; exists []; rewrite app_nil_r.
      split; [reflexivity | constructor].
    - destruct (type_distributions configs) as [[dd bd]|e] eqn:Et;
        cbn [bind]; [|discriminate].
      intros E; destruct (IH _ _ E) as (news & -> & HF).
      eexists (_ :: news); rewrite <- app_assoc; split; [reflexivity|].
      constructor; [exists dd, bd; auto | exact HF]. }
  destruct (G [] futures H) as (news & -> & HF); cbn [app].
  clear -HF; induction HF as [|[qt configs] r groups news Hr HF IH];
    cbn [map]; constructor; [|exact IH].
  destruct Hr as (dd & bd & Hd & ->); eauto.
Qed.

Lemma parallel_result_types w groups content request results :
  _generate_questions_parallel w groups content request = Ok results ->
  map result_type results = dict_keys groups.
Proof.
  intros H; apply parallel_results in H.
  induction H as [|[qt configs] x groups results Hx HF IH]; [reflexivity|].
  cbn [map dict_keys fst]; f_equal; [|exact IH].
  destruct Hx as (dd & bd & _ & ->); apply sync_question_type.
Qed.

Lemma parallel_defined w groups content request :
  (forall qt configs, In (qt, configs) groups ->
     exists dd bd, type_distributions configs = Ok (dd, bd)) ->
  exists results,
    _generate_questions_parallel w groups content request = Ok results.
Proof.
  intros H; unfold _generate_questions_parallel.
  destruct (for_each_all_ok groups
              (fun futures '(question_type, configs) =>
         '(difficulty_dist_for_type, blooms_dist_for_type) <-
            type_distributions configs ;;
         let future :=
           _generate_single_question_type_sync w question_type configs
             content (req_chapter_name request) (req_contentId request)
             (req_learning_objectives request) difficulty_dist_for_type
             blooms_dist_for_type (req_max_chunks request)
             (req_max_chars request) in
         Ok (futures ++ [future])%list))
    with (s := @nil pipeline_result) as (futures & E).
  - intros s [qt configs] Hin.
    destruct (H qt configs Hin) as (dd & bd & ->); cbn [bind]; eauto.
  - exists (map inr futures).
    match goal with
    | |- bind ?X _ = _ => replace X with (Ok futures) by (symmetry; exact E)
    end.
    reflexivity.
Qed.

Lemma generate_ok_inv w tag parse msg chapter_name content_id lo num dd bd
    content mc mx g :
  generate w tag parse msg chapter_name content_id lo num dd bd content mc mx
  = Ok g ->
  exists text breakdown response,
    match content with
    | None => retrieve_chapter_content w chapter_name content_id mc mx
    | Some c => Ok c
    end = Ok text
    /\ truthy text = true
    /\ calculate_question_distribution num [(tag, one)] dd bd = Ok breakdown
    /\ generate_completion w (mk_prompt tag text num breakdown dd bd)
       = Ok response
    /\ parse response breakdown = Ok (gen_response g)
    /\ sound_generation w tag chapter_name content_id lo dd bd g.
Proof.
  unfold generate; intros H.
  apply bind_ok_inv in H as (text & Ht & H).
  destruct (truthy text) eqn:Etr; cbn [negb] in H; [|discriminate].
  apply bind_ok_inv in H as (breakdown & Hb & H).
  apply bind_ok_inv in H as (response & Hr & H).
  apply bind_ok_inv in H as (questions & Hq & H).
  destruct questions as [|q0 qs]; [discriminate|].
  apply bind_ok_inv in H as (filename & Hf & H).
  apply bind_ok_inv in H as ([] & Hs & H).
  injection H as <-.
  exists text, breakdown, response; unfold sound_generation; cbn.
  repeat split; auto; discriminate.
Qed.

Lemma filename_truthy chapter_name dd bd qt lo name :
  generate_filename chapter_name dd bd qt lo = Ok name -> truthy name = true.
Proof.
  intros H; assert (C := generate_filename_cases chapter_name dd bd qt lo).
  rewrite H in C; destruct C as (d & b & _ & _ & ->).
  destruct (clean_chapter_name chapter_name); reflexivity.
Qed.

(** A pipeline that reports no error ran a generator of a known type to
    its end. *)
Lemma sync_success w qt configs content chapter_name content_id lo dd bd
    mc mx :
  pr_error (_generate_single_question_type_sync w qt configs content
              chapter_name content_id lo dd bd mc mx) = None ->
  In qt known_types
  /\ exists g,
       generate w qt (type_parser w qt) (nothing_parsed qt) chapter_name
         content_id lo (total_for_type configs) dd bd (Some content)
         (Some mc) (Some mx) = Ok g
       /\ _generate_single_question_type_sync w qt configs content
            chapter_name content_id lo dd bd mc mx
          = mk_pipeline qt (Some (md_filename (gen_metadata g)))
              (Some (gen_response g)) None.
Proof.
  unfold _generate_single_question_type_sync.
  destruct (single_question_type_body w qt configs content chapter_name
              content_id lo dd bd mc mx) as [r|e] eqn:E; [|discriminate].
  intros _.
  assert (K : In qt known_types).
  { destruct (in_dec string_dec qt known_types) as [K|K]; [exact K|].
    rewrite (single_question_type_body_unknown _ _ _ _ _ _ _ _ _ _ _ K) in E.
    discriminate. }
  split; [exact K|].
  rewrite (single_question_type_body_known _ _ _ _ _ _ _ _ _ _ _ K) in E.
  apply bind_ok_inv in E as (g & Hg & E); injection E as <-.
  exists g; auto.
Qed.

(** The loop over results that carry no error: every file name that is
    not empty is listed, and every question type gets its data. *)
Lemma process_results_from results files data :
  (forall x, In x results -> exists r, x = inr r /\ pr_error r = None) ->
  NoDup (map result_type results) ->
  (forall x, In x results -> ~ In (result_type x) (dict_keys data)) ->
  for_each results
    (fun '(files_generated, all_question_data) result =>
       match result with
       | inl e => Raise e
       | inr r =>
           if option_truthy (pr_error r) then
             Raise (mk_exn ExceptionOther
                      ("Error in " ++ pr_question_type r ++ ": "
                       ++ match pr_error r with Some s => s | None => "" end))
           else
             let files_generated :=
               if option_truthy (pr_file_name r)
               then (files_generated
                       ++ [match pr_file_name r with Some s => s | None => "" end])%list
               else files_generated in
             Ok (files_generated,
                 dict_set (pr_question_type r) (pr_question_data r)
                          all_question_data)
       end)
    (files, data)
  = Ok ((files
           ++ flat_map
                (fun x =>
                   match x with
                   | inr r =>
                       match pr_file_name r with
                       | Some s => if truthy s then [s] else []
                       | None => []
                       end
                   | inl _ => []
                   end) results)%list,
        (data
           ++ map (fun x =>
                     (result_type x,
                      match x with
                      | inr r => pr_question_data r
                      | inl _ => None
                      end)) results)%list).
Proof.
  revert files data; induction results as [|x results IH];
    intros files data Hv Hnd Hfresh.
  - cbn; rewrite !app_nil_r; reflexivity.
  - destruct (Hv x (or_introl eq_refl)) as (r & -> & He).
    cbn [for_each]; rewrite He; cbn [option_truthy bind].
    cbn [map result_type] in Hnd; inversion Hnd as [|? ? Hn Hnd']; subst.
    assert (Hk : ~ In (pr_question_type r) (dict_keys data))
      by (apply (Hfresh (inr r)); left; reflexivity).
    rewrite IH.
    + rewrite (dict_set_fresh _ _ _ Hk).
      cbn [flat_map map result_type]; rewrite <- !app_assoc; cbn [app].
      destruct (pr_file_name r) as [s|]; cbn [option_truthy];
        [destruct (truthy s)|]; rewrite <- ?app_assoc; reflexivity.
    + intros y Hy; apply Hv; right; exact Hy.
    + exact Hnd'.
    + intros y Hy; rewrite (dict_set_fresh _ _ _ Hk).
      unfold dict_keys; rewrite map_app, in_app_iff; cbn [map fst In].
      intros [H|[H|[]]].
      * apply (Hfresh y); [right; exact Hy | exact H].
      * apply Hn; rewrite H; apply in_map; exact Hy.
Qed.

Lemma process_results_success results :
  (forall x, In x results -> exists r, x = inr r /\ pr_error r = None) ->
  NoDup (map result_type results) ->
  process_results results
  = Ok (flat_map
          (fun x =>
             match x with
             | inr r =>
                 match pr_file_name r with
                 | Some s => if truthy s then [s] else []
                 | None => []
                 end
             | inl _ => []
             end) results,
        map (fun x =>
               (result_type x,
                match x with
                | inr r => pr_question_data r
                | inl _ => None
                end)) results).
Proof.
  intros Hv Hnd; unfold process_results.
  apply (process_results_from results [] [] Hv Hnd).
  intros x _ [].
Qed.

Lemma forall_of_positions {Q} (P : Q -> Prop) (records : list Q)
    (blocks : list string) :
  List.length records = List.length blocks ->
  (forall i block, nth_error blocks i = Some block ->
     exists q, nth_error records i = Some q /\ P q) ->
  forall q, In q records -> P q.
Proof.
  intros Hlen Hall q Hin.
  apply In_nth_error in Hin as (i & Hi).
  destruct (nth_error blocks i) as [block|] eqn:E.
  - destruct (Hall i block E) as (q' & Hq' & HP); congruence.
  - apply nth_error_None in E.
    assert (i < List.length records)%nat by (apply nth_error_Some; congruence).
    lia.
Qed.

Lemma mcq_block_type sequence uid j block q j' :
  mcq_block sequence uid j block = Ok (q, j') -> mcq_question_type q = "mcq".
Proof.
  unfold mcq_block; intros H.
  apply bind_ok_inv in H as ([qn b1] & _ & H).
  apply bind_ok_inv in H as ([an b2] & _ & H).
  apply bind_ok_inv in H as (ex & _ & H).
  apply bind_ok_inv in H as (ds & _ & H).
  destruct (assign_metadata sequence j) as [[d bl] j0].
  injection H as <- _; reflexivity.
Qed.

(** Every record of a parser carries the tag of its parser. *)
Lemma parsed_records_are_tagged w qt response breakdown records :
  In qt known_types ->
  type_parser w qt response breakdown = Ok records ->
  forall r, In r records ->
    match r with
    | McqRecord q => qt = "mcq" /\ mcq_question_type q = "mcq"
    | FibRecord q => qt = "fib" /\ fib_question_type q = "fib"
    | TfRecord q => qt = "tf" /\ tf_question_type q = "tf"
    end.
Proof.
  intros [<-|[<-|[<-|[]]]]; unfold type_parser; cbn [String.eqb Ascii.eqb Bool.eqb];
    unfold map_ok; intros H; apply bind_ok_inv in H as (l & Hl & H);
    injection H as <-; intros r Hr; apply in_map_iff in Hr as (q & <- & Hq);
    (split; [reflexivity|]).
  - destruct (parse_mcq_response_spec (uuid4 w "mcq") response breakdown)
      as (records & Hp & Hlen & Hall).
    rewrite Hl in Hp; injection Hp as <-.
    apply (forall_of_positions (fun q => mcq_question_type q = "mcq") l _ Hlen);
      [|exact Hq].
    intros i block Hb; destruct (Hall i block Hb) as (q' & Hq' & _ & Hm & _).
    exists q'; split; [exact Hq' | exact (mcq_block_type _ _ _ _ _ _ Hm)].
  - destruct (parse_blocks_spec (uuid4 w "fib")
                (fib_block (isdigit_nonascii w)
                   (create_question_sequence breakdown))
                (create_question_sequence breakdown) pair_of_fib
                (fun uid j block q => fib_question_type q = "fib"))
      with (blocks := surviving_blocks "QUESTION:" response)
      as (records & Hp & Hlen & Hall).
    { intros uid j block.
      destruct (fib_block_spec (isdigit_nonascii w)
                  (create_question_sequence breakdown) uid j block)
        as (q' & H1 & H2 & _ & H4 & _).
      exists q'; auto. }
    unfold parse_fib_response in Hl; rewrite Hl in Hp; injection Hp as <-.
    apply (forall_of_positions (fun q => fib_question_type q = "fib") l _ Hlen);
      [|exact Hq].
    intros i block Hb; destruct (Hall i block Hb) as (q' & Hq' & _ & Ht).
    eauto.
  - destruct (parse_blocks_spec (uuid4 w "tf")
                (tf_block (create_question_sequence breakdown))
                (create_question_sequence breakdown) pair_of_tf
                (fun uid j block q => tf_question_type q = "tf"))
      with (blocks := surviving_blocks "STATEMENT:" response)
      as (records & Hp & Hlen & Hall).
    { intros uid j block.
      destruct (tf_block_spec (create_question_sequence breakdown) uid j block)
        as (q' & H1 & H2 & _ & H4 & _).
      exists q'; auto. }
    unfold parse_tf_response in Hl; rewrite Hl in Hp; injection Hp as <-.
    apply (forall_of_positions (fun q => tf_question_type q = "tf") l _ Hlen);
      [|exact Hq].
    intros i block Hb; destruct (Hall i block Hb) as (q' & Hq' & _ & Ht).
    eauto.
Qed.

Lemma group_members question_dist qt configs :
  In (qt, configs) (_group_by_question_type question_dist) ->
  configs = configs_of qt question_dist /\ In qt (types_of question_dist).
Proof.
  rewrite groups_closed_form; intros H.
  apply in_map_iff in H as (qt' & E & Hin); injection E as -> <-.
  split; [reflexivity|].
  apply (proj2 (first_seen_facts (types_of question_dist))); exact Hin.
Qed.

Lemma configs_of_in qt dist c :
  In c (configs_of qt dist)
  <-> exists k, In (k, c) dist /\ question_type c = qt.
Proof.
  unfold configs_of, restrict_to_type; rewrite in_map_iff; split.
  - intros ([k e] & <- & H); apply filter_In in H as [Hin Ht].
    apply String.eqb_eq in Ht; eauto.
  - intros (k & Hin & <-); exists (k, c); split; [reflexivity|].
    apply filter_In; split; [exact Hin | apply String.eqb_refl].
Qed.

Lemma configs_total_le qt dist :
  (forall k e, In (k, e) dist -> 0 <= count e) ->
  total_for_type (configs_of qt dist) <= allocated dist.
Proof.
  unfold total_for_type, configs_of, restrict_to_type, allocated, dict_values,
    sum_Z.
  induction dist as [|[k e] dist IH]; intros H; cbn [filter map fold_right snd];
    [lia|].
  assert (0 <= count e) by (apply (H k); left; reflexivity).
  assert (IH' := IH (fun k' e' Hin => H k' e' (or_intror Hin))).
  destruct (String.eqb (question_type e) qt); cbn [map fold_right snd]; lia.
Qed.

(** The groups of a returned allocation of at most a hundred questions
    have their combined proportions computed without error. *)
Lemma allocation_groups_ok total qd dd bd alloc qt configs :
  calculate_question_distribution total qd dd bd = Ok alloc ->
  allocated alloc <= 100 ->
  In (qt, configs) (_group_by_question_type alloc) ->
  exists d b, type_distributions configs = Ok (d, b).
Proof.
  intros Hc Hle Hin.
  destruct (allocation_entry_facts _ _ _ _ _ Hc) as (_ & Hfacts).
  destruct (group_members _ _ _ Hin) as (-> & Hqt).
  assert (Hpos : forall c, In c (configs_of qt alloc) -> 1 <= count c).
  { intros c Hcin; apply configs_of_in in Hcin as (k & Hk & _).
    apply (Hfacts k c Hk). }
  apply type_distributions_ok.
  - intros c Hcin; specialize (Hpos c Hcin); lia.
  - split.
    + unfold types_of in Hqt; apply in_map_iff in Hqt as ([k e] & <- & He).
      assert (Hcin : In e (configs_of (question_type e) alloc))
        by (apply configs_of_in; eauto).
      assert (count e <= total_for_type (configs_of (question_type e) alloc)).
      { apply count_le_total; [|exact Hcin].
        intros c Hc'; specialize (Hpos c Hc'); lia. }
      specialize (Hpos e Hcin); lia.
    + assert (total_for_type (configs_of qt alloc) <= allocated alloc); [|lia].
      apply configs_total_le; intros k e He.
      destruct (Hfacts k e He); lia.
Qed.

Lemma forall2_right {A B} (R : A -> B -> Prop) (l : list A) (l' : list B) :
  Forall2 R l l' -> forall y, In y l' -> exists x, In x l /\ R x y.
Proof.
  induction 1 as [|x y l l' Hxy HF IH]; intros z []; subst.
  - exists x; split; [left; reflexivity | exact Hxy].
  - destruct (IH z H) as (x' & Hx' & Hr); exists x'; split; [right|]; assumption.
Qed.
(* ================================================================== *)
(** * Fenced text *)
(* ================================================================== *)

Lemma find_sub_no_backtick s :
  has_char "`" s = false -> find_sub fence s = None.
Proof.
  induction s as [|x s IH]; [reflexivity|].
  cbn [has_char]; intros H; apply orb_false_iff in H as [Hx Hs].
  rewrite find_sub_step, (IH Hs); [reflexivity|].
  unfold fence; cbn [strip_prefix]; rewrite Hx; reflexivity.
Qed.

Lemma find_sub_fence pre r :
  has_char "`" pre = false -> find_sub fence (pre ++ fence ++ r) = Some (pre, r).
Proof.
  induction pre as [|x pre IH]; intros H.
  - apply find_sub_prefix, (strip_prefix_app fence r).
  - cbn [has_char] in H; apply orb_false_iff in H as [Hx Hs].
    change (String x pre ++ fence ++ r) with (String x (pre ++ fence ++ r)).
    rewrite find_sub_step, (IH Hs); [reflexivity|].
    unfold fence; cbn [strip_prefix]; rewrite Hx; reflexivity.
Qed.

Lemma findall_no_backtick n s :
  has_char "`" s = false -> findall_fenced n s = [].
Proof.
  intros H; destruct n; [reflexivity|].
  cbn [findall_fenced]; rewrite (find_sub_no_backtick s H); reflexivity.
Qed.

Lemma findall_one n pre opened body post :
  has_char "`" pre = false -> has_char "`" body = false ->
  has_char "`" post = false ->
  match strip_prefix "json" opened with Some r => r | None => opened end
  = body ++ fence ++ post ->
  findall_fenced (S n) (pre ++ fence ++ opened) = [body].
Proof.
  intros Hpre Hbody Hpost E; cbn [findall_fenced].
  rewrite (find_sub_fence pre opened Hpre), E.
  rewrite (find_sub_fence body post Hbody).
  rewrite (findall_no_backtick n post Hpost); reflexivity.
Qed.
(* ================================================================== *)
(** * Content retrieval *)
(* ================================================================== *)

Lemma py_len_nonneg s : 0 <= py_len s.
Proof.
  induction s as [|c s IH]; simpl; [lia|].
  destruct (is_continuation c); lia.
Qed.

Lemma py_take_len n s : py_len (py_take n s) <= Z.of_nat n.
Proof.
  revert n; induction s as [|c s IH]; intros n; simpl; [lia|].
  destruct (is_continuation c) eqn:E.
  - cbn [py_len]; rewrite E; specialize (IH n); lia.
  - destruct n as [|n]; cbn [py_len]; [lia|].
    rewrite E; specialize (IH n); lia.
Qed.

Lemma py_take_prefix n s : exists suffix, s = py_take n s ++ suffix.
Proof.
  revert n; induction s as [|c s IH]; intros n; simpl; [exists ""; reflexivity|].
  destruct (is_continuation c).
  - destruct (IH n) as (suf & Hs); exists suf; simpl; rewrite <- Hs; reflexivity.
  - destruct n as [|n]; [exists (String c s); reflexivity|].
    destruct (IH n) as (suf & Hs); exists suf; simpl; rewrite <- Hs; reflexivity.
Qed.

Lemma slice_to_len s m : 0 <= m -> py_len (slice_to s m) <= m.
Proof.
  intros Hm; unfold slice_to.
  destruct (Z.ltb_spec m 0); [lia|].
  assert (H' := py_take_len (Z.to_nat m) s); lia.
Qed.

Lemma slice_to_prefix s m : exists suffix, s = slice_to s m ++ suffix.
Proof. unfold slice_to; destruct (m <? 0); apply py_take_prefix. Qed.

Lemma fold_append_concat (l : list string) (acc : string) :
  fold_left (fun chapter_text value => chapter_text ++ value) l acc
  = acc ++ String.concat "" l.
Proof.
  revert acc; induction l as [|x l IH]; intros acc; cbn [fold_left].
  - rewrite append_nil_r; reflexivity.
  - rewrite IH, append_assoc; f_equal.
    destruct l; cbn [String.concat]; [rewrite append_nil_r|]; reflexivity.
Qed.

Lemma get_index_for_title_cases title :
  (In title IndexMappingService.get_available_titles ->
   exists index,
     IndexMappingService.get_index_for_title title = Ok index
     /\ In (title, index) IndexMappingService.index_map)
  /\ (~ In title IndexMappingService.get_available_titles ->
      IndexMappingService.get_index_for_title title
      = Raise (mk_exn ValueError
                 ("Title '" ++ title ++ "' not found. Available titles: "
                  ++ "['An Invitation to Health', 'Steps to writing well']"))).
Proof.
  unfold IndexMappingService.get_index_for_title,
    IndexMappingService.get_available_titles; split.
  - intros H.
    destruct (dict_get title IndexMappingService.index_map) as [index|] eqn:E.
    + exists index; split; [reflexivity | exact (dict_get_in _ _ _ E)].
    + exfalso; apply dict_mem_in in H; unfold dict_mem in H.
      rewrite E in H; discriminate.
  - intros H; rewrite (dict_get_none _ _ H); reflexivity.
Qed.

Lemma join_part (l : list string) b :
  In b l -> exists pre post, join "" l = pre ++ b ++ post.
Proof.
  induction l as [|x l IH]; intros H; [destruct H|].
  destruct H as [->|H].
  - destruct l as [|y l]; cbn [join].
    + exists "", ""; rewrite append_nil_r; reflexivity.
    + exists "", ("" ++ join "" (y :: l)); reflexivity.
  - destruct l as [|y l]; [destruct H|].
    destruct (IH H) as (pre & post & E).
    exists (x ++ pre), post.
    change (join "" (x :: y :: l)) with (x ++ "" ++ join "" (y :: l)).
    cbn [append]; rewrite E, append_assoc; reflexivity.
Qed.

Lemma contains_join_part k (l : list string) b :
  In b l -> contains k b = true -> contains k (join "" l) = true.
Proof.
  intros H Hk; destruct (join_part l b H) as (pre & post & ->).
  apply contains_part; exact Hk.
Qed.
(* ================================================================== *)
(** * Rounding never gives NaN *)
(* ================================================================== *)











(* ================================================================== *)
(** * The order of floats *)
(* ================================================================== *)



(* ================================================================== *)
(** * The sort puts larger keys first *)
(* ================================================================== *)



Section Descending.
Context {T : Type}.
Implicit Types (x y : float * T) (l s : list (float * T)).


End Descending.



(* ================================================================== *)
(** * Combinations with keys of their own *)
(* ================================================================== *)








(* ================================================================== *)
(** * The loop over results without a non-empty error *)
(* ================================================================== *)


(* ================================================================== *)
(** * Properties of the allocator *)
(* ================================================================== *)

(** C1, as stated, fails: with [total_questions = 10] and the proportion
    maps [{mcq: 0.5}], [{basic: 1.0}], [{analyze: 1.0}], each holding a
    positive weight, the only combination has exact count [5.0], the
    remainder is [5], one extra unit is given, and the returned counts sum
    to [6]. *)
Lemma counts_need_not_sum_to_total :
  ~ (forall total qd dd bd alloc,
       1 <= total <= 100 ->
       has_positive qd = true -> has_positive dd = true ->
       has_positive bd = true ->
       calculate_question_distribution total qd dd bd = Ok alloc ->
       allocated alloc = total).
Proof.
  intros H.
  specialize (H 10 [("mcq", half)] [("basic", one)] [("analyze", one)]
                [("mcq_basic_analyze", mk_alloc "mcq" "basic" "analyze" 6)]).
  assert (E : 6 = 10); [|discriminate E].
  apply H; try reflexivity; lia.
Qed.

Example half_weight_allocation :
  calculate_question_distribution 10 [("mcq", half)] [("basic", one)]
    [("analyze", one)]
  = Ok [("mcq_basic_analyze", mk_alloc "mcq" "basic" "analyze" 6)].
Proof. vm_compute; reflexivity. Qed.

(** C1 (amended): for [total_questions] in [1..100] and proportion maps
    with non-negative weights, when the products are finite (the three
    loops finish with a table) and the shortfall
    [total - sum of floor(exact)] lies between [0] and the number of
    combinations in the table, [calculate_question_distribution] returns an
    allocation whose counts sum exactly to [total_questions]. *)
Theorem allocation_sums_to_total total qd dd bd tbl :
  1 <= total <= 100 ->
  nonneg_weights qd = true -> nonneg_weights dd = true ->
  nonneg_weights bd = true ->
  fractional_distribution total qd dd bd = Ok tbl ->
  0 <= total - table_total tbl <= Z.of_nat (List.length tbl) ->
  exists alloc,
    calculate_question_distribution total qd dd bd = Ok alloc
    /\ allocated alloc = total.
Proof.
  intros Ht Hq Hd Hb Htbl Hr.
  assert (Hnd := fractional_distribution_nodup _ _ _ _ _ Htbl).
  assert (Hpos : forall k e, In (k, e) tbl -> 0 <= fe_count e).
  { intros k e Hin.
    apply (table_counts_floor total qd dd bd tbl k e); try assumption; lia. }
  destruct (sorted_keys_of_ok tbl) as (sk & Hsk).
  { intros k e Hin; apply float_of_int_small.
    assert (H1 := Hpos _ _ Hin).
    assert (H2 := count_le_table_total _ _ _ Hpos Hin); lia. }
  assert (Hperm := sorted_keys_perm _ _ Hsk).
  set (ks := firstn (Z.to_nat (total - table_total tbl)) sk).
  exists (clean_distribution (bump ks tbl)); split.
  - apply calculate_of_table, allocation_table_intro; assumption.
  - rewrite allocated_clean.
    + rewrite table_total_bump.
      * unfold ks; rewrite length_firstn.
        rewrite (Permutation_length Hperm).
        unfold dict_keys; rewrite length_map; lia.
      * apply nodup_firstn.
        apply (Permutation_NoDup (Permutation_sym Hperm)); assumption.
      * assumption.
      * intros k Hk; apply in_firstn in Hk.
        apply (Permutation_in _ Hperm); assumption.
    + rewrite dict_keys_bump; assumption.
    + intros k e' Hin; apply in_bump in Hin as (e & Hin & [->| ->]);
        [|simpl]; specialize (Hpos _ _ Hin); lia.
Qed.

(** The default request of the schema (scenario A): ten questions over the
    default proportions are allocated in full. *)
Lemma allocation_sums_to_total_witness :
  exists alloc,
    calculate_question_distribution 10 default_types default_difficulty
      default_blooms = Ok alloc
    /\ allocated alloc = 10.
Proof.
  destruct (fractional_distribution 10 default_types default_difficulty
              default_blooms) as [tbl|e] eqn:E;
    [|vm_compute in E; discriminate E].
  apply (allocation_sums_to_total 10 default_types default_difficulty
           default_blooms tbl); try reflexivity; try lia; try exact E.
  vm_compute in E; injection E as <-; vm_compute; split; discriminate.
Defined.

(** C10: for non-negative weights, whenever the allocator returns, (1) what
    it returns is its table without the zero counts; (2) every entry of the
    table records a combination of the cross-product, and its final count
    is [floor(exact)] or [floor(exact) + 1] for that combination's
    [exact = total * type_weight * difficulty_weight * blooms_weight]; and
    (3) for every combination of the cross-product whose key string no
    other combination shares, the count returned under its key (none
    counting as [0]) is [floor(exact)] or [floor(exact) + 1].  No
    combination gets more than one extra unit, whatever the remainder. *)
Theorem final_count_is_floor_or_one_more total qd dd bd tbl' :
  0 <= total ->
  nonneg_weights qd = true -> nonneg_weights dd = true ->
  nonneg_weights bd = true ->
  allocation_table total qd dd bd = Ok tbl' ->
  calculate_question_distribution total qd dd bd
  = Ok (clean_distribution tbl')
  /\ (forall k e', In (k, e') tbl' ->
      exists c x n,
        In c (cross_product qd dd bd) /\ key_of c = k
        /\ exact_of total c = Ok x /\ floor x = Some n
        /\ (fe_count e' = n \/ fe_count e' = n + 1))
  /\ (forall c,
      In c (cross_product qd dd bd) ->
      (forall c', In c' (cross_product qd dd bd) ->
                  key_of c' = key_of c -> c' = c) ->
      exists x n,
        exact_of total c = Ok x /\ floor x = Some n
        /\ (count_in (clean_distribution tbl') (key_of c) = n
            \/ count_in (clean_distribution tbl') (key_of c) = n + 1)).
Proof.
  intros Ht Hq Hd Hb H.
  split; [apply calculate_of_table; assumption|].
  apply allocation_table_inv in H as (tbl & sk & Htbl & Hsk & ->).
  assert (Hnd := fractional_distribution_nodup _ _ _ _ _ Htbl).
  split.
  - intros k e' Hin; apply in_bump in Hin as (e & Hin & He').
    destruct (fractional_distribution_entries _ _ _ _ _ _ _ Htbl Hin)
      as (c & Hc & Hk & He).
    destruct (table_counts_floor total qd dd bd tbl k e) as [Hfl _];
      try assumption.
    apply stored_entry_inv in He as (x & Hx & _ & Hex & _).
    exists c, x, (fe_count e); rewrite <- Hex.
    repeat split; try assumption; try congruence.
    destruct He' as [->| ->]; [left | right]; reflexivity.
  - intros c Hc Huniq.
    destruct (unshared_key_entry _ _ _ _ _ _ Htbl Hc Huniq) as (e & He & Hget).
    destruct (table_counts_floor total qd dd bd tbl (key_of c) e) as [Hfl Hpos];
      try assumption; [apply dict_get_in; assumption|].
    apply stored_entry_inv in He as (x & Hx & _ & Hex & _).
    exists x, (fe_count e); rewrite <- Hex.
    repeat split; try assumption; try congruence.
    rewrite count_in_clean by (rewrite dict_keys_bump; assumption).
    rewrite dict_get_bump, Hget.
    destruct (existsb _ _); simpl.
    + destruct (Z.gtb_spec (fe_count e + 1) 0); [right; reflexivity | lia].
    + destruct (Z.gtb_spec (fe_count e) 0); left; lia.
Qed.

(** In the default request the combination (mcq, basic, remember) has the
    exact count [0.36] and is returned no question: its floor. *)
Lemma final_count_is_floor_or_one_more_witness :
  let c := (("mcq", lit 4 10), ("basic", lit 3 10), ("remember", lit 3 10)) in
  match allocation_table 10 default_types default_difficulty default_blooms with
  | Ok tbl' =>
      exists x n,
        exact_of 10 c = Ok x /\ floor x = Some n
        /\ (count_in (clean_distribution tbl') (key_of c) = n
            \/ count_in (clean_distribution tbl') (key_of c) = n + 1)
  | Raise _ => False
  end.
Proof.
  intros c.
  destruct (allocation_table 10 default_types default_difficulty default_blooms)
    as [tbl'|e] eqn:E; [|vm_compute in E; discriminate E].
  apply (proj2 (proj2 (final_count_is_floor_or_one_more 10 default_types
                         default_difficulty default_blooms tbl'
                         ltac:(lia) eq_refl eq_refl eq_refl E))).
  - vm_compute; tauto.
  - apply plain_labels_unshared;
      [split; [repeat constructor; simpl; intuition discriminate | reflexivity]..
      | repeat constructor; simpl; intuition discriminate
      | vm_compute; tauto].
Defined.


Example shared_key_allocation :
  calculate_question_distribution 1 shared_key_types shared_key_difficulty
    shared_key_blooms
  = Ok [("a_b_c_x", mk_alloc "a" "b_c" "x" 1)].
Proof. vm_compute; reflexivity. Qed.



Example skewed_extra_units :
  match allocation_table 4 only_mcq skewed_difficulty skewed_blooms with
  | Ok tbl' =>
      map key_of
        (filter (given_extra 4 tbl')
           (cross_product only_mcq skewed_difficulty skewed_blooms))
      = ["mcq_basic_apply"; "mcq_basic_analyze"; "mcq_intermediate_remember"]
  | Raise _ => False
  end.
Proof. vm_compute; reflexivity. Qed.

(** C6, as stated, fails: with the all-zero map [{mcq: 0.0}] and
    [total_questions = 2] the allocator returns an allocation (one question
    for the only combination) instead of failing. *)
Lemma all_zero_map_returns_an_allocation :
  ~ (forall total qd dd bd,
       all_zero qd = true \/ all_zero dd = true \/ all_zero bd = true ->
       exists e, calculate_question_distribution total qd dd bd = Raise e).
Proof.
  intros H.
  destruct (H 2 [("mcq", zero)] [("basic", one)] [("remember", one)])
    as (e & He); [left; reflexivity|].
  vm_compute in He; discriminate He.
Qed.

(** C6 (amended): if any of the three proportion maps is all-zero, every
    exact count is a zero or NaN and the allocator does not reject the
    maps: when the loops finish it returns the allocation that gives
    exactly one question to each of the first [total_questions]
    combinations of the table (all of them when there are fewer), in
    first-seen order; the only failures are the [ValueError] of [int(NaN)]
    (a zero weight multiplied with an infinite factor) and the
    [OverflowError] of converting [total_questions] to a float. *)
Theorem all_zero_map_is_not_rejected total qd dd bd :
  all_zero qd = true \/ all_zero dd = true \/ all_zero bd = true ->
  match calculate_question_distribution total qd dd bd with
  | Ok alloc =>
      exists tbl,
        fractional_distribution total qd dd bd = Ok tbl
        /\ alloc = map one_each (firstn (Z.to_nat total) tbl)
  | Raise e => e = nan_error \/ e = int_too_large
  end.
Proof.
  intros Hz.
  destruct (fractional_distribution total qd dd bd) as [tbl|e] eqn:E.
  - assert (Hent := fun k e => all_zero_entries total qd dd bd tbl k e Hz E).
    assert (Hcount : forall k e, In (k, e) tbl -> fe_count e = 0)
      by (intros k e Hin; apply (Hent k e Hin)).
    assert (Hsk := all_zero_sorted_keys tbl Hent).
    assert (Hnd := fractional_distribution_nodup _ _ _ _ _ E).
    rewrite (calculate_of_table _ _ _ _ _
               (allocation_table_intro _ _ _ _ _ _ E Hsk)).
    rewrite (table_total_zero _ Hcount), Z.sub_0_r.
    exists tbl; split; [reflexivity|].
    apply all_zero_clean; assumption.
  - unfold calculate_question_distribution, allocation_table.
    rewrite E; simpl.
    rewrite fractional_distribution_flat in E.
    apply for_each_raise in E as (c & tbl & Hc & Hs).
    eapply all_zero_store_raise; eassumption.
Qed.

(** Two questions over [{mcq: 0.0}], [{basic: 1.0}], [{remember: 1.0}]: the
    only combination is returned with one question. *)
Lemma all_zero_map_is_not_rejected_witness :
  calculate_question_distribution 2 [("mcq", zero)] [("basic", one)]
    [("remember", one)]
  = Ok [("mcq_basic_remember", mk_alloc "mcq" "basic" "remember" 1)].
Proof.
  assert (H := all_zero_map_is_not_rejected 2 [("mcq", zero)] [("basic", one)]
                 [("remember", one)] (or_introl eq_refl)).
  destruct (calculate_question_distribution 2 _ _ _) as [alloc|e] eqn:E;
    [|vm_compute in E; discriminate E].
  destruct H as (tbl & Htbl & ->).
  vm_compute in Htbl; injection Htbl as <-; reflexivity.
Defined.

(* ================================================================== *)
(** * Properties of the parsers *)
(* ================================================================== *)

(** C3: for every completion text and every generation sequence the MCQ
    parser does not fail and returns one record per surviving block, in
    textual order: the [i]-th record is the one the loop body builds from
    the [i]-th block.  It carries the [i]-th pair of the sequence when [i]
    is below the sequence length, and empty difficulty and level fields
    beyond it; so a text with as many blocks as the sequence is long
    yields records carrying exactly the pairs of the sequence, in order. *)
Theorem blocks_are_paired_by_position uuid4 response_text question_breakdown :
  let blocks := surviving_blocks "QUESTION:" response_text in
  let sequence := create_question_sequence question_breakdown in
  exists records,
    parse_mcq_response uuid4 response_text question_breakdown = Ok records
    /\ List.length records = List.length blocks
    /\ (forall i block, nth_error blocks i = Some block ->
          exists q,
            nth_error records i = Some q
            /\ mcq_block sequence (uuid4 i)
                 (Nat.min i (List.length sequence)) block
               = Ok (q, Nat.min (S i) (List.length sequence)))
    /\ (forall i q, nth_error records i = Some q ->
          (i < List.length sequence)%nat ->
          nth_error sequence i = Some (mcq_difficulty q, mcq_blooms_level q))
    /\ (forall i q, nth_error records i = Some q ->
          (List.length sequence <= i)%nat ->
          mcq_difficulty q = "" /\ mcq_blooms_level q = "")
    /\ (List.length blocks = List.length sequence ->
          map pair_of_mcq records = sequence).
Proof.
  intros blocks sequence.
  destruct (parse_mcq_response_spec uuid4 response_text question_breakdown)
    as (records & Hp & Hlen & Hall).
  fold blocks in Hlen, Hall; fold sequence in Hall.
  assert (Hpair : forall i q, nth_error records i = Some q ->
                              pair_of_mcq q = pair_at sequence i).
  { intros i q Hq.
    destruct (nth_error blocks i) as [block|] eqn:E.
    - destruct (Hall i block E) as (q' & Hq' & Hm & _); congruence.
    - apply nth_error_None in E.
      assert (i < List.length records)%nat
        by (apply nth_error_Some; congruence).
      lia. }
  exists records; repeat split; try assumption.
  - intros i block Hb; destruct (Hall i block Hb) as (q & Hq & _ & Hm & _).
    exists q; split; assumption.
  - intros i q Hq Hi.
    change (mcq_difficulty q, mcq_blooms_level q) with (pair_of_mcq q).
    rewrite (Hpair i q Hq).
    unfold pair_at; apply nth_error_nth'; assumption.
  - assert (E := Hpair i q H); unfold pair_at in E.
    rewrite nth_overflow in E by assumption; injection E as -> _; reflexivity.
  - assert (E := Hpair i q H); unfold pair_at in E.
    rewrite nth_overflow in E by assumption; injection E as _ ->; reflexivity.
  - intros Hn; apply nth_error_ext; intros i.
    rewrite nth_error_map.
    destruct (nth_error records i) as [q|] eqn:E; simpl.
    + rewrite (Hpair i q E); unfold pair_at; symmetry.
      apply nth_error_nth'.
      assert (i < List.length records)%nat
        by (apply nth_error_Some; congruence).
      lia.
    + symmetry; apply nth_error_None.
      apply nth_error_None in E; lia.
Qed.

(** Scenario B: two well-formed blocks against the two-element sequence
    [(basic, remember), (advanced, analyze)]. *)
Example scenario_B_parses :
  parse_mcq_response decimal_ids scenario_B scenario_B_breakdown
  = Ok [mk_mcq "0" "Q1" "A1" "E1" [] "basic" "remember" "mcq";
        mk_mcq "1" "Q2" "A2" "E2" [] "advanced" "analyze" "mcq"].
Proof. vm_compute; reflexivity. Qed.

(** C8: the MCQ parser never fails, whatever the text; it returns one
    record per candidate block, and a block that lacks ["EXPLANATION:"]
    gives a record with an empty explanation, one that lacks ["ANSWER:"] a
    record with an empty answer, one that lacks every distractor key a
    record without distractors. *)
Theorem missing_delimiters_leave_empty_fields uuid4 response_text
    question_breakdown :
  exists records,
    parse_mcq_response uuid4 response_text question_breakdown = Ok records
    /\ List.length records
       = List.length (surviving_blocks "QUESTION:" response_text)
    /\ forall i block,
         nth_error (surviving_blocks "QUESTION:" response_text) i = Some block ->
         exists q,
           nth_error records i = Some q
           /\ (contains "EXPLANATION:" block = false -> mcq_explanation q = "")
           /\ (contains "ANSWER:" block = false -> mcq_answer q = "")
           /\ (forallb (fun key => negb (contains key block)) distractor_keys
               = true -> mcq_distractors q = []).
Proof.
  destruct (parse_mcq_response_spec uuid4 response_text question_breakdown)
    as (records & Hp & Hlen & Hall).
  exists records; repeat split; try assumption.
  intros i block Hb; destruct (Hall i block Hb) as (q & Hq & _ & _ & Hl).
  exists q; split; assumption.
Qed.

(** A block without ["EXPLANATION:"]: the record keeps its question and has
    an empty explanation. *)
Example missing_explanation_parses :
  parse_mcq_response decimal_ids "QUESTION: Q1 ANSWER: A1" scenario_B_breakdown
  = Ok [mk_mcq "0" "Q1" "" "" [] "basic" "remember" "mcq"].
Proof. vm_compute; reflexivity. Qed.

(** C9 fails on the code: the line ["2 cats. 3 dogs"] does not start with
    digits followed by [". "], yet its text up to the first [". "] is
    removed and only ["3 dogs"] is kept: the check looks at the first
    character and at an occurrence of [". "] anywhere in the line. *)
Theorem unnumbered_line_loses_its_start isdigit_nonascii uuid4 :
  parse_fib_response isdigit_nonascii uuid4 numbered_line_text []
  = Ok [mk_fib (uuid4 O) "Pets ________" ["3 dogs"] "e" "" "" "fib"].
Proof. vm_compute; reflexivity. Qed.

(* ================================================================== *)
(** * Properties of the pipelines and of the orchestrator *)
(* ================================================================== *)

(** C4: a question-type pipeline always returns a tuple for its type,
    either a success without error or the failure
    [(question_type, None, None, message)].  Whatever exception its body
    raises, at any stage, is returned as that failure with [str(e)] as the
    error: an unknown question type, missing content, a failing allocation,
    a failing completion call (as "LLM completion error: ..."), and a
    parser that returns no record, which makes the generator raise its
    "No valid ..." error: a failure, not an empty success. *)
Theorem pipeline_failures_are_returned w qt configs chapter_content
    chapter_name content_id learning_objectives dd bd max_chunks max_chars :
  let body :=
    single_question_type_body w qt configs chapter_content chapter_name
      content_id learning_objectives dd bd max_chunks max_chars in
  let returned :=
    _generate_single_question_type_sync w qt configs chapter_content
      chapter_name content_id learning_objectives dd bd max_chunks max_chars in
  pr_question_type returned = qt
  /\ ((exists file_name records,
         returned = mk_pipeline qt (Some file_name) (Some records) None)
      \/ exists msg, returned = failed qt msg)
  /\ (forall e, body = Raise e -> returned = failed qt (exn_msg e))
  /\ (~ In qt known_types ->
      returned = failed qt ("Unknown question type: " ++ qt))
  /\ (In qt known_types -> truthy chapter_content = false ->
      returned = failed qt (no_content_message chapter_name content_id))
  /\ (forall breakdown e,
        In qt known_types -> truthy chapter_content = true ->
        calculate_question_distribution (total_for_type configs) [(qt, one)]
          dd bd = Ok breakdown ->
        stream_complete w
          (mk_prompt qt chapter_content (total_for_type configs) breakdown
             dd bd) = Raise e ->
        returned = failed qt ("LLM completion error: " ++ exn_msg e))
  /\ (forall breakdown response,
        In qt known_types -> truthy chapter_content = true ->
        calculate_question_distribution (total_for_type configs) [(qt, one)]
          dd bd = Ok breakdown ->
        stream_complete w
          (mk_prompt qt chapter_content (total_for_type configs) breakdown
             dd bd) = Ok response ->
        type_parser w qt response breakdown = Ok [] ->
        returned = failed qt (nothing_parsed qt)).
Proof.
  intros body returned.
  assert (Hraise : forall e, body = Raise e -> returned = failed qt (exn_msg e)).
  { intros e He; subst returned; unfold _generate_single_question_type_sync.
    fold body; rewrite He; reflexivity. }
  assert (Hok : forall r, body = Ok r ->
            exists file_name records,
              returned = mk_pipeline qt (Some file_name) (Some records) None).
  { intros r Hr; subst returned; unfold _generate_single_question_type_sync.
    fold body; rewrite Hr.
    subst body; unfold single_question_type_body in Hr.
    apply bind_ok_inv in Hr as (g & _ & Hr); injection Hr as <-; eauto. }
  split.
  { destruct body as [r|e] eqn:E.
    - destruct (Hok r eq_refl) as (f & rs & ->); reflexivity.
    - rewrite (Hraise e eq_refl); reflexivity. }
  split.
  { destruct body as [r|e] eqn:E; [left; eauto | right; eauto]. }
  split; [exact Hraise|].
  split.
  { intros Hqt; apply (Hraise (mk_exn ValueError _)).
    apply single_question_type_body_unknown; assumption. }
  split.
  { intros Hqt Hc; apply (Hraise (mk_exn ValueError _)).
    subst body; rewrite single_question_type_body_known by assumption.
    rewrite generate_no_content by assumption; reflexivity. }
  split.
  { intros breakdown e Hqt Hc Hb Hs; apply (Hraise (mk_exn ExceptionOther _)).
    subst body; rewrite single_question_type_body_known by assumption.
    erewrite generate_completion_error by eassumption; reflexivity. }
  intros breakdown response Hqt Hc Hb Hs Hp.
  apply (Hraise (mk_exn ValueError _)).
  subst body; rewrite single_question_type_body_known by assumption.
  erewrite generate_nothing_parsed by eassumption; reflexivity.
Qed.

(** In a world of empty completions the fill-in-blank pipeline returns its
    "No valid ..." failure as data. *)
Lemma pipeline_failures_are_returned_witness :
  _generate_single_question_type_sync silent_world "fib"
    [mk_alloc "fib" "basic" "apply" 2] "chapter text" "Chapter 1" "Book"
    NoObjectives [("basic", one)] [("apply", one)] 200 100000
  = failed "fib"
      "No valid fill-in-the-blank questions could be parsed from LLM response".
Proof.
  destruct (pipeline_failures_are_returned silent_world "fib"
              [mk_alloc "fib" "basic" "apply" 2] "chapter text"
              "Chapter 1" "Book" NoObjectives [("basic", one)]
              [("apply", one)] 200 100000) as (_ & _ & _ & _ & _ & _ & H).
  apply (H [("fib_basic_apply", mk_alloc "fib" "basic" "apply" 2)] "").
  - right; left; reflexivity.
  - reflexivity.
  - vm_compute; reflexivity.
  - reflexivity.
  - vm_compute; reflexivity.
Defined.


(** The response in that world: two files, and no data for [tf]. *)
Example empty_error_message_response :
  let response := generate_questions empty_message_world default_request "src" in
  status response = "success"
  /\ List.length (files_generated response) = 2%nat
  /\ dict_get "tf" (data response) = Some None.
Proof. vm_compute; repeat split. Qed.



(* ================================================================== *)
(** * The per-type sequence against the global allocation *)
(* ================================================================== *)

(** C2, as stated, fails: for four MCQs over difficulty weights
    [0.5, 0.25, 0.25] and level weights [0.5, 0.25, 0.25] the global
    allocation restricted to [mcq] gives the sequence (basic, remember),
    (basic, apply), (basic, analyze), (intermediate, remember), while the
    MCQ parser pairs against (basic, remember), (basic, remember),
    (basic, apply), (basic, analyze): the generator re-allocates from the
    combined proportions the orchestrator passes. *)
Lemma pipeline_sequence_differs :
  ~ (forall request qt sequence,
       pipeline_sequence request qt = Ok sequence ->
       restricted_sequence request qt = Ok sequence).
Proof.
  intros H.
  specialize (H skewed_request "mcq"
                [("basic", "remember"); ("basic", "remember");
                 ("basic", "apply"); ("basic", "analyze")]).
  assert (E : restricted_sequence skewed_request "mcq"
              = Ok [("basic", "remember"); ("basic", "apply");
                    ("basic", "analyze"); ("intermediate", "remember")])
    by (vm_compute; reflexivity).
  rewrite E in H.
  assert (F : Ok [("basic", "remember"); ("basic", "apply");
                  ("basic", "analyze"); ("intermediate", "remember")]
              = Ok [("basic", "remember"); ("basic", "remember");
                    ("basic", "apply"); ("basic", "analyze")]);
    [apply H; vm_compute; reflexivity | discriminate F].
Qed.

Example skewed_sequences :
  pipeline_sequence skewed_request "mcq"
  = Ok [("basic", "remember"); ("basic", "remember");
        ("basic", "apply"); ("basic", "analyze")]
  /\ restricted_sequence skewed_request "mcq"
     = Ok [("basic", "remember"); ("basic", "apply");
           ("basic", "analyze"); ("intermediate", "remember")].
Proof. split; vm_compute; reflexivity. Qed.

(** C2 (amended): the sequence builder repeats each entry's
    (difficulty, blooms_level) pair [count] times, entries in iteration
    order, for whatever allocation it is given; in a run of the
    orchestrator it is given the allocation the type's generator recomputes
    from the type's total and combined proportions.  When the global
    allocation restricted to the type is a single entry with a count in
    [1..100], that sequence is the entry's pair repeated [count] times: the
    sequence of the restricted global allocation. *)
Theorem single_entry_type_keeps_its_sequence request qt question_dist key e :
  global_allocation request = Ok question_dist ->
  restrict_to_type qt question_dist = [(key, e)] ->
  1 <= count e <= 100 ->
  (forall breakdown,
     create_question_sequence breakdown = repeated_pairs breakdown)
  /\ pipeline_sequence request qt
     = Ok (repeat (difficulty e, blooms_level e) (Z.to_nat (count e)))
  /\ restricted_sequence request qt = pipeline_sequence request qt.
Proof.
  intros Hg Hr Hn.
  split; [apply create_question_sequence_repeated|].
  assert (Hqt : question_type e = qt).
  { assert (Hin : In (key, e) (restrict_to_type qt question_dist))
      by (rewrite Hr; left; reflexivity).
    apply filter_In in Hin as [_ Hin]; apply String.eqb_eq; assumption. }
  assert (P : pipeline_sequence request qt
              = Ok (repeat (difficulty e, blooms_level e)
                           (Z.to_nat (count e)))).
  { unfold pipeline_sequence, _group_by_question_type.
    rewrite Hg; cbn [bind]; rewrite group_get, Hr; cbn [dict_get map snd].
    destruct e as [qt' d b n]; cbn in Hqt, Hn |- *; subst qt'.
    rewrite (generator_breakdown_single qt d b n Hn); cbn [bind].
    rewrite create_question_sequence_repeated; unfold repeated_pairs.
    cbn [flat_map difficulty blooms_level count].
    rewrite app_nil_r; reflexivity. }
  split; [exact P|].
  rewrite P; unfold restricted_sequence; rewrite Hg; cbn [bind]; rewrite Hr.
  rewrite create_question_sequence_repeated; unfold repeated_pairs.
  cbn [flat_map]; rewrite app_nil_r; reflexivity.
Qed.

(** Three MCQs at one difficulty and one level: the parser pairs against
    three times (basic, apply). *)
Lemma single_entry_type_keeps_its_sequence_witness :
  pipeline_sequence uniform_request "mcq"
  = Ok [("basic", "apply"); ("basic", "apply"); ("basic", "apply")].
Proof.
  apply (proj1 (proj2 (single_entry_type_keeps_its_sequence uniform_request
                         "mcq"
                         [("mcq_basic_apply", mk_alloc "mcq" "basic" "apply" 3)]
                         "mcq_basic_apply" (mk_alloc "mcq" "basic" "apply" 3)
                         ltac:(vm_compute; reflexivity) eq_refl
                         ltac:(simpl; lia)))).
Defined.


(* ================================================================== *)
(** * Further properties of the allocator and of the sequence builder *)
(* ================================================================== *)

(** X1: whatever [calculate_question_distribution] returns has distinct
    keys, and every entry has a count of at least one, is stored under the
    key [type_difficulty_blooms] made of its own labels, and carries labels
    taken from the three proportion maps: entries with a zero count are
    never returned. *)
Theorem allocation_entries_are_positive total qd dd bd alloc :
  calculate_question_distribution total qd dd bd = Ok alloc ->
  NoDup (dict_keys alloc)
  /\ forall k a, In (k, a) alloc ->
       1 <= count a
       /\ k = combo_key (question_type a) (difficulty a) (blooms_level a)
       /\ In (question_type a) (dict_keys qd)
       /\ In (difficulty a) (dict_keys dd)
       /\ In (blooms_level a) (dict_keys bd).
Proof. exact (allocation_entry_facts total qd dd bd alloc). Qed.

(** The default request: the allocation of ten questions. *)
Lemma allocation_entries_are_positive_witness :
  match calculate_question_distribution 10 default_types default_difficulty
          default_blooms with
  | Ok alloc =>
      NoDup (dict_keys alloc)
      /\ forall k a, In (k, a) alloc ->
           1 <= count a
           /\ k = combo_key (question_type a) (difficulty a) (blooms_level a)
           /\ In (question_type a) (dict_keys default_types)
           /\ In (difficulty a) (dict_keys default_difficulty)
           /\ In (blooms_level a) (dict_keys default_blooms)
  | Raise _ => False
  end.
Proof.
  destruct (calculate_question_distribution 10 default_types
              default_difficulty default_blooms) as [alloc|e] eqn:E;
    [|vm_compute in E; discriminate E].
  exact (allocation_entries_are_positive 10 default_types default_difficulty
           default_blooms alloc E).
Defined.

(** X2: when one of the three proportion maps is empty the loops store
    nothing, the remainder loop finds no key to serve, and the allocator
    returns the empty allocation, for every [total_questions]: it raises
    nothing and allocates nothing. *)
Theorem empty_map_gives_empty_allocation total qd dd bd :
  qd = [] \/ dd = [] \/ bd = [] ->
  calculate_question_distribution total qd dd bd = Ok [].
Proof.
  intros H; apply calculate_of_empty_table.
  rewrite fractional_distribution_flat, (cross_product_empty _ _ _ H).
  reflexivity.
Qed.

(** Five questions over no difficulty at all. *)
Lemma empty_map_gives_empty_allocation_witness :
  calculate_question_distribution 5 default_types [] default_blooms = Ok [].
Proof.
  apply (empty_map_gives_empty_allocation 5 default_types [] default_blooms).
  right; left; reflexivity.
Defined.

(** X3: zero questions over finite weights give the empty allocation:
    every exact count is a zero, nothing is left to distribute and every
    combination is dropped. *)
Theorem zero_total_gives_empty_allocation qd dd bd :
  finite_weights qd = true -> finite_weights dd = true ->
  finite_weights bd = true ->
  calculate_question_distribution 0 qd dd bd = Ok [].
Proof.
  intros Hq Hd Hb.
  assert (Hall : forall c, In c (cross_product qd dd bd) ->
            exists e, stored_entry 0 c = Ok e
                      /\ is_zero (fe_exact_count e) = true /\ fe_count e = 0).
  { intros c Hc; apply zero_total_stored.
    exact (cross_product_finite _ _ _ _ Hq Hd Hb Hc). }
  destruct (for_each_all_ok (cross_product qd dd bd) (store 0)) with (s := @nil (string * frac_entry))
    as (tbl & Htbl).
  { intros s c Hc; destruct (Hall c Hc) as (e & He & _).
    unfold store; rewrite He; cbn [bind]; eauto. }
  rewrite <- fractional_distribution_flat in Htbl.
  assert (Hz : forall k e, In (k, e) tbl ->
            is_zero (fe_exact_count e) = true /\ fe_count e = 0).
  { intros k e Hin.
    destruct (fractional_distribution_entries _ _ _ _ _ _ _ Htbl Hin)
      as (c & Hc & _ & Hs).
    destruct (Hall c Hc) as (e' & He' & Hz); rewrite He' in Hs.
    injection Hs as <-; exact Hz. }
  rewrite (calculate_of_table _ _ _ _ _
             (allocation_table_intro _ _ _ _ _ _ Htbl
                (all_zero_sorted_keys tbl Hz))).
  rewrite (table_total_zero tbl) by (intros k e Hin; apply (Hz k e Hin)).
  change (Z.to_nat (0 - 0)) with O.
  rewrite (all_zero_clean O tbl (fractional_distribution_nodup _ _ _ _ _ Htbl))
    by (intros k e Hin; apply (Hz k e Hin)).
  reflexivity.
Qed.

(** Zero questions over the default proportions. *)
Lemma zero_total_gives_empty_allocation_witness :
  calculate_question_distribution 0 default_types default_difficulty
    default_blooms = Ok [].
Proof.
  apply (zero_total_gives_empty_allocation default_types default_difficulty
           default_blooms); reflexivity.
Defined.

(** X4: the sequence built from a returned allocation has as many pairs as
    the allocation has questions, and its pairs are exactly the
    (difficulty, blooms_level) pairs of the allocation's entries. *)
Theorem sequence_length_is_allocated total qd dd bd alloc :
  calculate_question_distribution total qd dd bd = Ok alloc ->
  List.length (create_question_sequence alloc) = Z.to_nat (allocated alloc)
  /\ forall p, In p (create_question_sequence alloc)
               <-> exists k a, In (k, a) alloc
                               /\ p = (difficulty a, blooms_level a).
Proof.
  intros H; destruct (allocation_entry_facts _ _ _ _ _ H) as (_ & Hfacts).
  rewrite create_question_sequence_repeated; split.
  - apply repeated_pairs_length; intros k a Hin.
    destruct (Hfacts k a Hin) as (Hc & _); lia.
  - intros p; rewrite repeated_pairs_in; split.
    + intros (k & a & Hin & Hp & _); eauto.
    + intros (k & a & Hin & Hp); exists k, a; repeat split; auto.
      apply (Hfacts k a Hin).
Qed.

(** The default request: ten pairs for ten questions. *)
Lemma sequence_length_is_allocated_witness :
  match calculate_question_distribution 10 default_types default_difficulty
          default_blooms with
  | Ok alloc =>
      List.length (create_question_sequence alloc) = Z.to_nat (allocated alloc)
  | Raise _ => False
  end.
Proof.
  destruct (calculate_question_distribution 10 default_types
              default_difficulty default_blooms) as [alloc|e] eqn:E;
    [|vm_compute in E; discriminate E].
  exact (proj1 (sequence_length_is_allocated 10 default_types
                  default_difficulty default_blooms alloc E)).
Defined.

(* ================================================================== *)
(** * Properties of the file names *)
(* ================================================================== *)

(** X5: the cleaned chapter name that starts every file name is as long as
    the chapter name, holds no space and no slash, and is the chapter name
    itself when that has neither.  When [generate_filename] returns, the
    name is the cleaned chapter name, the two distribution strings, the
    objectives (only when they are truthy: [None], an empty string and an
    empty list add nothing), and the type suffix with [.json], joined by
    underscores; it raises only the error of [int(prop * 100)] for a
    proportion of one of the two maps, and it returns whenever every
    [prop * 100] is finite. *)
Theorem filename_starts_with_clean_chapter_name chapter_name dd bd qt lo :
  let clean := clean_chapter_name chapter_name in
  String.length clean = String.length chapter_name
  /\ contains " " clean = false
  /\ contains "/" clean = false
  /\ (contains " " chapter_name = false -> contains "/" chapter_name = false ->
      clean = chapter_name)
  /\ match generate_filename chapter_name dd bd qt lo with
     | Ok name =>
         exists d b,
           distribution_str dd = Ok d /\ distribution_str bd = Ok b
           /\ name = clean ++ "_" ++ d ++ "_" ++ b ++ objectives_part lo
                     ++ "_" ++ suffix_of qt ++ ".json"
     | Raise e =>
         exists label prop,
           In (label, prop) (dd ++ bd)%list
           /\ int_of_float (fmul prop hundred) = Raise e
     end
  /\ (finite_percent dd = true -> finite_percent bd = true ->
      exists name, generate_filename chapter_name dd bd qt lo = Ok name).
Proof.
  intros clean; subst clean.
  destruct (clean_chapter_name_facts chapter_name) as (H1 & H2 & H3 & H4).
  repeat (split; [assumption|]).
  split; [apply generate_filename_cases|].
  intros Hd Hb.
  destruct (distribution_str_ok dd Hd) as (d & Ed).
  destruct (distribution_str_ok bd Hb) as (b & Eb).
  unfold generate_filename; rewrite Ed, Eb; cbn [bind]; eauto.
Qed.

(** The file of the default request's MCQs. *)
Example default_filename :
  generate_filename "Chapter 1 Taking Charge of Your Health"
    default_difficulty default_blooms "mcq" NoObjectives
  = Ok ("Chapter_1_Taking_Charge_of_Your_Health_"
        ++ "basic30_intermediate30_advanced40_"
        ++ "remember30_apply40_analyze30_mcqs.json").
Proof. vm_compute; reflexivity. Qed.

(* ================================================================== *)
(** * Further properties of the parsers *)
(* ================================================================== *)

(** X6: the true/false parser never fails; it returns one record per
    surviving block of the split at ["STATEMENT:"], in textual order, the
    [i]-th record named by the [i]-th identifier drawn, tagged ["tf"] and
    paired with the [i]-th pair of the sequence (empty difficulty and level
    beyond the sequence); a block without ["ANSWER:"] gives an empty
    statement and an empty answer, a block without ["EXPLANATION:"] an
    empty explanation. *)
Theorem tf_blocks_are_paired_by_position uuid4 response_text
    question_breakdown :
  let blocks := surviving_blocks "STATEMENT:" response_text in
  let sequence := create_question_sequence question_breakdown in
  exists records,
    parse_tf_response uuid4 response_text question_breakdown = Ok records
    /\ List.length records = List.length blocks
    /\ (forall i block, nth_error blocks i = Some block ->
          exists q,
            nth_error records i = Some q
            /\ tf_question_id q = uuid4 i
            /\ tf_question_type q = "tf"
            /\ lenient_tf_fields block q)
    /\ (forall i q, nth_error records i = Some q ->
          (i < List.length sequence)%nat ->
          nth_error sequence i = Some (tf_difficulty q, tf_blooms_level q))
    /\ (forall i q, nth_error records i = Some q ->
          (List.length sequence <= i)%nat ->
          (tf_difficulty q, tf_blooms_level q) = ("", ""))
    /\ (List.length blocks = List.length sequence ->
          map pair_of_tf records = sequence).
Proof.
  intros blocks sequence.
  destruct (parse_blocks_spec uuid4 (tf_block sequence) sequence pair_of_tf
              (fun uid j block q =>
                 tf_question_id q = uid /\ tf_question_type q = "tf"
                 /\ lenient_tf_fields block q)) with (blocks := blocks)
    as (records & Hp & Hlen & Hall).
  { intros uid j block.
    destruct (tf_block_spec sequence uid j block) as (q & H1 & H2 & H3).
    exists q; auto. }
  destruct (pairing_facts pair_of_tf records blocks sequence Hlen)
    as (P1 & P2 & P3).
  { intros i block Hb; destruct (Hall i block Hb) as (q & Hq & Hm & _); eauto. }
  exists records; repeat split; try assumption.
  intros i block Hb; destruct (Hall i block Hb) as (q & Hq & _ & Hr); eauto.
Qed.

(** X7: the fill-in-blank parser never fails; it returns one record per
    surviving block of the split at ["QUESTION:"], in textual order, the
    [i]-th record named by the [i]-th identifier drawn, tagged ["fib"] and
    paired with the [i]-th pair of the sequence (empty difficulty and level
    beyond the sequence); a block without ["ANSWER:"] gives an empty
    question and no answer, a block without ["EXPLANATION:"] an empty
    explanation and no answer. *)
Theorem fib_blocks_are_paired_by_position isdigit_nonascii uuid4
    response_text question_breakdown :
  let blocks := surviving_blocks "QUESTION:" response_text in
  let sequence := create_question_sequence question_breakdown in
  exists records,
    parse_fib_response isdigit_nonascii uuid4 response_text question_breakdown
    = Ok records
    /\ List.length records = List.length blocks
    /\ (forall i block, nth_error blocks i = Some block ->
          exists q,
            nth_error records i = Some q
            /\ fib_question_id q = uuid4 i
            /\ fib_question_type q = "fib"
            /\ lenient_fib_fields block q)
    /\ (forall i q, nth_error records i = Some q ->
          (i < List.length sequence)%nat ->
          nth_error sequence i = Some (fib_difficulty q, fib_blooms_level q))
    /\ (forall i q, nth_error records i = Some q ->
          (List.length sequence <= i)%nat ->
          (fib_difficulty q, fib_blooms_level q) = ("", ""))
    /\ (List.length blocks = List.length sequence ->
          map pair_of_fib records = sequence).
Proof.
  intros blocks sequence.
  destruct (parse_blocks_spec uuid4 (fib_block isdigit_nonascii sequence)
              sequence pair_of_fib
              (fun uid j block q =>
                 fib_question_id q = uid /\ fib_question_type q = "fib"
                 /\ lenient_fib_fields block q)) with (blocks := blocks)
    as (records & Hp & Hlen & Hall).
  { intros uid j block.
    destruct (fib_block_spec isdigit_nonascii sequence uid j block)
      as (q & H1 & H2 & H3).
    exists q; auto. }
  destruct (pairing_facts pair_of_fib records blocks sequence Hlen)
    as (P1 & P2 & P3).
  { intros i block Hb; destruct (Hall i block Hb) as (q & Hq & Hm & _); eauto. }
  exists records; repeat split; try assumption.
  intros i block Hb; destruct (Hall i block Hb) as (q & Hq & _ & Hr); eauto.
Qed.

(** X8: in the MCQ parser a block that holds every field, each field free
    of the five delimiters of a block, is read back field by field: the
    record of that block has the stripped question, answer and
    explanation, and the three stripped distractors, in order. *)
Theorem complete_mcq_block_is_recovered uuid4 response_text question_breakdown
    i q a e d1 d2 d3 :
  nth_error (surviving_blocks "QUESTION:" response_text) i
  = Some (mcq_text q a e d1 d2 d3) ->
  free_of block_keys q = true -> free_of block_keys a = true ->
  free_of block_keys e = true -> free_of block_keys d1 = true ->
  free_of block_keys d2 = true -> free_of block_keys d3 = true ->
  exists records r,
    parse_mcq_response uuid4 response_text question_breakdown = Ok records
    /\ nth_error records i = Some r
    /\ mcq_question r = strip q
    /\ mcq_answer r = strip a
    /\ mcq_explanation r = strip e
    /\ mcq_distractors r = [strip d1; strip d2; strip d3].
Proof.
  intros Hb Hq Ha He H1 H2 H3.
  destruct (parse_mcq_response_spec uuid4 response_text question_breakdown)
    as (records & Hp & _ & Hall).
  destruct (Hall i _ Hb) as (r & Hr & _ & Hm & _).
  rewrite (mcq_block_text _ _ _ q a e d1 d2 d3 Hq Ha He H1 H2 H3) in Hm.
  injection Hm as <- _.
  exists records; eexists; split; [exact Hp|]; split; [exact Hr|];
      repeat split; reflexivity.
Qed.

(** One complete block after the opening delimiter. *)
Lemma complete_mcq_block_is_recovered_witness :
  exists records r,
    parse_mcq_response decimal_ids
      ("QUESTION: Which? ANSWER: This. EXPLANATION: Because. "
       ++ "DISTRACTOR1: One DISTRACTOR2: Two DISTRACTOR3: Three")
      scenario_B_breakdown = Ok records
    /\ nth_error records 0 = Some r
    /\ mcq_question r = "Which?"
    /\ mcq_answer r = "This."
    /\ mcq_explanation r = "Because."
    /\ mcq_distractors r = ["One"; "Two"; "Three"].
Proof.
  exact (complete_mcq_block_is_recovered decimal_ids
           ("QUESTION: Which? ANSWER: This. EXPLANATION: Because. "
            ++ "DISTRACTOR1: One DISTRACTOR2: Two DISTRACTOR3: Three")
           scenario_B_breakdown 0
           "Which? " " This. " " Because. " " One " " Two " " Three"
           eq_refl eq_refl eq_refl eq_refl eq_refl eq_refl eq_refl).
Defined.

(** X9: in the true/false parser a block with a statement, an answer and
    an explanation, each free of ["ANSWER:"] and ["EXPLANATION:"], is read
    back field by field, stripped. *)
Theorem complete_tf_block_is_recovered uuid4 response_text question_breakdown
    i s a e :
  nth_error (surviving_blocks "STATEMENT:" response_text) i
  = Some (answered_text s a e) ->
  free_of answer_keys s = true -> free_of answer_keys a = true ->
  free_of answer_keys e = true ->
  exists records r,
    parse_tf_response uuid4 response_text question_breakdown = Ok records
    /\ nth_error records i = Some r
    /\ tf_statement r = strip s
    /\ tf_answer r = strip a
    /\ tf_explanation r = strip e.
Proof.
  intros Hb Hs Ha He.
  destruct (parse_tf_response_spec uuid4 response_text question_breakdown)
    as (records & Hp & Hall).
  destruct (Hall i _ Hb) as (r & Hr & Hm).
  rewrite (tf_block_text _ _ _ s a e Hs Ha He) in Hm.
  injection Hm as <- _.
  exists records; eexists; split; [exact Hp|]; split; [exact Hr|];
      repeat split; reflexivity.
Qed.

Lemma complete_tf_block_is_recovered_witness :
  exists records r,
    parse_tf_response decimal_ids
      "STATEMENT: Water is wet. ANSWER: TRUE EXPLANATION: It is."
      scenario_B_breakdown = Ok records
    /\ nth_error records 0 = Some r
    /\ tf_statement r = "Water is wet."
    /\ tf_answer r = "TRUE"
    /\ tf_explanation r = "It is.".
Proof.
  exact (complete_tf_block_is_recovered decimal_ids
           "STATEMENT: Water is wet. ANSWER: TRUE EXPLANATION: It is."
           scenario_B_breakdown 0 "Water is wet. " " TRUE " " It is."
           eq_refl eq_refl eq_refl eq_refl).
Defined.

(** X10: in the fill-in-blank parser a block with a question, an answer
    text and an explanation, each free of ["ANSWER:"] and
    ["EXPLANATION:"], gives the stripped question and explanation, and the
    answers the line loop collects from the lines of the stripped answer
    text. *)
Theorem complete_fib_block_is_recovered isdigit_nonascii uuid4 response_text
    question_breakdown i q a e :
  nth_error (surviving_blocks "QUESTION:" response_text) i
  = Some (answered_text q a e) ->
  free_of answer_keys q = true -> free_of answer_keys a = true ->
  free_of answer_keys e = true ->
  exists records r answers,
    parse_fib_response isdigit_nonascii uuid4 response_text question_breakdown
    = Ok records
    /\ nth_error records i = Some r
    /\ fib_question r = strip q
    /\ fib_explanation r = strip e
    /\ for_each (split LF (strip a)) (fib_answer_line isdigit_nonascii) []
       = Ok answers
    /\ fib_answer r = answers.
Proof.
  intros Hb Hq Ha He.
  destruct (parse_fib_response_spec isdigit_nonascii uuid4 response_text
              question_breakdown) as (records & Hp & Hall).
  destruct (Hall i _ Hb) as (r & Hr & Hm).
  destruct (for_each_all_ok (split LF (strip a))
              (fib_answer_line isdigit_nonascii)
              (fun s l _ => fib_answer_line_ok isdigit_nonascii s l) [])
    as (answers & Hl).
  rewrite (fib_block_text _ _ _ _ q a e answers Hq Ha He Hl) in Hm.
  injection Hm as <- _.
  exists records; eexists; exists answers.
  split; [exact Hp|]; split; [exact Hr|].
  repeat split; try reflexivity; exact Hl.
Qed.

Lemma complete_fib_block_is_recovered_witness :
  exists records r answers,
    parse_fib_response (fun _ => false) decimal_ids
      ("QUESTION: A ________ and a ________ ANSWER: 1. cat" ++ LF
       ++ "2. dog EXPLANATION: Pets.")
      scenario_B_breakdown = Ok records
    /\ nth_error records 0 = Some r
    /\ fib_question r = "A ________ and a ________"
    /\ fib_explanation r = "Pets."
    /\ for_each (split LF ("1. cat" ++ LF ++ "2. dog"))
         (fib_answer_line (fun _ => false)) [] = Ok answers
    /\ fib_answer r = answers.
Proof.
  exact (complete_fib_block_is_recovered (fun _ => false) decimal_ids
           ("QUESTION: A ________ and a ________ ANSWER: 1. cat" ++ LF
            ++ "2. dog EXPLANATION: Pets.")
           scenario_B_breakdown 0 "A ________ and a ________ "
           (" 1. cat" ++ LF ++ "2. dog ") " Pets."
           eq_refl eq_refl eq_refl eq_refl).
Defined.

(** X11: a block with an answer but without ["EXPLANATION:"]: the MCQ and
    the fill-in-blank parsers drop the answer (and the MCQ parser returns
    no distractor), the true/false parser keeps it. *)
Theorem answer_without_explanation isdigit_nonascii uuid4 response_text
    question_breakdown i s a :
  free_of block_keys s = true -> free_of block_keys a = true ->
  (nth_error (surviving_blocks "QUESTION:" response_text) i
   = Some (s ++ "ANSWER:" ++ a) ->
   (exists records r,
      parse_mcq_response uuid4 response_text question_breakdown = Ok records
      /\ nth_error records i = Some r
      /\ mcq_question r = strip s /\ mcq_answer r = ""
      /\ mcq_explanation r = "" /\ mcq_distractors r = [])
   /\ (exists records r,
         parse_fib_response isdigit_nonascii uuid4 response_text
           question_breakdown = Ok records
         /\ nth_error records i = Some r
         /\ fib_question r = strip s /\ fib_answer r = []
         /\ fib_explanation r = ""))
  /\ (nth_error (surviving_blocks "STATEMENT:" response_text) i
      = Some (s ++ "ANSWER:" ++ a) ->
      exists records r,
        parse_tf_response uuid4 response_text question_breakdown = Ok records
        /\ nth_error records i = Some r
        /\ tf_statement r = strip s /\ tf_answer r = strip a
        /\ tf_explanation r = "").
Proof.
  intros Hs Ha.
  assert (Hs' : free_of answer_keys s = true).
  { unfold free_of, block_keys, answer_keys in *; cbn [forallb] in *.
    apply andb_true_iff in Hs as [A1 Hs]; apply andb_true_iff in Hs as [A2 _].
    rewrite A1, A2; reflexivity. }
  assert (Ha' : free_of answer_keys a = true).
  { unfold free_of, block_keys, answer_keys in *; cbn [forallb] in *.
    apply andb_true_iff in Ha as [A1 Ha]; apply andb_true_iff in Ha as [A2 _].
    rewrite A1, A2; reflexivity. }
  split; [intros Hb; split | intros Hb].
  - destruct (parse_mcq_response_spec uuid4 response_text question_breakdown)
      as (records & Hp & _ & Hall).
    destruct (Hall i _ Hb) as (r & Hr & _ & Hm & _).
    rewrite (mcq_block_unexplained _ _ _ s a Hs Ha) in Hm.
    injection Hm as <- _.
    exists records; eexists; split; [exact Hp|]; split; [exact Hr|];
      repeat split; reflexivity.
  - destruct (parse_fib_response_spec isdigit_nonascii uuid4 response_text
                question_breakdown) as (records & Hp & Hall).
    destruct (Hall i _ Hb) as (r & Hr & Hm).
    rewrite (fib_block_unexplained _ _ _ _ s a Hs' Ha') in Hm.
    injection Hm as <- _.
    exists records; eexists; split; [exact Hp|]; split; [exact Hr|];
      repeat split; reflexivity.
  - destruct (parse_tf_response_spec uuid4 response_text question_breakdown)
      as (records & Hp & Hall).
    destruct (Hall i _ Hb) as (r & Hr & Hm).
    rewrite (tf_block_unexplained _ _ _ s a Hs' Ha') in Hm.
    injection Hm as <- _.
    exists records; eexists; split; [exact Hp|]; split; [exact Hr|];
      repeat split; reflexivity.
Qed.

(** The same answer, kept by the true/false parser only. *)
Lemma answer_without_explanation_witness :
  (exists records r,
     parse_mcq_response decimal_ids "QUESTION: Q1 ANSWER: A1" [] = Ok records
     /\ nth_error records 0 = Some r
     /\ mcq_question r = "Q1" /\ mcq_answer r = ""
     /\ mcq_explanation r = "" /\ mcq_distractors r = [])
  /\ (exists records r,
        parse_tf_response decimal_ids "STATEMENT: Q1 ANSWER: A1" []
        = Ok records
        /\ nth_error records 0 = Some r
        /\ tf_statement r = "Q1" /\ tf_answer r = "A1"
        /\ tf_explanation r = "").
Proof.
  split.
  - exact (proj1 (proj1 (answer_without_explanation (fun _ => false)
                           decimal_ids "QUESTION: Q1 ANSWER: A1" [] 0
                           "Q1 " " A1" eq_refl eq_refl) eq_refl)).
  - exact (proj2 (answer_without_explanation (fun _ => false)
                    decimal_ids "STATEMENT: Q1 ANSWER: A1" [] 0
                    "Q1 " " A1" eq_refl eq_refl) eq_refl).
Defined.

(** X12: the blocks of a completion.  Every block the parsers work on is
    non-empty and holds no occurrence of the opening delimiter; and a text
    without the delimiter that stands before an occurrence of it is a
    block of its own, stripped, unless it is blank: what the completion
    says before its first ["QUESTION:"] is parsed as a question block. *)
Theorem text_before_the_delimiter_is_a_block sep p rest :
  In sep opening_keys ->
  contains sep p = false ->
  surviving_blocks sep (p ++ sep ++ rest)
  = ((if truthy (strip p) then [strip p] else [])
       ++ surviving_blocks sep rest)%list
  /\ forall text b, In b (surviving_blocks sep text) ->
       truthy b = true /\ contains sep b = false.
Proof.
  intros Hsep Hp.
  assert (Hd : is_delimiter sep = true)
    by (destruct Hsep as [<-|[<-|[]]]; reflexivity).
  split; [exact (surviving_blocks_cons sep p rest Hd Hp)|].
  destruct (is_delimiter_nonempty sep Hd) as (c & sep' & ->).
  intros text b; apply surviving_block_facts.
Qed.

(** An introduction before the first question becomes a block. *)
Lemma text_before_the_delimiter_is_a_block_witness :
  surviving_blocks "QUESTION:" ("Here you are. " ++ "QUESTION:" ++ " Q1")
  = ["Here you are."; "Q1"].
Proof.
  exact (proj1 (text_before_the_delimiter_is_a_block "QUESTION:"
                  "Here you are. " " Q1" (or_introl eq_refl) eq_refl)).
Defined.

(** X13: one line of a fill-in-blank answer.  A blank line adds nothing; a
    line that, stripped, is ASCII digits, a period, a space and a rest adds
    the stripped rest; a non-blank line that does not start with a digit,
    or holds no period followed by a space, is added as it is, stripped. *)
Theorem numbered_answer_line_loses_its_number isdigit_nonascii answer line :
  (strip line = "" -> fib_answer_line isdigit_nonascii answer line = Ok answer)
  /\ (forall digits rest,
        strip line = digits ++ ". " ++ rest ->
        digits <> "" -> ascii_digits digits = true ->
        fib_answer_line isdigit_nonascii answer line
        = Ok (answer ++ [strip rest])%list)
  /\ (strip line <> "" ->
      first_isdigit isdigit_nonascii (strip line) = false
      \/ contains ". " (strip line) = false ->
      fib_answer_line isdigit_nonascii answer line
      = Ok (answer ++ [strip line])%list).
Proof.
  unfold fib_answer_line; repeat split.
  - intros ->; reflexivity.
  - intros digits rest -> Hne Hd.
    assert (Ht : truthy (digits ++ ". " ++ rest) = true)
      by (destruct digits; [congruence | reflexivity]).
    assert (Hf : first_isdigit isdigit_nonascii (digits ++ ". " ++ rest) = true).
    { destruct digits as [|d ds]; [congruence|].
      cbn [ascii_digits] in Hd.
      apply andb_true_iff in Hd as [Hd _]; apply andb_true_iff in Hd as [Lo Hi].
      cbn [append first_isdigit].
      apply Nat.leb_le in Hi.
      replace (nat_of_ascii d <? 128)%nat with true
        by (symmetry; apply Nat.ltb_lt; lia).
      rewrite Lo; apply Nat.leb_le in Hi; rewrite Hi; reflexivity. }
    assert (E := find_sub_after_digits digits rest Hd).
    rewrite Ht, Hf; unfold contains; rewrite E; cbn [andb].
    rewrite (split_max_one _ _ _ _ _ E); reflexivity.
  - intros Hne Hc.
    assert (Ht : truthy (strip line) = true)
      by (destruct (strip line); [congruence | reflexivity]).
    rewrite Ht; destruct Hc as [-> | ->]; cbn [andb];
      rewrite ?andb_false_r; reflexivity.
Qed.

(** The line ["2. dog"] gives the answer ["dog"]. *)
Lemma numbered_answer_line_loses_its_number_witness :
  fib_answer_line (fun _ => false) ["cat"] " 2. dog " = Ok ["cat"; "dog"].
Proof.
  exact (proj1 (proj2 (numbered_answer_line_loses_its_number (fun _ => false)
                         ["cat"] " 2. dog ")) "2" "dog" eq_refl
           ltac:(discriminate) eq_refl).
Defined.

(* ================================================================== *)
(** * Properties of the generators *)
(* ================================================================== *)

(** X14: what a generator returns.  Whenever [generate_mcqs],
    [generate_fill_in_blank] or [generate_true_false] returns, the response
    holds at least one record, every record is of the generator's own kind
    and carries its type tag, the file name in the metadata is the one
    [generate_filename] gives for the call, the records were saved under
    that name, and the metadata echoes the arguments with [num_questions]
    equal to the number of records returned (not to the number asked
    for). *)
Theorem generators_return_what_they_saved w chapter_name content_id lo num
    dd bd content mc mx g :
  (generate_mcqs w chapter_name content_id lo num dd bd content mc mx = Ok g ->
   sound_generation w "mcq" chapter_name content_id lo dd bd g
   /\ forall r, In r (gen_response g) ->
        exists q, r = McqRecord q /\ mcq_question_type q = "mcq")
  /\ (generate_fill_in_blank w chapter_name content_id lo num dd bd content
        mc mx = Ok g ->
      sound_generation w "fib" chapter_name content_id lo dd bd g
      /\ forall r, In r (gen_response g) ->
           exists q, r = FibRecord q /\ fib_question_type q = "fib")
  /\ (generate_true_false w chapter_name content_id lo num dd bd content
        mc mx = Ok g ->
      sound_generation w "tf" chapter_name content_id lo dd bd g
      /\ forall r, In r (gen_response g) ->
           exists q, r = TfRecord q /\ tf_question_type q = "tf").
Proof.
  split; [|split]; intros H;
    apply generate_ok_inv in H
      as (text & breakdown & response & _ & _ & _ & _ & Hp & S);
    (split; [exact S|]); intros r Hr.
  - assert (T := parsed_records_are_tagged w "mcq" response breakdown _
                   (or_introl eq_refl) Hp r Hr).
    destruct r as [q|q|q]; destruct T as [E T]; try discriminate E; eauto.
  - assert (T := parsed_records_are_tagged w "fib" response breakdown _
                   (or_intror (or_introl eq_refl)) Hp r Hr).
    destruct r as [q|q|q]; destruct T as [E T]; try discriminate E; eauto.
  - assert (T := parsed_records_are_tagged w "tf" response breakdown _
                   (or_intror (or_intror (or_introl eq_refl))) Hp r Hr).
    destruct r as [q|q|q]; destruct T as [E T]; try discriminate E; eauto.
Qed.

(** Two MCQs asked for, one block in the completion: one record is
    returned and counted. *)
Lemma generators_return_what_they_saved_witness :
  match generate_mcqs helpful_world "Chapter 1" "Book" NoObjectives 2
          [("basic", one)] [("apply", one)] (Some "chapter text") None None
  with
  | Ok g =>
      sound_generation helpful_world "mcq" "Chapter 1" "Book" NoObjectives
        [("basic", one)] [("apply", one)] g
      /\ md_num_questions (gen_metadata g) = 1%nat
  | Raise _ => False
  end.
Proof.
  destruct (generate_mcqs helpful_world "Chapter 1" "Book" NoObjectives 2
              [("basic", one)] [("apply", one)] (Some "chapter text")
              None None) as [g|e] eqn:E; [|vm_compute in E; discriminate E].
  split.
  - exact (proj1 (proj1 (generators_return_what_they_saved helpful_world
                           "Chapter 1" "Book" NoObjectives 2
                           [("basic", one)] [("apply", one)]
                           (Some "chapter text") None None g) E)).
  - vm_compute in E; injection E as <-; reflexivity.
Defined.

(* ================================================================== *)
(** * Further properties of the orchestrator *)
(* ================================================================== *)

(** X15: grouping by question type partitions an allocation.  The groups
    are keyed by the question types in their first-seen order, without
    repetition; each group holds exactly the entries of its type, in the
    order of the allocation, and is not empty; every entry is in the group
    of its type; and the totals of the groups sum to the total of the
    allocation. *)
Theorem groups_partition_the_allocation question_dist :
  let groups := _group_by_question_type question_dist in
  dict_keys groups = first_seen (types_of question_dist)
  /\ NoDup (dict_keys groups)
  /\ (forall qt configs, In (qt, configs) groups ->
        configs = configs_of qt question_dist
        /\ configs <> []
        /\ forall c, In c configs -> question_type c = qt)
  /\ (forall k e, In (k, e) question_dist ->
        exists configs,
          In (question_type e, configs) groups /\ In e configs)
  /\ sum_Z (map (fun '(_, configs) => total_for_type configs) groups)
     = allocated question_dist.
Proof.
  intros groups; subst groups.
  destruct (first_seen_facts (types_of question_dist)) as [Hnd Hin].
  assert (Hk : dict_keys (_group_by_question_type question_dist)
               = first_seen (types_of question_dist)).
  { rewrite groups_closed_form; unfold dict_keys; rewrite map_map.
    cbn [fst]; apply map_id. }
  split; [exact Hk|]; split; [rewrite Hk; exact Hnd|]; split; [|split].
  - intros qt configs H; destruct (group_members _ _ _ H) as (-> & Hq).
    split; [reflexivity|]; split.
    + unfold types_of in Hq; apply in_map_iff in Hq as ([k e] & <- & He).
      assert (Hc : In e (configs_of (question_type e) question_dist))
        by (apply configs_of_in; eauto).
      intros E; rewrite E in Hc; destruct Hc.
    + intros c Hc; apply configs_of_in in Hc as (k & _ & Ht); exact Ht.
  - intros k e He; exists (configs_of (question_type e) question_dist); split.
    + rewrite groups_closed_form; apply in_map_iff.
      exists (question_type e); split; [reflexivity|].
      apply Hin; unfold types_of; apply in_map_iff; exists (k, e); auto.
    + apply configs_of_in; eauto.
  - rewrite groups_closed_form, map_map; cbn beta.
    apply group_totals_over; [exact Hnd | intros t Ht; apply Hin; exact Ht].
Qed.

(** X16: for an allocation returned by the allocator that holds at most a
    hundred questions, the parallel stage raises nothing: it returns one
    result per question type, in the first-seen order of the types, each a
    value (never an exception object) tagged with its type.  No division by
    zero can occur, since every group has a positive total. *)
Theorem parallel_gives_one_result_per_type w request chapter_content
    total qd dd bd alloc :
  calculate_question_distribution total qd dd bd = Ok alloc ->
  allocated alloc <= 100 ->
  exists results,
    _generate_questions_parallel w (_group_by_question_type alloc)
      chapter_content request = Ok results
    /\ map result_type results = first_seen (types_of alloc)
    /\ forall x, In x results -> exists r, x = inr r.
Proof.
  intros Hc Hle.
  destruct (parallel_defined w (_group_by_question_type alloc) chapter_content
              request) as (results & Hr).
  { intros qt configs Hin.
    exact (allocation_groups_ok _ _ _ _ _ _ _ Hc Hle Hin). }
  exists results; split; [exact Hr|]; split.
  - rewrite (parallel_result_types _ _ _ _ _ Hr), groups_closed_form.
    unfold dict_keys; rewrite map_map; cbn [fst]; apply map_id.
  - exact (parallel_results_are_values _ _ _ _ _ Hr).
Qed.

(** The default request in a world of empty completions: three results,
    for mcq, fib and tf. *)
Lemma parallel_gives_one_result_per_type_witness :
  match global_allocation default_request with
  | Ok alloc =>
      exists results,
        _generate_questions_parallel silent_world
          (_group_by_question_type alloc) "chapter text" default_request
        = Ok results
        /\ map result_type results = ["mcq"; "fib"; "tf"]
  | Raise _ => False
  end.
Proof.
  destruct (global_allocation default_request) as [alloc|e] eqn:E;
    [|vm_compute in E; discriminate E].
  destruct (parallel_gives_one_result_per_type silent_world default_request
              "chapter text" 10 default_types default_difficulty
              default_blooms alloc E) as (results & Hr & Ht & _).
  - vm_compute in E; injection E as <-; vm_compute; discriminate.
  - exists results; split; [exact Hr|].
    rewrite Ht; vm_compute in E; injection E as <-; reflexivity.
Defined.

(** X17: a request whose pipelines all succeed.  When the content is
    found, the allocation is computed, the parallel stage returns and no
    result carries an error, [generate_questions] answers with status
    ["success"]; [data] has one entry per question type of the allocation,
    in first-seen order, and [files_generated] one file per question type;
    every result is a success tuple whose file is listed and whose records,
    at least one, are stored under its type; the message starts with the
    success template filled with the requested total and the number of
    question types. *)
Theorem all_pipelines_succeeding_give_success w request source_id
    chapter_content question_dist results :
  retrieve_chapter_content w (req_chapter_name request)
    (req_contentId request) (Some (req_max_chunks request))
    (Some (req_max_chars request)) = Ok chapter_content ->
  truthy chapter_content = true ->
  global_allocation request = Ok question_dist ->
  _generate_questions_parallel w (_group_by_question_type question_dist)
    chapter_content request = Ok results ->
  (forall r, In (inr r) results -> pr_error r = None) ->
  let response := generate_questions w request source_id in
  status response = "success"
  /\ dict_keys (data response) = first_seen (types_of question_dist)
  /\ List.length (files_generated response)
     = List.length (first_seen (types_of question_dist))
  /\ (forall r, In (inr r) results ->
        exists file records,
          r = mk_pipeline (pr_question_type r) (Some file) (Some records) None
          /\ records <> []
          /\ In file (files_generated response)
          /\ dict_get (pr_question_type r) (data response)
             = Some (Some records))
  /\ message response
     = success_message (req_total_questions request)
         (List.length (first_seen (types_of question_dist)))
       ++ " for source: " ++ source_id ++ ", chapter: "
       ++ req_chapter_name request ++ success_tail w.
Proof.
  intros Hc Ht Ha Hp Hok response.
  assert (Hval := parallel_results_are_values _ _ _ _ _ Hp).
  assert (Hty := parallel_result_types _ _ _ _ _ Hp).
  assert (Hkeys : dict_keys (_group_by_question_type question_dist)
                  = first_seen (types_of question_dist)).
  { rewrite groups_closed_form; unfold dict_keys; rewrite map_map.
    cbn [fst]; apply map_id. }
  rewrite Hkeys in Hty.
  assert (Hnd : NoDup (map result_type results))
    by (rewrite Hty; apply first_seen_facts).
  assert (Hv : forall x, In x results -> exists r, x = inr r /\ pr_error r = None).
  { intros x Hx; destruct (Hval x Hx) as (r & ->); eauto. }
  (* every result is a success tuple with a non-empty file name *)
  assert (Hs : forall r, In (inr r) results ->
            exists file records,
              r = mk_pipeline (pr_question_type r) (Some file) (Some records)
                    None
              /\ records <> [] /\ truthy file = true).
  { intros r Hr.
    assert (HF := parallel_results _ _ _ _ _ Hp).
    destruct (forall2_right _ _ _ HF (inr r) Hr)
      as ([qt configs] & _ & dd & bd & _ & E).
    injection E as E.
    assert (He := Hok r Hr); rewrite E in He.
    destruct (sync_success _ _ _ _ _ _ _ _ _ _ _ He) as (_ & g & Hg & Es).
    apply generate_ok_inv in Hg as (_ & _ & _ & _ & _ & _ & _ & _ & S).
    destruct S as (Sne & Sf & _).
    exists (md_filename (gen_metadata g)), (gen_response g).
    rewrite E, Es; cbn [pr_question_type]; repeat split; auto.
    exact (filename_truthy _ _ _ _ _ _ Sf). }
  assert (Hfiles : flat_map
                     (fun x =>
                        match x with
                        | inr r =>
                            match pr_file_name r with
                            | Some s => if truthy s then [s] else []
                            | None => []
                            end
                        | inl _ => []
                        end) results
                   = map (fun x =>
                            match x with
                            | inr r => match pr_file_name r with
                                       | Some s => s | None => "" end
                            | inl _ => ""
                            end) results).
  { clear -Hval Hs; induction results as [|x results IH]; [reflexivity|].
    cbn [flat_map map]; rewrite IH.
    - destruct (Hval x (or_introl eq_refl)) as (r & ->).
      destruct (Hs r (or_introl eq_refl)) as (f & rs & -> & _ & Hf).
      cbn [pr_file_name]; rewrite Hf; reflexivity.
    - intros y Hy; apply Hval; right; exact Hy.
    - intros r Hr; apply Hs; right; exact Hr. }
  assert (Hresp : response
                  = respond request "success"
                      (success_message (req_total_questions request)
                         (List.length (first_seen (types_of question_dist)))
                       ++ " for source: " ++ source_id ++ ", chapter: "
                       ++ req_chapter_name request ++ success_tail w)
                      (map (fun x =>
                              match x with
                              | inr r => match pr_file_name r with
                                         | Some s => s | None => "" end
                              | inl _ => ""
                              end) results)
                      (map (fun x =>
                              (result_type x,
                               match x with
                               | inr r => pr_question_data r
                               | inl _ => None
                               end)) results)).
  { subst response; unfold generate_questions, generate_questions_body.
    rewrite Hc; cbn [bind]; rewrite Ht; cbn [negb].
    unfold global_allocation in Ha; rewrite Ha; cbn [bind].
    rewrite Hp; cbn [bind].
    rewrite (process_results_success results Hv Hnd); cbn [bind].
    rewrite Hfiles.
    replace (List.length (_group_by_question_type question_dist))
      with (List.length (first_seen (types_of question_dist)))
      by (rewrite <- Hkeys; unfold dict_keys; rewrite length_map; reflexivity).
    reflexivity. }
  rewrite Hresp; unfold respond; cbn [status data files_generated message].
  split; [reflexivity|]; split; [|split; [|split; [|reflexivity]]].
  - unfold dict_keys; rewrite map_map; cbn [fst]; exact Hty.
  - rewrite length_map, <- Hty, length_map; reflexivity.
  - intros r Hr; destruct (Hs r Hr) as (f & rs & E & Hne & Hf).
    exists f, rs; split; [exact E|]; split; [exact Hne|]; split.
    + apply in_map_iff; exists (inr r); split; [|exact Hr].
      rewrite E; reflexivity.
    + apply in_dict_get.
      * unfold dict_keys; rewrite map_map; cbn [fst]; exact Hnd.
      * apply in_map_iff; exists (inr r); split; [|exact Hr].
        cbn [result_type]; rewrite E at 2; reflexivity.
Qed.

(** The default request in a world of well-formed completions. *)
Lemma all_pipelines_succeeding_give_success_witness :
  let response := generate_questions helpful_world default_request "src" in
  status response = "success"
  /\ dict_keys (data response) = ["mcq"; "fib"; "tf"]
  /\ List.length (files_generated response) = 3%nat.
Proof.
  destruct (global_allocation default_request) as [alloc|e] eqn:Ea;
    [|vm_compute in Ea; discriminate Ea].
  destruct (_generate_questions_parallel helpful_world
              (_group_by_question_type alloc) "chapter text" default_request)
    as [results|e] eqn:Ep;
    [|vm_compute in Ea; injection Ea as <-; vm_compute in Ep; discriminate Ep].
  destruct (all_pipelines_succeeding_give_success helpful_world
              default_request "src" "chapter text" alloc results
              eq_refl eq_refl Ea Ep) as (H1 & H2 & H3 & _).
  - vm_compute in Ea; injection Ea as <-.
    vm_compute in Ep; injection Ep as <-.
    intros r [H|[H|[H|[]]]]; injection H as <-; reflexivity.
  - intros response; subst response.
    rewrite H1, H2, H3.
    vm_compute in Ea; injection Ea as <-; repeat split; reflexivity.
Defined.

(** X18: failures before any pipeline runs.  When the content lookup
    raises, when it finds nothing, or when the allocator raises,
    [generate_questions] answers with status ["error"], the error template
    filled with the text of the exception (for missing content: "No content
    found for chapter '...' in '...'"), no data and no file: the response
    does not depend on the completion client. *)
Theorem early_failures_give_error_response w request source_id :
  let response := generate_questions w request source_id in
  let fetched :=
    retrieve_chapter_content w (req_chapter_name request)
      (req_contentId request) (Some (req_max_chunks request))
      (Some (req_max_chars request)) in
  (forall e, fetched = Raise e ->
     response = respond request "error" (error_message_of (exn_msg e)) [] [])
  /\ (fetched = Ok "" ->
      response
      = respond request "error"
          (error_message_of
             (no_content_message (req_chapter_name request)
                (req_contentId request))) [] [])
  /\ (forall chapter_content e,
        fetched = Ok chapter_content -> truthy chapter_content = true ->
        global_allocation request = Raise e ->
        response
        = respond request "error" (error_message_of (exn_msg e)) [] []).
Proof.
  intros response fetched; subst response fetched.
  unfold generate_questions, generate_questions_body; repeat split.
  - intros e ->; reflexivity.
  - intros ->; reflexivity.
  - intros chapter_content e -> Ht Ha; cbn [bind]; rewrite Ht; cbn [negb].
    unfold global_allocation in Ha; rewrite Ha; reflexivity.
Qed.

(** A content store that knows no such chapter. *)
Lemma early_failures_give_error_response_witness :
  message
    (generate_questions
       (mk_env (fun _ _ _ _ => Ok "") (fun _ => Ok "") (fun _ _ => Ok tt)
          (fun _ => decimal_ids) (fun _ => false) "")
       default_request "src")
  = "❌ Error generating questions: No content found for chapter "
    ++ "'Chapter 1 Taking Charge of Your Health' in 'An Invitation to Health'".
Proof.
  rewrite (proj1 (proj2 (early_failures_give_error_response
                           (mk_env (fun _ _ _ _ => Ok "") (fun _ => Ok "")
                              (fun _ _ => Ok tt) (fun _ => decimal_ids)
                              (fun _ => false) "")
                           default_request "src")) eq_refl).
  reflexivity.
Defined.

(** X19: a request with an empty proportion map.  When one of the three
    proportion maps of the request is empty and the content is found, no
    question is allocated, no pipeline runs, and [generate_questions]
    still answers with status ["success"]: no data, no file, and a message
    that counts zero question types. *)
Theorem empty_proportion_map_gives_empty_success w request source_id
    chapter_content :
  req_question_type_distribution request = []
  \/ req_difficulty_distribution request = []
  \/ req_blooms_taxonomy_distribution request = [] ->
  retrieve_chapter_content w (req_chapter_name request)
    (req_contentId request) (Some (req_max_chunks request))
    (Some (req_max_chars request)) = Ok chapter_content ->
  truthy chapter_content = true ->
  generate_questions w request source_id
  = respond request "success"
      (success_message (req_total_questions request) 0
       ++ " for source: " ++ source_id ++ ", chapter: "
       ++ req_chapter_name request ++ success_tail w) [] [].
Proof.
  intros He Hc Ht.
  unfold generate_questions, generate_questions_body.
  rewrite Hc; cbn [bind]; rewrite Ht; cbn [negb].
  rewrite (calculate_of_empty_table (req_total_questions request)
             (req_question_type_distribution request)
             (req_difficulty_distribution request)
             (req_blooms_taxonomy_distribution request)).
  - reflexivity.
  - rewrite fractional_distribution_flat, (cross_product_empty _ _ _ He).
    reflexivity.
Qed.

(** Ten questions over no question type. *)
Lemma empty_proportion_map_gives_empty_success_witness :
  let response :=
    generate_questions silent_world
      (request_of 10 [] default_difficulty default_blooms) "src" in
  status response = "success" /\ data response = []
  /\ files_generated response = [].
Proof.
  intros response; subst response.
  rewrite (empty_proportion_map_gives_empty_success silent_world
             (request_of 10 [] default_difficulty default_blooms) "src"
             "chapter text" (or_introl eq_refl) eq_refl eq_refl).
  repeat split.
Defined.

(* ================================================================== *)
(** * Properties of strip_json_markers *)
(* ================================================================== *)

(** X20: [strip_json_markers].  A text without backticks is returned
    stripped.  A text with one fenced block, and no other backtick before,
    inside or after it, gives the stripped inside of the block, without a
    [json] that directly follows the opening fence; what stands before
    and after the block is dropped.  A fence that is never closed is not
    removed: the whole text is returned, stripped. *)
Theorem fenced_block_is_unwrapped pre body post :
  has_char "`" pre = false -> has_char "`" body = false ->
  has_char "`" post = false ->
  strip_json_markers pre = strip pre
  /\ strip_json_markers (pre ++ "```json" ++ body ++ "```" ++ post)
     = strip body
  /\ strip_json_markers (pre ++ "```" ++ body ++ "```" ++ post)
     = strip (match strip_prefix "json" body with Some r => r | None => body end)
  /\ strip_json_markers (pre ++ "```" ++ body)
     = strip (pre ++ "```" ++ body).
Proof.
  intros Hpre Hbody Hpost; unfold strip_json_markers; repeat split.
  - rewrite (findall_no_backtick _ pre Hpre); reflexivity.
  - change (pre ++ "```json" ++ body ++ "```" ++ post)
      with (pre ++ fence ++ "json" ++ body ++ fence ++ post).
    destruct (String.length (pre ++ fence ++ "json" ++ body ++ fence ++ post))
      as [|n] eqn:En.
    { rewrite !length_append in En; simpl in En; lia. }
    rewrite (findall_one n pre ("json" ++ body ++ fence ++ post) body post
               Hpre Hbody Hpost eq_refl).
    reflexivity.
  - change (pre ++ "```" ++ body ++ "```" ++ post)
      with (pre ++ fence ++ body ++ fence ++ post).
    destruct (String.length (pre ++ fence ++ body ++ fence ++ post))
      as [|n] eqn:En.
    { rewrite !length_append in En; simpl in En; lia. }
    destruct (strip_prefix "json" body) as [r|] eqn:Ej.
    + assert (Hb := strip_prefix_spec _ _ _ Ej).
      assert (Hr : has_char "`" r = false).
      { rewrite Hb, has_char_app in Hbody.
        apply orb_false_iff in Hbody as [_ Hr]; exact Hr. }
      rewrite (findall_one n pre (body ++ fence ++ post) r post
                 Hpre Hr Hpost).
      * reflexivity.
      * rewrite (strip_prefix_more _ _ _ (fence ++ post) Ej); reflexivity.
    + rewrite (findall_one n pre (body ++ fence ++ post) body post
                 Hpre Hbody Hpost).
      * reflexivity.
      * destruct (strip_prefix "json" (body ++ fence ++ post)) as [r|] eqn:E;
          [|reflexivity].
        exfalso; revert Ej E Hbody; clear.
        unfold fence.
        destruct body as [|b0 body]; [discriminate|]; cbn [strip_prefix append].
        destruct (Ascii.eqb "j" b0); [|discriminate].
        destruct body as [|b1 body]; [discriminate|]; cbn [strip_prefix append].
        destruct (Ascii.eqb "s" b1); [|discriminate].
        destruct body as [|b2 body]; [discriminate|]; cbn [strip_prefix append].
        destruct (Ascii.eqb "o" b2); [|discriminate].
        destruct body as [|b3 body]; [discriminate|]; cbn [strip_prefix append].
        destruct (Ascii.eqb "n" b3); discriminate.
  - change (pre ++ "```" ++ body) with (pre ++ fence ++ body).
    destruct (String.length (pre ++ fence ++ body)) as [|n] eqn:En.
    { rewrite !length_append in En; simpl in En; lia. }
    cbn [findall_fenced].
    rewrite (find_sub_fence pre body Hpre).
    assert (Hj : has_char "`"
                   (match strip_prefix "json" body with
                    | Some r => r | None => body end) = false).
    { destruct (strip_prefix "json" body) as [r|] eqn:Ej; [|exact Hbody].
      rewrite (strip_prefix_spec _ _ _ Ej), has_char_app in Hbody.
      apply orb_false_iff in Hbody as [_ Hr]; exact Hr. }
    rewrite (find_sub_no_backtick _ Hj); reflexivity.
Qed.

(** A JSON object in a fenced block between two sentences. *)
Lemma fenced_block_is_unwrapped_witness :
  strip_json_markers ("Here it is: ```json" ++ LF ++ "{}" ++ LF ++ "``` Bye")
  = "{}".
Proof.
  exact (proj1 (proj2 (fenced_block_is_unwrapped "Here it is: "
                         (LF ++ "{}" ++ LF) " Bye"
                         eq_refl eq_refl eq_refl))).
Defined.

(* ================================================================== *)
(** * Properties of the content service *)
(* ================================================================== *)

(** X21: the index of a book title.  [get_index_for_title] returns the
    index stored for the title exactly for the titles
    [get_available_titles] lists, and for every other title (the
    comparison is exact, case included) raises a [ValueError] that names
    the title and lists the available ones. *)
Theorem index_is_found_for_available_titles title :
  (In title IndexMappingService.get_available_titles ->
   exists index,
     IndexMappingService.get_index_for_title title = Ok index
     /\ In (title, index) IndexMappingService.index_map)
  /\ (~ In title IndexMappingService.get_available_titles ->
      IndexMappingService.get_index_for_title title
      = Raise (mk_exn ValueError
                 ("Title '" ++ title ++ "' not found. Available titles: "
                  ++ "['An Invitation to Health', 'Steps to writing well']"))).
Proof. exact (get_index_for_title_cases title). Qed.

(** A title in another case is not found. *)
Lemma index_is_found_for_available_titles_witness :
  IndexMappingService.get_index_for_title "an invitation to health"
  = Raise (mk_exn ValueError
             ("Title 'an invitation to health' not found. Available titles: "
              ++ "['An Invitation to Health', 'Steps to writing well']")).
Proof.
  apply (proj2 (index_is_found_for_available_titles
                  "an invitation to health")).
  intros [H|[H|[]]]; discriminate H.
Defined.

(** X22: [retrieve_chapter_content].  An empty chapter name is refused
    first, then an empty content id, then a title without index (as
    "Unsupported book title: ..."), each with a [ValueError] and before any
    search; a failing content search is raised again as "Search error in
    index ...".  When the service returns a text, that text is a prefix of
    the concatenation of the hit values, it is empty when the search
    reports no hit, and it holds at most [max_chars] code points, where a
    missing or zero [max_chars] stands for the setting [MAX_CHARS]. *)
Theorem retrieved_content_is_bounded st c chapter_name content_id
    max_chunks max_chars :
  let fetched :=
    ContentRetrievalService.retrieve_chapter_content st c chapter_name
      content_id max_chunks max_chars in
  let limit := or_default max_chars (MAX_CHARS st) in
  (chapter_name = "" ->
   fetched = Raise (mk_exn ValueError "Chapter name must be provided"))
  /\ (chapter_name <> "" -> content_id = "" ->
      fetched = Raise (mk_exn ValueError "Content ID must be provided"))
  /\ (chapter_name <> "" -> content_id <> "" ->
      ~ In content_id IndexMappingService.get_available_titles ->
      fetched
      = Raise (mk_exn ValueError
                 ("Unsupported book title: Title '" ++ content_id
                  ++ "' not found. Available titles: "
                  ++ "['An Invitation to Health', 'Steps to writing well']")))
  /\ (forall index chapter_key e,
        chapter_name <> "" -> content_id <> "" ->
        IndexMappingService.get_index_for_title content_id = Ok index ->
        ContentRetrievalService._determine_chapter_key c content_id
        = Ok chapter_key ->
        content_search c index chapter_key chapter_name
          (or_default max_chunks (MAX_CHUNKS st)) = Raise e ->
        fetched
        = Raise (mk_exn ExceptionOther
                   ("Search error in index " ++ index ++ ": " ++ exn_msg e)))
  /\ (forall text,
        fetched = Ok text ->
        exists index chapter_key response suffix,
          content_search c index chapter_key chapter_name
            (or_default max_chunks (MAX_CHUNKS st)) = Ok response
          /\ String.concat "" (hit_values response) = text ++ suffix
          /\ (total_hits response = 0 -> text = "")
          /\ (0 <= limit -> py_len text <= limit)).
Proof.
  intros fetched limit; subst fetched limit.
  unfold ContentRetrievalService.retrieve_chapter_content.
  assert (T : forall s, s <> "" -> truthy s = true)
    by (intros [|? ?] H; [congruence | reflexivity]).
  split; [intros ->; reflexivity|].
  split; [intros Hc ->; rewrite (T _ Hc); reflexivity|].
  split; [|split].
  - intros Hc Hi Hn; rewrite (T _ Hc), (T _ Hi); cbn [negb].
    rewrite (proj2 (get_index_for_title_cases content_id) Hn).
    reflexivity.
  - intros index chapter_key e Hc Hi Hx Hk Hs.
    rewrite (T _ Hc), (T _ Hi), Hx; cbn [negb bind].
    rewrite Hk; cbn [bind]; rewrite Hs; reflexivity.
  - intros text.
    destruct (truthy chapter_name); cbn [negb]; [|discriminate].
    destruct (truthy content_id); cbn [negb]; [|discriminate].
    destruct (IndexMappingService.get_index_for_title content_id)
      as [index|e]; cbn [bind]; [|discriminate].
    destruct (ContentRetrievalService._determine_chapter_key c content_id)
      as [chapter_key|e]; cbn [bind]; [|discriminate].
    destruct (content_search c index chapter_key chapter_name
                (or_default max_chunks (MAX_CHUNKS st)))
      as [response|e] eqn:Es; cbn [bind]; [|discriminate].
    rewrite fold_append_concat; cbn [append].
    set (chapter_text := String.concat "" (hit_values response)).
    set (limit := or_default max_chars (MAX_CHARS st)).
    destruct (Z.eqb_spec (total_hits response) 0) as [Hz|Hnz].
    + intros H; injection H as <-.
      exists index, chapter_key, response, chapter_text.
      repeat split; auto; simpl; lia.
    + destruct (Z.gtb_spec (py_len chapter_text) limit) as [Hgt|Hle];
        intros H; injection H as <-.
      * destruct (slice_to_prefix chapter_text limit) as (suffix & Hs).
        exists index, chapter_key, response, suffix.
        split; [exact Es|]; split; [exact Hs|]; split; [contradiction|].
        apply slice_to_len.
      * exists index, chapter_key, response, "".
        split; [exact Es|]; split; [rewrite append_nil_r; reflexivity|].
        split; [contradiction | intros _; exact Hle].
Qed.

(** Two chunks, at most five code points asked for. *)
Lemma retrieved_content_is_bounded_witness :
  match ContentRetrievalService.retrieve_chapter_content default_settings
          two_chunks "Chapter 1" "An Invitation to Health" None (Some 5) with
  | Ok text => py_len text <= 5
  | Raise _ => False
  end.
Proof.
  destruct (ContentRetrievalService.retrieve_chapter_content default_settings
              two_chunks "Chapter 1" "An Invitation to Health" None (Some 5))
    as [text|e] eqn:E; [|vm_compute in E; discriminate E].
  destruct (proj2 (proj2 (proj2 (proj2
              (retrieved_content_is_bounded default_settings two_chunks
                 "Chapter 1" "An Invitation to Health" None (Some 5)))))
              text E) as (_ & _ & _ & _ & _ & _ & _ & Hb).
  apply Hb; simpl; lia.
Defined.

(** X23: the chapter key.  For a title with an index,
    [_determine_chapter_key] answers ["toc_level_2_title"] when the
    level-2 aggregation returns a bucket whose lowercased key holds
    ["chapter"], and ["toc_level_1_title"] when the aggregation returns no
    bucket or fails: a failing aggregation search is swallowed, not
    raised.  It answers nothing else. *)
Theorem chapter_key_is_level_two_or_one c content_id index :
  IndexMappingService.get_index_for_title content_id = Ok index ->
  let key := ContentRetrievalService._determine_chapter_key c content_id in
  (key = Ok "toc_level_2_title" \/ key = Ok "toc_level_1_title")
  /\ (forall buckets b,
        chapter_names_search c index "toc_level_2_title" = Ok buckets ->
        In b buckets -> contains "chapter" (lower c b) = true ->
        key = Ok "toc_level_2_title")
  /\ (chapter_names_search c index "toc_level_2_title" = Ok [] ->
      key = Ok "toc_level_1_title")
  /\ (forall e,
        chapter_names_search c index "toc_level_2_title" = Raise e ->
        key = Ok "toc_level_1_title").
Proof.
  intros Hi key; subst key.
  unfold ContentRetrievalService._determine_chapter_key.
  rewrite Hi; cbn [bind].
  unfold ContentRetrievalService._find_chapter_names.
  split; [|split; [|split]].
  - destruct (_ && _); auto.
  - intros buckets b -> Hb Hc.
    rewrite (contains_join_part "chapter" (map (lower c) buckets) (lower c b));
      [|apply in_map; exact Hb | exact Hc].
    destruct buckets; [destruct Hb | reflexivity].
  - intros ->; reflexivity.
  - intros e ->; reflexivity.
Qed.

(** Chapters named at level 2. *)
Lemma chapter_key_is_level_two_or_one_witness :
  ContentRetrievalService._determine_chapter_key
    (mk_opensearch (fun _ _ => Ok ["Front matter"; "chapter 1"])
       (fun _ _ _ _ => Ok (mk_search_response [] 0)) (fun s => s))
    "An Invitation to Health"
  = Ok "toc_level_2_title".
Proof.
  apply (proj1 (proj2 (chapter_key_is_level_two_or_one
                         (mk_opensearch
                            (fun _ _ => Ok ["Front matter"; "chapter 1"])
                            (fun _ _ _ _ => Ok (mk_search_response [] 0))
                            (fun s => s))
                         "An Invitation to Health" "chunk_357973585" eq_refl))
           ["Front matter"; "chapter 1"] "chapter 1" eq_refl);
    [right; left; reflexivity | reflexivity].
Defined.

